(** * Sales-tax refund report generator: a shallow embedding

    The repository holds three versions of one batch script:

    - the SQLite version, [NNOG Sales Tax Refund.py] (module [Sqlite]);
    - the first pandas version (module [PandasV1]);
    - the final pandas version, with logging (module [Pandas]).

    Text is modelled as [string] (ASCII), money as exact rationals [Q]
    (the scripts use binary floating point, which is idealised here),
    a parsed date as an [option date] ([None] is NaT / NULL), a ledger
    cell as [cell].  Python exceptions are explicit results. *)

From Stdlib Require Import List Bool Arith ZArith QArith Qabs Lia Lqa.
From Stdlib Require Import Permutation Sorted.
From Stdlib Require Import Ascii String OrdersEx.
Import ListNotations.

Local Open Scope string_scope.
Local Open Scope Z_scope.

(** ** Python results *)

Inductive exn : Type := ValueError | IndexError.

Inductive res (A : Type) : Type :=
| Ok (a : A)
| Raise (e : exn).
Arguments Ok {A} a.
Arguments Raise {A} e.

Definition bind {A B : Type} (m : res A) (k : A -> res B) : res B :=
  match m with
  | Ok a => k a
  | Raise e => Raise e
  end.

Notation "x <- m ;; k" := (bind m (fun x => k))
  (at level 61, m at next level, right associativity).

(** ** Python strings *)

Module Str.

(** Characters removed by [str.strip()] and skipped by [int()]. *)
Definition is_space (c : ascii) : bool :=
  let n := nat_of_ascii c in
  (((9 <=? n) && (n <=? 13)) || ((28 <=? n) && (n <=? 32)))%nat.

Fixpoint lstrip (s : string) : string :=
  match s with
  | String c s' => if is_space c then lstrip s' else s
  | EmptyString => EmptyString
  end.

Fixpoint rstrip (s : string) : string :=
  match s with
  | String c s' =>
      match rstrip s' with
      | EmptyString => if is_space c then EmptyString else String c EmptyString
      | t => String c t
      end
  | EmptyString => EmptyString
  end.

Definition strip (s : string) : string := rstrip (lstrip s).

(** [c in s] for a one-character [c]. *)
Fixpoint contains (c : ascii) (s : string) : bool :=
  match s with
  | String d s' => Ascii.eqb d c || contains c s'
  | EmptyString => false
  end.

(** [s.split(sep)] for a one-character separator. *)
Fixpoint split (sep : ascii) (s : string) : list string :=
  match s with
  | EmptyString => [EmptyString]
  | String c s' =>
      if Ascii.eqb c sep then EmptyString :: split sep s'
      else match split sep s' with
           | p :: ps => String c p :: ps
           | [] => [String c EmptyString]
           end
  end.

(** [s.replace(a, b)] for one-character [a] and [b]. *)
Fixpoint replace (a b : ascii) (s : string) : string :=
  match s with
  | String c s' => String (if Ascii.eqb c a then b else c) (replace a b s')
  | EmptyString => EmptyString
  end.

(** [s.replace(a, '')] for a one-character [a]. *)
Fixpoint delete (a : ascii) (s : string) : string :=
  match s with
  | String c s' => if Ascii.eqb c a then delete a s' else String c (delete a s')
  | EmptyString => EmptyString
  end.

Definition upper_char (c : ascii) : ascii :=
  let n := nat_of_ascii c in
  if ((97 <=? n) && (n <=? 122))%nat then ascii_of_nat (n - 32) else c.

(** [s.upper()] on ASCII text. *)
Fixpoint upper (s : string) : string :=
  match s with
  | String c s' => String (upper_char c) (upper s')
  | EmptyString => EmptyString
  end.

(** [s.startswith(p)]. *)
Fixpoint startswith (p s : string) : bool :=
  match p, s with
  | EmptyString, _ => true
  | String a p', String b s' => Ascii.eqb a b && startswith p' s'
  | String _ _, EmptyString => false
  end.

(** [v in x] for strings. *)
Fixpoint isin (v x : string) : bool :=
  startswith v x ||
  match x with
  | String _ x' => isin v x'
  | EmptyString => false
  end.

Definition digit (c : ascii) : option Z :=
  let n := nat_of_ascii c in
  if ((48 <=? n) && (n <=? 57))%nat then Some (Z.of_nat (n - 48)) else None.

(** The digits of a decimal literal; Python allows one underscore
    between two digits. *)
Fixpoint digits (acc : Z) (after_digit : bool) (s : string) : option Z :=
  match s with
  | EmptyString => if after_digit then Some acc else None
  | String c s' =>
      match digit c with
      | Some d => digits (10 * acc + d) true s'
      | None =>
          if Ascii.eqb c "_" && after_digit
          then match s' with
               | EmptyString => None
               | _ => digits acc false s'
               end
          else None
      end
  end.

(** [int(s)]: surrounding whitespace, an optional sign, digits. *)
Definition int (s : string) : res Z :=
  let t := strip s in
  let parsed :=
    match t with
    | String "+" r => digits 0 false r
    | String "-" r => option_map Z.opp (digits 0 false r)
    | _ => digits 0 false t
    end in
  match parsed with
  | Some z => Ok z
  | None => Raise ValueError
  end.

Definition digit_char (d : Z) : ascii := ascii_of_nat (48 + Z.to_nat d).

Fixpoint decimal_fuel (fuel : nat) (n : Z) (acc : string) : string :=
  match fuel with
  | O => acc
  | S f =>
      let acc' := String (digit_char (n mod 10)) acc in
      if n <? 10 then acc' else decimal_fuel f (n / 10) acc'
  end.

(** [str(n)] for a non-negative [n]. *)
Definition decimal_nonneg (n : Z) : string :=
  decimal_fuel (S (Z.to_nat (Z.log2 n))) n EmptyString.

(** [str(n)], also the [{n}] of an f-string. *)
Definition decimal (n : Z) : string :=
  if n <? 0 then String "-" (decimal_nonneg (- n)) else decimal_nonneg n.

Fixpoint zeros (k : nat) : string :=
  match k with
  | O => EmptyString
  | S k' => String "0" (zeros k')
  end.

(** [f"{n:0wd}"]: the sign counts towards the width. *)
Definition zfill (w : nat) (n : Z) : string :=
  if n <? 0
  then let d := decimal_nonneg (- n) in
       String "-" (zeros (w - 1 - String.length d) ++ d)
  else let d := decimal_nonneg n in
       zeros (w - String.length d) ++ d.

Definition lower_char (c : ascii) : ascii :=
  let n := nat_of_ascii c in
  if ((65 <=? n) && (n <=? 90))%nat then ascii_of_nat (n + 32) else c.

(** [s.lower()] on ASCII text. *)
Fixpoint lower (s : string) : string :=
  match s with
  | String c s' => String (lower_char c) (lower s')
  | EmptyString => EmptyString
  end.

(** [s.capitalize()]: the first character in upper case, the rest in
    lower case. *)
Definition capitalize (s : string) : string :=
  match s with
  | String c s' => String (upper_char c) (lower s')
  | EmptyString => EmptyString
  end.

(** [s.replace(a, b)] for a one-character [a] and any [b]. *)
Fixpoint replace_with (a : ascii) (b : string) (s : string) : string :=
  match s with
  | String c s' =>
      if Ascii.eqb c a then b ++ replace_with a b s'
      else String c (replace_with a b s')
  | EmptyString => EmptyString
  end.

(** [s.strip(chars)]: the characters of [chars] are taken off both
    ends. *)
Fixpoint lstrip_of (chars s : string) : string :=
  match s with
  | String c s' => if contains c chars then lstrip_of chars s' else s
  | EmptyString => EmptyString
  end.

Fixpoint rstrip_of (chars s : string) : string :=
  match s with
  | String c s' =>
      match rstrip_of chars s' with
      | EmptyString => if contains c chars then EmptyString else String c EmptyString
      | t => String c t
      end
  | EmptyString => EmptyString
  end.

Definition strip_of (chars s : string) : string := rstrip_of chars (lstrip_of chars s).

(** [s.split()]: the words between runs of whitespace. *)
Fixpoint split_whitespace (s : string) : list string :=
  match s with
  | EmptyString => []
  | String c s' =>
      if is_space c then split_whitespace s'
      else match s' with
           | EmptyString => [String c EmptyString]
           | String d _ =>
               if is_space d then String c EmptyString :: split_whitespace s'
               else match split_whitespace s' with
                    | w :: ws => String c w :: ws
                    | [] => [String c EmptyString]
                    end
           end
  end.

(** [sep.join(l)]. *)
Fixpoint join (sep : string) (l : list string) : string :=
  match l with
  | [] => EmptyString
  | w :: ws =>
      match ws with
      | [] => w
      | _ :: _ => w ++ sep ++ join sep ws
      end
  end.

End Str.

(** ** Month specifications *)

(** [list(range(a, b))]. *)
Definition range (a b : Z) : list Z :=
  map (fun i => a + Z.of_nat i) (seq 0 (Z.to_nat (b - a))).

Section Sorting.
Context {A : Type} (leb : A -> A -> bool).

Fixpoint insert_sorted (x : A) (l : list A) : list A :=
  match l with
  | [] => [x]
  | y :: l' => if leb x y then x :: l else y :: insert_sorted x l'
  end.

(** A stable sort, as [sorted] and [DataFrame.sort_values] on several
    keys are. *)
Definition stable_sort (l : list A) : list A :=
  fold_right insert_sorted [] l.
End Sorting.

Definition sorted (l : list Z) : list Z := stable_sort Z.leb l.

Definition in_calendar (m : Z) : bool := (1 <=? m) && (m <=? 12).

Fixpoint map_res {A B : Type} (f : A -> res B) (l : list A) : res (list B) :=
  match l with
  | [] => Ok []
  | x :: l' => y <- f x ;; ys <- map_res f l' ;; Ok (y :: ys)
  end.

(** [except ValueError: months = [1]]; any other exception propagates. *)
Definition except_ValueError (body : res (list Z)) : res (list Z) :=
  match body with
  | Ok months => Ok months
  | Raise ValueError => Ok [1]
  | Raise e => Raise e
  end.

Module Pandas_months.

(** The [try] block of the final version. *)
Definition try_block (month_input : string) : res (list Z) :=
  let month_input := Str.strip month_input in
  if Str.contains "-" month_input then
    let parts := Str.split "-" month_input in
    match parts with
    | p0 :: p1 :: _ =>
        start <- Str.int p0 ;;
        end_ <- Str.int p1 ;;
        Ok (range start (end_ + 1))
    | _ => Raise IndexError
    end
  else if Str.contains "," month_input then
    map_res (fun m => Str.int (Str.strip m)) (Str.split "," month_input)
  else
    m <- Str.int month_input ;; Ok [m].

Definition parse_months (month_input : string) : res (list Z) :=
  months <- except_ValueError (try_block month_input) ;;
  Ok (sorted (filter in_calendar months)).

End Pandas_months.

Module Sqlite_months.

(** [start, end = map(int, month_input.split('-'))]: the unpacking
    raises ValueError unless there are exactly two items. *)
Definition unpack_two (parts : list string) : res (Z * Z) :=
  match parts with
  | [p0; p1] =>
      start <- Str.int p0 ;;
      end_ <- Str.int p1 ;;
      Ok (start, end_)
  | _ => Raise ValueError
  end.

Definition try_block (month_input : string) : res (list Z) :=
  if Str.contains "-" month_input then
    se <- unpack_two (Str.split "-" month_input) ;;
    Ok (range (fst se) (snd se + 1))
  else if Str.contains "," month_input then
    map_res (fun m => Str.int (Str.strip m)) (Str.split "," month_input)
  else
    m <- Str.int (Str.strip month_input) ;; Ok [m].

Definition parse_months (month_input : string) : res (list Z) :=
  months <- except_ValueError (try_block month_input) ;;
  Ok (filter in_calendar months).

End Sqlite_months.

Module PandasV1_months.

Definition try_block (month_input : string) : res (list Z) :=
  let month_input := Str.strip month_input in
  if Str.contains "-" month_input then
    se <- Sqlite_months.unpack_two (Str.split "-" month_input) ;;
    Ok (range (fst se) (snd se + 1))
  else if Str.contains "," month_input then
    map_res (fun m => Str.int (Str.strip m)) (Str.split "," month_input)
  else
    m <- Str.int month_input ;; Ok [m].

Definition parse_months (month_input : string) : res (list Z) :=
  months <- except_ValueError (try_block month_input) ;;
  Ok (sorted (filter in_calendar months)).

End PandasV1_months.

(** The three versions of [parse_months]. *)
Inductive version : Type := SqliteVersion | PandasFirst | PandasFinal.

Definition try_block (v : version) : string -> res (list Z) :=
  match v with
  | SqliteVersion => Sqlite_months.try_block
  | PandasFirst => PandasV1_months.try_block
  | PandasFinal => Pandas_months.try_block
  end.

Definition parse_months (v : version) : string -> res (list Z) :=
  match v with
  | SqliteVersion => Sqlite_months.parse_months
  | PandasFirst => PandasV1_months.parse_months
  | PandasFinal => Pandas_months.parse_months
  end.

(** ** The ledger *)

Record date : Type := mk_date { dt_year : Z; dt_month : Z; dt_day : Z }.

(** A cell of the gross-amount column as loaded: missing, a number, or
    text such as [(1,234.50)]. *)
Inductive cell : Type :=
| NaN
| Num (q : Q)
| Text (s : string).

(** A transaction row; [G] is the type of the gross-amount column
    ([cell] as loaded, [option Q] once numeric, [None] being NaN).  The
    vendor, property and billing columns hold text; the invoice number
    is the text [astype(str)] gives. *)
Record ledger_row (G : Type) : Type := mk_row {
  name_1 : string;
  txn_invoice_no : string;
  txn_inv_date : option date;
  txn_gross_amt : G;
  property : string;
  billing_cat : string
}.
Arguments mk_row {G}.
Arguments name_1 {G}.
Arguments txn_invoice_no {G}.
Arguments txn_inv_date {G}.
Arguments txn_gross_amt {G}.
Arguments property {G}.
Arguments billing_cat {G}.

Definition raw_row : Type := ledger_row cell.
Definition txn : Type := ledger_row (option Q).

Definition with_gross {G H : Type} (r : ledger_row G) (g : H) : ledger_row H :=
  mk_row (name_1 r) (txn_invoice_no r) (txn_inv_date r) g (property r) (billing_cat r).

Definition with_invoice {G : Type} (r : ledger_row G) (i : string) : ledger_row G :=
  mk_row (name_1 r) i (txn_inv_date r) (txn_gross_amt r) (property r) (billing_cat r).

(** Which of the expected columns the loaded ledger has; the scripts
    test [col in df.columns] before each use. *)
Record columns : Type := mk_columns {
  has_date : bool;
  has_gross : bool;
  has_invoice : bool;
  has_vendor : bool;
  has_property : bool;
  has_billing : bool
}.

Definition all_columns : columns := mk_columns true true true true true true.

(** The invoice-reference file: an invoice number and the image-slot
    columns ([related_file_001], ...) in column order. *)
Record ir_row : Type := mk_ir { invoice_no : string; related_file : list (option string) }.

Record ir_table : Type := mk_ir_table {
  ir_has_invoice : bool;
  img_cols : nat;
  ir_rows : list ir_row
}.

(** A cell of the report: the sentinel is the integer 0, everything
    else is text. *)
Inductive value : Type :=
| VInt (n : Z)
| VStr (s : string).

(** ** Numbers *)

Definition Qlt_bool (x y : Q) : bool := negb (Qle_bool y x).

(** Digits and at most one decimal point, as a fraction. *)
Fixpoint decimal_digits (num : Z) (den : positive) (frac seen : bool) (s : string)
  : option Q :=
  match s with
  | EmptyString => if seen then Some (num # den) else None
  | String c s' =>
      match Str.digit c with
      | Some d =>
          decimal_digits (10 * num + d) (if frac then (10 * den)%positive else den)
                         frac true s'
      | None =>
          if Ascii.eqb c "." && negb frac
          then decimal_digits num den true seen s'
          else None
      end
  end.

(** [pd.to_numeric(s, errors='coerce')] on text: an optional sign,
    digits and at most one decimal point, with blanks around; anything
    else is NaN.  Exponents and the spellings of infinity are outside
    this model. *)
Definition to_numeric (s : string) : option Q :=
  match Str.strip s with
  | String "-" r => option_map Qopp (decimal_digits 0 1 false false r)
  | String "+" r => decimal_digits 0 1 false false r
  | t => decimal_digits 0 1 false false t
  end.

(** The numeric prefix read by SQLite's [CAST(text AS NUMERIC)]: what
    follows the prefix is ignored, and no prefix at all gives 0.
    Exponents are outside this model. *)
Fixpoint numeric_prefix (num : Z) (den : positive) (frac : bool) (s : string) : Q :=
  match s with
  | EmptyString => num # den
  | String c s' =>
      match Str.digit c with
      | Some d =>
          numeric_prefix (10 * num + d) (if frac then (10 * den)%positive else den)
                         frac s'
      | None =>
          if Ascii.eqb c "." && negb frac
          then numeric_prefix num den true s'
          else num # den
      end
  end.

Definition cast_numeric (s : string) : Q :=
  match Str.lstrip s with
  | String "-" r => Qopp (numeric_prefix 0 1 false r)
  | String "+" r => numeric_prefix 0 1 false r
  | t => numeric_prefix 0 1 false t
  end.

(** Sum of a numeric column, NaN skipped. *)
Definition amount (g : option Q) : Q :=
  match g with
  | Some q => q
  | None => 0%Q
  end.

Definition Qsum (l : list Q) : Q := fold_right Qplus 0%Q l.

(** ** Shared pieces of the two pandas versions *)

Definition clean_currency (x : cell) : option Q :=
  match x with
  | Text s =>
      to_numeric
        (Str.delete "$" (Str.delete "," (Str.delete ")" (Str.replace "(" "-" s))))
  | Num q => Some q
  | NaN => None
  end.

(** [.str.strip().str.replace(r'\.0$', '', regex=True)]. *)
Fixpoint drop_dot_zero (s : string) : string :=
  match s with
  | String "." (String "0" EmptyString) => EmptyString
  | String c s' => String c (drop_dot_zero s')
  | EmptyString => EmptyString
  end.

Definition clean_invoice_no (s : string) : string := drop_dot_zero (Str.strip s).

Definition notna {A : Type} (x : option A) : bool :=
  match x with
  | Some _ => true
  | None => false
  end.

Definition excluded_vendors : list string :=
  [ "J R CONSTRUCTION"; "MONTEZUMA WELL SERVICE"; "MARYBOY";
    "NELSON'S WELDING & ROUSTABOUT"; "3G CONSULTING" ].

Definition q_map : list (Z * Z) :=
  [ (1, 1); (2, 1); (3, 1); (4, 2); (5, 2); (6, 2);
    (7, 3); (8, 3); (9, 3); (10, 4); (11, 4); (12, 4) ].

(** [q_map.get(month, 1)]. *)
Definition q_map_get (month : Z) : Z :=
  match find (fun kv => fst kv =? month) q_map with
  | Some kv => snd kv
  | None => 1
  end.

Definition dquote : ascii := ascii_of_nat 34.
Definition backslash : string := String (ascii_of_nat 92) EmptyString.

(** ** Sorting a frame on several columns *)

Definition comparator (A : Type) : Type := A -> A -> comparison.

Fixpoint lexicographic {A : Type} (by_ : list (comparator A)) (a b : A) : comparison :=
  match by_ with
  | [] => Eq
  | c :: by' =>
      match c a b with
      | Eq => lexicographic by' a b
      | o => o
      end
  end.

Definition not_after {A : Type} (by_ : list (comparator A)) (a b : A) : bool :=
  match lexicographic by_ a b with
  | Gt => false
  | _ => true
  end.

(** [df.sort_values(by=..., ascending=...)]; no keys leaves the frame
    as it is. *)
Definition sort_values {A : Type} (by_ : list (comparator A)) (df : list A) : list A :=
  stable_sort (not_after by_) df.

Definition ascending_text {A : Type} (col : A -> string) : comparator A :=
  fun a b => String.compare (col a) (col b).

(** Largest first, NaN last. *)
Definition descending_number {A : Type} (col : A -> option Q) : comparator A :=
  fun a b =>
    match col a, col b with
    | Some x, Some y => Qcompare y x
    | Some _, None => Lt
    | None, Some _ => Gt
    | None, None => Eq
    end.

(** ** The final pandas version *)

Module Pandas.

(** Section 2 of [process_sales_tax]: currency cleaning, then the
    rows without a number are dropped; then the invoice numbers. *)
Definition preprocess (cols : columns) (df_jib : list raw_row) : list txn :=
  let df1 :=
    if has_gross cols
    then filter (fun r => notna (txn_gross_amt r))
                (map (fun r => with_gross r (clean_currency (txn_gross_amt r))) df_jib)
    else map (fun r => with_gross r (@None Q)) df_jib in
  if has_invoice cols
  then map (fun r => with_invoice r (clean_invoice_no (txn_invoice_no r))) df1
  else df1.

(** A row of [df_month] once [Inv_Total] is attached. *)
Record frame_row : Type := mk_frame_row { tx : txn; Inv_Total : Q }.

Definition date_mask (month year : Z) (r : txn) : bool :=
  match txn_inv_date r with
  | Some d => (dt_month d =? month) && (dt_year d =? year)
  | None => false
  end.

Definition filter_by_date (cols : columns) (month year : Z) (df_jib : list txn)
  : list txn :=
  if has_date cols then filter (date_mask month year) df_jib else df_jib.

(** [sort_cols]: vendor, invoice, property, billing ascending, then
    gross descending, each only when the column exists. *)
Definition sort_cols (cols : columns) : list (comparator txn) :=
  (if has_vendor cols then [ascending_text name_1] else []) ++
  (if has_invoice cols then [ascending_text txn_invoice_no] else []) ++
  (if has_property cols then [ascending_text property] else []) ++
  (if has_billing cols then [ascending_text billing_cat] else []) ++
  (if has_gross cols then [descending_number txn_gross_amt] else []).

(** [groupby(inv_col_jib)[gross_col].transform('sum')]. *)
Definition inv_total (df_month : list txn) (inv : string) : Q :=
  Qsum (map (fun r => amount (txn_gross_amt r))
            (filter (fun r => String.eqb (txn_invoice_no r) inv) df_month)).

Definition has_inv_total (cols : columns) : bool :=
  has_invoice cols && has_gross cols.

Definition over_threshold (t : Q) : bool :=
  Qle_bool 2000 t || Qle_bool t (-2000).

Definition aggregate_and_filter (cols : columns) (df_month : list txn)
  : list frame_row :=
  if has_inv_total cols
  then filter (fun r => over_threshold (Inv_Total r))
              (map (fun r => mk_frame_row r (inv_total df_month (txn_invoice_no r)))
                   df_month)
  else map (fun r => mk_frame_row r 0) df_month.

Definition gj_or_pe (inv : string) : bool :=
  Str.startswith "GJ" (Str.upper inv) || Str.startswith "PE" (Str.upper inv).

Definition drop_gj_pe (cols : columns) (df : list frame_row) : list frame_row :=
  if has_invoice cols
  then filter (fun r => negb (gj_or_pe (txn_invoice_no (tx r)))) df
  else df.

Definition is_excluded_vendor (vendor : string) : bool :=
  existsb (fun v => Str.isin v (Str.upper vendor)) excluded_vendors.

Definition mask_excl (r : frame_row) : bool :=
  Qlt_bool (Qabs (Inv_Total r)) 3500 && is_excluded_vendor (name_1 (tx r)).

Definition drop_low_value_vendors (cols : columns) (df : list frame_row)
  : list frame_row :=
  if has_vendor cols && has_inv_total cols
  then filter (fun r => negb (mask_excl r)) df
  else df.

Definition final_sort (cols : columns) : list (comparator frame_row) :=
  descending_number (fun r => Some (Inv_Total r)) ::
  map (fun c : comparator txn => fun a b => c (tx a) (tx b)) (sort_cols cols).

(** The filtering half of one month; [None] is the early [continue]
    (no report for the month). *)
Definition filter_month (cols : columns) (month year : Z) (df_jib : list txn)
  : option (list frame_row) :=
  let df_month := filter_by_date cols month year df_jib in
  match df_month with
  | [] => None
  | _ =>
      let df_month := sort_values (sort_cols cols) df_month in
      let df_filtered := aggregate_and_filter cols df_month in
      let df_filtered := drop_gj_pe cols df_filtered in
      let df_filtered := drop_low_value_vendors cols df_filtered in
      match df_filtered with
      | [] => None
      | _ =>
          Some (if has_inv_total cols
                then sort_values (final_sort cols) df_filtered
                else df_filtered)
      end
  end.

(** [~df.duplicated(subset=[inv_col_jib], keep='first')]: true on
    the first occurrence of each invoice number. *)
Fixpoint not_duplicated (seen : list string) (invs : list string) : list bool :=
  match invs with
  | [] => []
  | i :: rest => negb (existsb (String.eqb i) seen) :: not_duplicated (i :: seen) rest
  end.

(** [(inv != inv.shift()).cumsum()]: the first row compares against
    a missing value and counts as a change. *)
Definition changed (prev : option string) (inv : string) : bool :=
  match prev with
  | Some p => negb (String.eqb inv p)
  | None => true
  end.

Fixpoint cumsum_changes (prev : option string) (count : Z) (invs : list string)
  : list Z :=
  match invs with
  | [] => []
  | i :: rest =>
      let count' := if changed prev i then count + 1 else count in
      count' :: cumsum_changes (Some i) count' rest
  end.

(** Section 3: the reference file's invoice numbers are cleaned. *)
Definition preprocess_ir (ir : ir_table) : list ir_row :=
  if ir_has_invoice ir
  then map (fun r => mk_ir (clean_invoice_no (invoice_no r)) (related_file r))
           (ir_rows ir)
  else ir_rows ir.

(** [groupby(inv_col_ir)[img_cols].first()]: per invoice and image
    column, the first value that is not null. *)
Definition first_image (rows : list ir_row) (inv : string) (j : nat) : option string :=
  match filter notna
               (map (fun r => nth j (related_file r) None)
                    (filter (fun r => String.eqb (invoice_no r) inv) rows)) with
  | v :: _ => v
  | [] => None
  end.

Definition merge_happens (cols : columns) (ir : ir_table) : bool :=
  ir_has_invoice ir && negb (Nat.eqb (List.length (ir_rows ir)) 0) && has_invoice cols.

(** The image columns of a merged row, at most the first 4 being
    used ([existing_img_cols[:4]]). *)
Definition merged_images (cols : columns) (ir : ir_table) (r : frame_row)
  : list (option string) :=
  if merge_happens cols ir
  then map (first_image (preprocess_ir ir) (txn_invoice_no (tx r)))
           (seq 0 (Nat.min 4 (img_cols ir)))
  else [].

Definition current_q (month : Z) : Z := q_map_get month.
Definition next_q (month : Z) : Z := (current_q month mod 4) + 1.
Definition next_q_year (month year : Z) : Z :=
  if current_q month <? 4 then year else year + 1.

Definition base_dropbox : string := "C:\Users\brend\Dropbox\Images MP-BC-AP R4Q2".
Definition base_f_drive : string := "F:\Images MP-BC-AP R4Q2".

Definition invoices_dir (base : string) (y q : Z) : string :=
  base ++ backslash ++ Str.decimal y ++ " Q" ++ Str.decimal q ++ " Invoices" ++ backslash.

(** The [paths] dictionary: label prefix, quarter of the label, base
    path; in insertion order. *)
Definition paths (month year : Z) : list (string * Z * string) :=
  [ ("Dropbox Link Image ", current_q month,
     invoices_dir base_dropbox year (current_q month));
    ("Dropbox Link Image ", next_q month,
     invoices_dir base_dropbox (next_q_year month year) (next_q month));
    ("F Drive Link Image ", current_q month,
     invoices_dir base_f_drive year (current_q month));
    ("F Drive Link Image ", next_q month,
     invoices_dir base_f_drive (next_q_year month year) (next_q month)) ].

Definition label (tmpl : string) (idx : nat) (q : Z) : string :=
  tmpl ++ Str.decimal (Z.of_nat idx) ++ " Q" ++ Str.decimal q.

Definition hyperlink_formula (base_path img : string) : string :=
  "=HYPERLINK(" ++ String dquote (base_path ++ img) ++ String dquote ", "
    ++ String dquote img ++ String dquote ")".

Definition make_hyperlink (first : bool) (img_val : option string) (base_path : string)
  : value :=
  if negb first then VInt 0
  else match img_val with
       | None => VInt 0
       | Some v =>
           if String.eqb (Str.strip v) EmptyString then VInt 0
           else VStr (hyperlink_formula base_path (Str.strip v))
       end.

(** The link columns of one row: for each image column, the four
    paths. *)
Fixpoint link_columns (month year : Z) (first : bool) (idx : nat)
         (imgs : list (option string)) : list (string * value) :=
  match imgs with
  | [] => []
  | img :: imgs' =>
      map (fun p : string * Z * string =>
             let '(tmpl, q, base_path) := p in
             (label tmpl idx q, make_hyperlink first img base_path))
          (paths month year)
      ++ link_columns month year first (S idx) imgs'
  end.

Definition seq_no_pad (x : Z) : string := Str.zfill 3 x.

Definition tax_comm_filename (month year : Z) (seq_pad : string) : string :=
  "S" ++ Str.decimal year ++ Str.zfill 2 month ++ "-" ++ seq_pad ++ ".pdf".

Definition build_tax_comm_filename (month year : Z) (first : bool) (seq_pad : string)
  : value :=
  if negb first then VInt 0 else VStr (tax_comm_filename month year seq_pad).

(** A row of the month's report, before the columns are projected
    and renamed. *)
Record report_row : Type := mk_report_row {
  For_Seq_No : Z;
  Seq_No_Pad : string;
  source : frame_row;
  is_first_row : bool;
  images : list (option string);
  links : list (string * value);
  Tax_Comm_Image : value
}.

Definition invoice_of (r : report_row) : string := txn_invoice_no (tx (source r)).

Definition build_row (cols : columns) (ir : ir_table) (month year : Z)
           (x : frame_row * (bool * Z)) : report_row :=
  let '(r, (first, seq_no)) := x in
  let imgs := merged_images cols ir r in
  mk_report_row seq_no (seq_no_pad seq_no) r first imgs
                (link_columns month year first 1 imgs)
                (build_tax_comm_filename month year first (seq_no_pad seq_no)).

(** The enriching half of one month, sections 5 and 6. *)
Definition enrich (cols : columns) (ir : ir_table) (month year : Z)
           (df_filtered : list frame_row) : list report_row :=
  let invs := map (fun r => txn_invoice_no (tx r)) df_filtered in
  let first :=
    if has_invoice cols then not_duplicated [] invs
    else map (fun _ => true) df_filtered in
  let seq_nos :=
    if has_invoice cols then cumsum_changes None 0 invs
    else range 1 (Z.of_nat (List.length df_filtered) + 1) in
  map (build_row cols ir month year) (combine df_filtered (combine first seq_nos)).

(** One iteration of the month loop; [None] when the month is
    skipped and no file is written. *)
Definition process_month (cols : columns) (ir : ir_table) (month year : Z)
           (df_jib : list txn) : option (list report_row) :=
  option_map (enrich cols ir month year) (filter_month cols month year df_jib).

(** The reports written by [process_sales_tax], month by month. *)
Definition process_sales_tax (cols : columns) (ir : ir_table) (months : list Z)
           (year : Z) (jib : list raw_row) : list (Z * list report_row) :=
  let df_jib := preprocess cols jib in
  flat_map (fun month =>
              match process_month cols ir month year df_jib with
              | Some report => [(month, report)]
              | None => []
              end) months.

(** [clean_path]: whitespace is taken off both ends, then double
    quotes, then single quotes. *)
Definition clean_path (path : string) : string :=
  match path with
  | EmptyString => EmptyString
  | _ => Str.strip_of "'" (Str.strip_of (String dquote EmptyString) (Str.strip path))
  end.

Definition stop : list string := ["the"; "for"; "by"].

(** The casing of the word at position [i] of a header: the first
    word and every word outside [stop] is capitalised, the others are
    put in lower case. *)
Definition header_word (iw : nat * string) : string :=
  let '(i, w) := iw in
  if Nat.eqb i 0 || negb (existsb (String.eqb (Str.lower w)) stop)
  then Str.capitalize w
  else Str.lower w.

(** [fmt_header]: underscores become blanks, the words are recased
    and joined by single blanks. *)
Definition fmt_header (col : string) : string :=
  let words := Str.split_whitespace (Str.replace "_" " " col) in
  Str.join " " (map header_word (combine (seq 0 (List.length words)) words)).

(** The columns added empty for the tax amounts. *)
Definition empty_tax_cols : list string :=
  [ "UT + SJ Combined Sales Tax"; "Utah State Sales Tax";
    "San Juan County Sales Tax"; "Other local Utah tax";
    "Other entity collecting tax"; "Sum of UT Tx Excl Chrgd by N.N.";
    "NNOGC Entity Tx Pd Amt"; "Poley Team Notes" ].

(** The new names of [rename_map] for the three added columns and
    for the invoice and gross columns. *)
Definition renamed_headers : list string :=
  [ "For Sequence #"; "Sequence #"; "Filename of Image for the UT Tax Comm.";
    "Txn Invoice No"; "Txn Gross Amt" ].

End Pandas.

(** ** The first pandas version *)

Module PandasV1.

(** Section 2 of the first version: the rows with a missing gross
    amount are dropped first, the currency text is cleaned after. *)
Definition preprocess (cols : columns) (df_jib : list raw_row) : list txn :=
  let df0 :=
    if has_gross cols
    then filter (fun r => match txn_gross_amt r with NaN => false | _ => true end) df_jib
    else df_jib in
  let df1 :=
    if has_gross cols
    then map (fun r => with_gross r (clean_currency (txn_gross_amt r))) df0
    else map (fun r => with_gross r (@None Q)) df0 in
  if has_invoice cols
  then map (fun r => with_invoice r (clean_invoice_no (txn_invoice_no r))) df1
  else df1.

(** Sections 4 to 6 are the same statements as in the final version. *)
Definition filter_month := Pandas.filter_month.

(** [clean_path]: whitespace is taken off both ends, then every
    double quote and every single quote is removed. *)
Definition clean_path (path : string) : string :=
  match path with
  | EmptyString => EmptyString
  | _ => Str.delete "'" (Str.delete dquote (Str.strip path))
  end.

Definition next_q (month : Z) : Z :=
  if Pandas.current_q month <? 4 then Pandas.current_q month + 1 else 1.

(** [create_hyperlink_formula]: the image value is tested stripped
    and written as it is. *)
Definition create_hyperlink_formula (first : bool) (img_val : option string)
           (path : string) : value :=
  if negb first then VInt 0
  else match img_val with
       | None => VInt 0
       | Some v =>
           if String.eqb (Str.strip v) EmptyString then VInt 0
           else VStr (Pandas.hyperlink_formula path v)
       end.

Definition stopwords : list string := ["the"; "for"; "by"].

(** The loop of [format_header] over [enumerate(words)]. *)
Fixpoint format_words (i : nat) (words : list string) (res_words : list string)
  : list string :=
  match words with
  | [] => res_words
  | w :: words' =>
      format_words (S i) words'
        (res_words ++
         [if Nat.eqb i 0 || negb (existsb (String.eqb (Str.lower w)) stopwords)
          then Str.capitalize w
          else Str.lower w])
  end.

Definition format_header (col_name : string) : string :=
  let s := Str.replace "_" " " col_name in
  let words := Str.split_whitespace s in
  Str.join " " (format_words 0 words []).

End PandasV1.

(** ** The SQLite version *)

Module Sqlite.

(** [CAST(NULLIF(REPLACE(REPLACE(REPLACE(x, '(', '-'), ')', ''), ',', ''), '')
    AS NUMERIC)]; [None] is NULL. *)
Definition clean_gross_of (x : cell) : option Q :=
  match x with
  | NaN => None
  | Num q => Some q
  | Text s =>
      let t := Str.delete "," (Str.delete ")" (Str.replace "(" "-" s)) in
      if String.eqb t EmptyString then None else Some (cast_numeric t)
  end.

Record stage1_row : Type := mk_stage1 { jib : raw_row; clean_gross : option Q }.

(** [WHERE CAST(strftime('%m', txn_inv_date) AS INT) = month]. *)
Definition month_is (month : Z) (r : raw_row) : bool :=
  match txn_inv_date r with
  | Some d => dt_month d =? month
  | None => false
  end.

(** [SELECT *, ... AS clean_gross]. *)
Definition with_clean_gross (rows : list raw_row) : list stage1_row :=
  map (fun r => mk_stage1 r (clean_gross_of (txn_gross_amt r))) rows.

Definition stage1 (month : Z) (jib_master : list raw_row) : list stage1_row :=
  with_clean_gross (filter (month_is month) jib_master).

(** Equality of two values of a partitioning column: NULLs fall in
    one partition. *)
Definition same_number (a b : option Q) : bool :=
  match a, b with
  | Some x, Some y => Qeq_bool x y
  | None, None => true
  | _, _ => false
  end.

(** [PARTITION BY txn_invoice_no, name_1, property, billing_cat, clean_gross]. *)
Definition same_partition (a b : stage1_row) : bool :=
  String.eqb (txn_invoice_no (jib a)) (txn_invoice_no (jib b)) &&
  String.eqb (name_1 (jib a)) (name_1 (jib b)) &&
  String.eqb (property (jib a)) (property (jib b)) &&
  String.eqb (billing_cat (jib a)) (billing_cat (jib b)) &&
  same_number (clean_gross a) (clean_gross b).

Record stage2_row : Type := mk_stage2 { s1 : stage1_row; row_id : Z }.

(** [ROW_NUMBER()] within the partition; rows of one partition are
    numbered in table order. *)
Fixpoint number_rows (earlier : list stage1_row) (rows : list stage1_row)
  : list stage2_row :=
  match rows with
  | [] => []
  | r :: rest =>
      mk_stage2 r (1 + Z.of_nat (List.length (filter (same_partition r) earlier)))
      :: number_rows (r :: earlier) rest
  end.

Definition stage2 (t : list stage1_row) : list stage2_row := number_rows [] t.

(** SQL [SUM]: NULLs are skipped, and the sum of nothing is NULL. *)
Fixpoint SUM (l : list (option Q)) : option Q :=
  match l with
  | [] => None
  | None :: l' => SUM l'
  | Some q :: l' => Some (q + amount (SUM l'))%Q
  end.

(** [CASE WHEN row_id = 1 THEN clean_gross ELSE 0 END]. *)
Definition first_of_partition (r : stage2_row) : option Q :=
  if row_id r =? 1 then clean_gross (s1 r) else Some 0%Q.

(** [SUM(...) OVER (PARTITION BY txn_invoice_no)]. *)
Definition inv_total_of (t : list stage2_row) (inv : string) : option Q :=
  SUM (map first_of_partition
           (filter (fun r => String.eqb (txn_invoice_no (jib (s1 r))) inv) t)).

Record stage3_row : Type := mk_stage3 { s2 : stage2_row; inv_total : option Q }.

Definition stage3 (t : list stage2_row) : list stage3_row :=
  map (fun r => mk_stage3 r (inv_total_of t (txn_invoice_no (jib (s1 r))))) t.

(** [WHERE inv_total >= 2000 OR inv_total <= -2000]; a NULL total
    fails both comparisons. *)
Definition over_threshold (t : option Q) : bool :=
  match t with
  | Some q => Qle_bool 2000 q || Qle_bool q (-2000)
  | None => false
  end.

Definition Filtered (t : list stage3_row) : list stage3_row :=
  filter (fun r => over_threshold (inv_total r)) t.

Definition ledger_of (r : stage3_row) : raw_row := jib (s1 (s2 r)).

(** The window order [ORDER BY name_1, txn_invoice_no]. *)
Definition window_order : list (comparator stage3_row) :=
  [ ascending_text (fun r => name_1 (ledger_of r));
    ascending_text (fun r => txn_invoice_no (ledger_of r)) ].

Definition same_peer (a b : stage3_row) : bool :=
  match lexicographic window_order a b with
  | Eq => true
  | _ => false
  end.

(** [DENSE_RANK() OVER (ORDER BY name_1, txn_invoice_no)]: the
    number of the row's peer group, the groups being counted from 1
    along the window order. *)
Fixpoint number_peer_groups (prev : option stage3_row) (count : Z)
         (ordered : list stage3_row) : list Z :=
  match ordered with
  | [] => []
  | r :: rest =>
      let count' :=
        match prev with
        | Some p => if same_peer p r then count else count + 1
        | None => count + 1
        end in
      count' :: number_peer_groups (Some r) count' rest
  end.

Record report_row : Type := mk_report_row {
  for_sequence_no : Z;
  ranked : stage3_row;
  sequence_change_flag : bool;
  filename : string
}.

(** [substr('000' || n, -3)]: the last three characters. *)
Definition last3 (s : string) : string :=
  String.substring (String.length s - 3) 3 s.

Definition raw_fn (month year seq_no : Z) : string :=
  "S" ++ Str.decimal year ++ Str.zfill 2 month ++ "-"
      ++ last3 ("000" ++ Str.decimal seq_no) ++ ".pdf".

(** [LAG(for_sequence_no) OVER (...) IS NOT for_sequence_no]. *)
Fixpoint flag_changes (prev : option Z) (ranks : list Z) : list bool :=
  match ranks with
  | [] => []
  | k :: rest =>
      match prev with
      | Some p => negb (p =? k)
      | None => true
      end :: flag_changes (Some k) rest
  end.

(** The rows of [final_report], listed in window order.  The joined
    image columns and the link columns are left out; the LEFT JOIN
    on the grouped reference table neither adds nor removes rows. *)
Definition final_report (month year : Z) (jib_master : list raw_row)
  : list report_row :=
  let filtered := Filtered (stage3 (stage2 (stage1 month jib_master))) in
  let ordered := sort_values window_order filtered in
  let ranks := number_peer_groups None 0 ordered in
  map (fun x : stage3_row * (Z * bool) =>
         let '(r, (k, change)) := x in
         mk_report_row k r change
                       (if change then raw_fn month year k else "0"))
      (combine ordered (combine ranks (flag_changes None ranks))).

(** [clean_path]: whitespace is taken off both ends, then every
    double quote and every single quote is removed. *)
Definition clean_path (path : string) : string :=
  match path with
  | EmptyString => EmptyString
  | _ => Str.delete "'" (Str.delete dquote (Str.strip path))
  end.

(** [while target_q > 4: target_q -= 4; target_year += 1], with a
    bound on the number of turns. *)
Fixpoint wrap_down (fuel : nat) (target_q target_year : Z) : Z * Z :=
  match fuel with
  | O => (target_q, target_year)
  | S fuel' =>
      if 4 <? target_q then wrap_down fuel' (target_q - 4) (target_year + 1)
      else (target_q, target_year)
  end.

(** [while target_q < 1: target_q += 4; target_year -= 1]. *)
Fixpoint wrap_up (fuel : nat) (target_q target_year : Z) : Z * Z :=
  match fuel with
  | O => (target_q, target_year)
  | S fuel' =>
      if target_q <? 1 then wrap_up fuel' (target_q + 4) (target_year - 1)
      else (target_q, target_year)
  end.

(** The quarter number and the year [get_quarter_info] arrives at;
    each loop is given as many turns as it can need. *)
Definition target_quarter (month year offset : Z) : Z * Z :=
  let current_q := (month - 1) / 3 + 1 in
  let target_q := current_q + offset in
  let '(q, y) := wrap_down (Z.to_nat target_q) target_q year in
  wrap_up (Z.to_nat (1 - q)) q y.

Definition get_quarter_info (month year offset : Z) : string * Z :=
  let '(q, y) := target_quarter month year offset in
  ("Q" ++ Str.decimal q, y).

End Sqlite.

(** ** Example ledgers *)

Definition no_images : ir_table := mk_ir_table true 0 [].

(** One vendor of the exclusion list with a small and a large invoice. *)
Definition maryboy_1200 : txn :=
  mk_row "MARYBOY" "INV1" (Some (mk_date 2024 2 10)) (Some 1200%Q) "P1" "B1".
Definition maryboy_4000 : txn :=
  mk_row "MARYBOY" "INV2" (Some (mk_date 2024 2 11)) (Some 4000%Q) "P1" "B1".
Definition maryboy_ledger : list txn := [maryboy_1200; maryboy_4000].


(** One invoice number used by two vendors, and an invoice of a third
    vendor with the same total between them. *)
Definition split_invoice_ledger : list txn :=
  [ mk_row "X" "A" (Some (mk_date 2024 2 1)) (Some 1000%Q) "P1" "B1";
    mk_row "Y" "B" (Some (mk_date 2024 2 2)) (Some 3000%Q) "P1" "B1";
    mk_row "Z" "A" (Some (mk_date 2024 2 3)) (Some 2000%Q) "P1" "B1" ].

(** One invoice number used by two vendors, as the SQLite version
    loads it. *)
Definition shared_invoice_ledger : list raw_row :=
  [ mk_row "X" "A" (Some (mk_date 2024 2 1)) (Num 3000) "P1" "B1";
    mk_row "Z" "A" (Some (mk_date 2024 2 3)) (Num 2500) "P1" "B1" ].

(** A row dated in the year before the requested one. *)
Definition last_year_row : raw_row :=
  mk_row "ACME" "INV100" (Some (mk_date 2023 2 15)) (Num 2500) "P1" "B1".

(** A journal entry. *)
Definition journal_row : raw_row :=
  mk_row "ACME" "GJ4491" (Some (mk_date 2024 2 15)) (Num 5000) "P1" "B1".

(** An invoice with a repeated line. *)
Definition repeated_credit_ledger : list raw_row :=
  [ mk_row "ACME" "INV7" (Some (mk_date 2024 2 15)) (Num 2500) "P1" "B1";
    mk_row "ACME" "INV7" (Some (mk_date 2024 2 16)) (Num (-300)) "P1" "B1";
    mk_row "ACME" "INV7" (Some (mk_date 2024 2 16)) (Num (-300)) "P1" "B1" ].


(** A gross amount that is text but no number. *)
Definition unparseable_ledger : list raw_row :=
  [ mk_row "ACME" "INV9" (Some (mk_date 2024 2 15)) (Text "2,500.00") "P1" "B1";
    mk_row "ACME" "INV9" (Some (mk_date 2024 2 16)) (Text "TBD") "P1" "B1" ].

(** ** Vocabulary of the stated properties *)

(** A comparator that orders: it is antisymmetric, transitive, and
    what it holds equal it compares alike with everything. *)
Record lawful {A : Type} (c : comparator A) : Prop := mk_lawful {
  law_antisym : forall a b, c a b = CompOpp (c b a);
  law_trans : forall a b x, c a b = Lt -> c b x = Lt -> c a x = Lt;
  law_eq : forall a b x, c a b = Eq -> c a x = c b x
}.

(** What currency cleaning does to one character: an opening
    parenthesis becomes a minus sign; a closing parenthesis, a comma and
    a dollar sign disappear. *)
Definition clean_char (c : ascii) : string :=
  if Ascii.eqb c "(" then "-"
  else if Ascii.eqb c ")" || Ascii.eqb c "," || Ascii.eqb c "$" then EmptyString
  else String c EmptyString.

Fixpoint currency_text (s : string) : string :=
  match s with
  | EmptyString => EmptyString
  | String c s' => clean_char c ++ currency_text s'
  end.

(** The rows of a table that open their duplicate group: no earlier
    row has the same invoice number, vendor, property, billing category
    and cleaned amount. *)
Fixpoint first_of_each_group (earlier rows : list Sqlite.stage1_row)
  : list Sqlite.stage1_row :=
  match rows with
  | [] => []
  | r :: rest =>
      (if existsb (Sqlite.same_partition r) earlier then [] else [r])
      ++ first_of_each_group (r :: earlier) rest
  end.

Definition of_invoice (inv : string) (r : Sqlite.stage1_row) : bool :=
  String.eqb (txn_invoice_no (Sqlite.jib r)) inv.

(** The total of an invoice with one row counted per duplicate group. *)
Definition deduplicated_total (t : list Sqlite.stage1_row) (inv : string) : Q :=
  Qsum (map (fun r => amount (Sqlite.clean_gross r))
            (filter (of_invoice inv) (first_of_each_group [] t))).

(** The ledger cell holding a number of the cleaned pandas frame. *)
Definition as_raw (r : txn) : raw_row :=
  with_gross r (match txn_gross_amt r with
                | Some q => Num q
                | None => NaN
                end).



(** The integer parsing of a month specification fails: a bound of
    the range, an item of the comma list or the single token is no
    integer, or (where the range is unpacked into two names) the range
    has more than two bounds. *)
Definition int_parsing_fails (v : version) (month_input : string) : Prop :=
  let t := match v with
           | SqliteVersion => month_input
           | _ => Str.strip month_input
           end in
  if Str.contains "-" t then
    match v with
    | PandasFinal =>
        exists p, In p (firstn 2 (Str.split "-" t)) /\ Str.int p = Raise ValueError
    | _ =>
        List.length (Str.split "-" t) <> 2%nat \/
        exists p, In p (Str.split "-" t) /\ Str.int p = Raise ValueError
    end
  else if Str.contains "," t then
    exists m, In m (Str.split "," t) /\ Str.int (Str.strip m) = Raise ValueError
  else
    match v with
    | SqliteVersion => Str.int (Str.strip t)
    | _ => Str.int t
    end = Raise ValueError.

(** The invoice number starts with GJ or PE, in any letter casing. *)
Definition starts_with_GJ_or_PE (inv : string) : Prop :=
  exists a b rest,
    inv = String a (String b rest) /\
    (((a = "G" \/ a = "g") /\ (b = "J" \/ b = "j")) \/
     ((a = "P" \/ a = "p") /\ (b = "E" \/ b = "e")))%char.


(** ** Column names *)

(** [str(c).strip().lower().replace(' ', '_').replace('#', 'no').replace('.', '_')],
    the normalisation every version applies to the headers it loads. *)
Definition normalise_column (c : string) : string :=
  Str.replace "." "_"
    (Str.replace_with "#" "no"
       (Str.replace " " "_" (Str.lower (Str.strip c)))).

(** The columns the scripts add to the frame of a month. *)
Definition helper_columns : list string :=
  ["Inv_Total"; "For_Seq_No"; "Seq_No_Pad"; "Tax_Comm_Image"].

(** ** A reference file *)

(** Two image columns; the first image of invoice A is written with
    blanks around it. *)
Definition two_images : ir_table :=
  mk_ir_table true 2
    [ mk_ir "B" [Some "b1.pdf"; None];
      mk_ir "A" [Some " a1.pdf "; Some "a2.pdf"] ].

(** ** Vocabulary of the further properties *)

(** Every character of the text passes the test. *)
Fixpoint every (p : ascii -> bool) (s : string) : bool :=
  match s with
  | EmptyString => true
  | String c s' => p c && every p s'
  end.

Definition is_digit (c : ascii) : bool :=
  match Str.digit c with
  | Some _ => true
  | None => false
  end.

(** The tests a row of the month passes to reach the report of the
    pandas versions, each made only when its columns exist: the
    threshold on the invoice total, the invoice-number prefix, and the
    low-value vendors. *)
Definition retained (cols : columns) (df_month : list txn) (r : txn) : bool :=
  let total := Pandas.inv_total df_month (txn_invoice_no r) in
  (negb (Pandas.has_inv_total cols) || Pandas.over_threshold total) &&
  (negb (has_invoice cols) || negb (Pandas.gj_or_pe (txn_invoice_no r))) &&
  (negb (has_vendor cols && Pandas.has_inv_total cols) ||
   negb (Qlt_bool (Qabs total) 3500 && Pandas.is_excluded_vendor (name_1 r))).

(** The labels of the four link columns of image [i]. *)
Definition link_labels (month : Z) (i : nat) : list string :=
  [ Pandas.label "Dropbox Link Image " i (Pandas.current_q month);
    Pandas.label "Dropbox Link Image " i (Pandas.next_q month);
    Pandas.label "F Drive Link Image " i (Pandas.current_q month);
    Pandas.label "F Drive Link Image " i (Pandas.next_q month) ].

(** The character is no upper-case letter. *)
Definition lowered (c : ascii) : bool := Ascii.eqb (Str.lower_char c) c.

(** ** The file of a month *)

(** The name of the month's workbook, the same f-string in every
    version: the year, the month on two digits, a fixed ending. *)
Definition out_filename (year month : Z) : string :=
  Str.decimal year ++ " " ++ Str.zfill 2 month ++ " Sales Tax - NNOGC PY d1-4.xlsx".

(** * Properties *)

(** ** Generic facts: results, sorting, sums *)

Lemma split_two (c : ascii) (s : string) :
  Str.contains c s = true ->
  exists p0 p1 rest, Str.split c s = p0 :: p1 :: rest.
Proof.
  induction s as [|d s IH]; simpl; [discriminate|].
  destruct (Ascii.eqb d c) eqn:E; simpl.
  - intros _. destruct s as [|e s]; simpl; [now eexists _, _, _|].
    destruct (Ascii.eqb e c); [now eexists _, _, _|].
    destruct (Str.split c s); now eexists _, _, _.
  - intros H. destruct (IH H) as (p0 & p1 & rest & ->). now eexists _, _, _.
Qed.

Lemma int_ok_or_ValueError (s : string) :
  (exists z, Str.int s = Ok z) \/ Str.int s = Raise ValueError.
Proof.
  unfold Str.int.
  destruct (match Str.strip s with
            | String "+" r => Str.digits 0 false r
            | String "-" r => option_map Z.opp (Str.digits 0 false r)
            | _ => Str.digits 0 false (Str.strip s)
            end); eauto.
Qed.


(** A token that is not an integer makes the comprehension raise. *)
Lemma map_res_bad_token {A : Type} (f : A -> res Z) (l : list A) (x : A) :
  (forall y, (exists z, f y = Ok z) \/ f y = Raise ValueError) ->
  In x l -> f x = Raise ValueError -> map_res f l = Raise ValueError.
Proof.
  intros Hf. induction l as [|y l IH]; simpl; [tauto|].
  intros [->|Hin] Hx.
  - now rewrite Hx.
  - destruct (Hf y) as [[z ->]| ->]; simpl; [|reflexivity].
    now rewrite (IH Hin Hx).
Qed.

Section SortFacts.
Context {A : Type} (leb : A -> A -> bool).

Lemma insert_sorted_perm (x : A) (l : list A) :
  Permutation (insert_sorted leb x l) (x :: l).
Proof.
  induction l as [|y l IH]; simpl; [reflexivity|].
  destruct (leb x y); [reflexivity|].
  rewrite IH. apply perm_swap.
Qed.

Lemma stable_sort_perm (l : list A) : Permutation (stable_sort leb l) l.
Proof.
  induction l as [|x l IH]; simpl; [reflexivity|].
  rewrite insert_sorted_perm. now constructor.
Qed.

Lemma stable_sort_In (l : list A) (x : A) : In x (stable_sort leb l) <-> In x l.
Proof.
  split; apply Permutation_in; [|symmetry]; apply stable_sort_perm.
Qed.

Lemma stable_sort_nil (l : list A) : stable_sort leb l = [] -> l = [].
Proof.
  intros H. apply Permutation_nil. rewrite <- H. apply stable_sort_perm.
Qed.

Hypothesis leb_total : forall a b, leb a b = true \/ leb b a = true.
Hypothesis leb_trans : forall a b c, leb a b = true -> leb b c = true -> leb a c = true.

Lemma insert_sorted_sorted (x : A) (l : list A) :
  StronglySorted (fun a b => leb a b = true) l ->
  StronglySorted (fun a b => leb a b = true) (insert_sorted leb x l).
Proof.
  induction 1 as [|y l Hs IH Hy]; simpl.
  - repeat constructor.
  - destruct (leb x y) eqn:E.
    + constructor; [now constructor|].
      constructor; [exact E|].
      eapply Forall_impl; [|exact Hy]. intros a Ha. now apply leb_trans with y.
    + constructor; [exact IH|].
      assert (Hyx : leb y x = true) by (destruct (leb_total x y); congruence).
      apply (Permutation_Forall (x := x :: l)).
      * symmetry. apply insert_sorted_perm.
      * now constructor.
Qed.

Lemma stable_sort_sorted (l : list A) :
  StronglySorted (fun a b => leb a b = true) (stable_sort leb l).
Proof.
  induction l as [|x l IH]; simpl; [constructor|].
  now apply insert_sorted_sorted.
Qed.
End SortFacts.




(** ** Month specifications *)





Lemma parse_months_unfold (v : version) (s : string) :
  parse_months v s =
  months <- except_ValueError (try_block v s) ;;
  Ok (match v with
      | SqliteVersion => filter in_calendar months
      | _ => sorted (filter in_calendar months)
      end).
Proof. destruct v; reflexivity. Qed.

Lemma map_res_raises {A : Type} (f : A -> res Z) (l : list A) :
  (forall y, (exists z, f y = Ok z) \/ f y = Raise ValueError) ->
  map_res f l = Raise ValueError <-> exists x, In x l /\ f x = Raise ValueError.
Proof.
  intros Hf. split.
  - induction l as [|y l IH]; simpl; [discriminate|].
    destruct (Hf y) as [[z Hy]|Hy]; rewrite Hy; simpl.
    + destruct (map_res f l); simpl; [discriminate|].
      intros [= ->]. destruct IH as (x & Hx & Hfx); [reflexivity|]. eauto.
    + intros _. eauto.
  - intros (x & Hx & Hfx). now apply (map_res_bad_token f l x).
Qed.

(** The parsing fails exactly when the [try] block raises ValueError. *)
Lemma int_parsing_fails_iff (v : version) (s : string) :
  int_parsing_fails v s <-> try_block v s = Raise ValueError.
Proof.
  pose proof int_ok_or_ValueError as Hint.
  assert (Hcomma : forall t,
             (exists m, In m (Str.split "," t) /\ Str.int (Str.strip m) = Raise ValueError)
             <-> map_res (fun m => Str.int (Str.strip m)) (Str.split "," t)
                 = Raise ValueError).
  { intros t. symmetry. apply map_res_raises. intros y. apply Hint. }
  assert (Hunpack : forall parts,
             (List.length parts <> 2%nat \/
              exists p, In p parts /\ Str.int p = Raise ValueError)
             <-> (se <- Sqlite_months.unpack_two parts ;;
                  Ok (range (fst se) (snd se + 1))) = Raise ValueError).
  { intros [|p0 [|p1 [|p2 rest]]]; simpl.
    - split; [reflexivity|intros _; left; discriminate].
    - split; [reflexivity|intros _; left; discriminate].
    - destruct (Hint p0) as [[a Ha]|Ha], (Hint p1) as [[b Hb]|Hb];
        rewrite Ha, Hb; simpl; split; try reflexivity; try discriminate.
      + intros [H|(p & [<-|[<-|[]]] & Hp)]; congruence.
      + intros _. right. exists p1. auto.
      + intros _. right. exists p0. auto.
      + intros _. right. exists p0. auto.
    - split; [reflexivity|intros _; left; discriminate]. }
  unfold int_parsing_fails.
  destruct v; simpl;
    unfold Sqlite_months.try_block, PandasV1_months.try_block, Pandas_months.try_block.
  - destruct (Str.contains "-" s); [apply Hunpack|].
    destruct (Str.contains "," s); [apply Hcomma|].
    destruct (Hint (Str.strip s)) as [[a Ha]|Ha]; rewrite Ha; simpl;
      split; congruence.
  - destruct (Str.contains "-" (Str.strip s)); [apply Hunpack|].
    destruct (Str.contains "," (Str.strip s)); [apply Hcomma|].
    destruct (Hint (Str.strip s)) as [[a Ha]|Ha]; rewrite Ha; simpl;
      split; congruence.
  - destruct (Str.contains "-" (Str.strip s)) eqn:Hd.
    + destruct (split_two _ _ Hd) as (p0 & p1 & rest & ->). simpl.
      destruct (Hint p0) as [[a Ha]|Ha], (Hint p1) as [[b Hb]|Hb];
        rewrite Ha, Hb; simpl; split; try reflexivity; try discriminate.
      * intros (p & [<-|[<-|[]]] & Hp); congruence.
      * intros _. exists p1. auto.
      * intros _. exists p0. auto.
      * intros _. exists p0. auto.
    + destruct (Str.contains "," (Str.strip s)); [apply Hcomma|].
      destruct (Hint (Str.strip s)) as [[a Ha]|Ha]; rewrite Ha; simpl;
        split; congruence.
Qed.

(** C8.  Whenever the integer parsing of the month specification
    fails (a token that is no integer, or a malformed range), so that
    the [try] block raises ValueError, [parse_months] returns exactly
    the list [1], in each of the three versions. *)
Theorem parse_months_defaults_to_month_1 (v : version) (s : string) :
  int_parsing_fails v s -> parse_months v s = Ok [1].
Proof.
  intros H. apply int_parsing_fails_iff in H.
  rewrite parse_months_unfold, H. destruct v; reflexivity.
Qed.

Lemma parse_months_defaults_to_month_1_witness :
  int_parsing_fails PandasFinal "1-x" /\
  parse_months PandasFinal "1-x" = Ok [1].
Proof.
  assert (H : int_parsing_fails PandasFinal "1-x").
  { exists "x". split; [right; left; reflexivity|reflexivity]. }
  split; [exact H|].
  apply (parse_months_defaults_to_month_1 PandasFinal "1-x"). exact H.
Defined.



(** ** Rational sums and thresholds *)

Lemma Qsum_perm (l l' : list Q) : Permutation l l' -> (Qsum l == Qsum l')%Q.
Proof.
  induction 1 as [|x l l' _ IH|x y l|l l' l'' _ IH1 _ IH2]; simpl.
  - reflexivity.
  - now rewrite IH.
  - ring.
  - now rewrite IH1.
Qed.

Lemma filter_perm {A : Type} (f : A -> bool) (l l' : list A) :
  Permutation l l' -> Permutation (filter f l) (filter f l').
Proof.
  induction 1 as [|x l l' _ IH|x y l|l l' l'' _ IH1 _ IH2]; simpl.
  - constructor.
  - destruct (f x); [now constructor|exact IH].
  - destruct (f x), (f y); try reflexivity. apply perm_swap.
  - now rewrite IH1.
Qed.



Lemma inv_total_perm (df df' : list txn) (inv : string) :
  Permutation df df' -> (Pandas.inv_total df inv == Pandas.inv_total df' inv)%Q.
Proof.
  intros H. unfold Pandas.inv_total.
  apply Qsum_perm, Permutation_map, filter_perm, H.
Qed.

(** ** The monthly filter of the pandas versions *)

Section MonthlyFilter.
Variables (cols : columns) (month year : Z) (df_jib : list txn).

(** The rows of the month, before any sorting. *)
Let df_month : list txn := Pandas.filter_by_date cols month year df_jib.

Let survivors : list Pandas.frame_row :=
  Pandas.drop_low_value_vendors cols
    (Pandas.drop_gj_pe cols
       (Pandas.aggregate_and_filter cols
          (sort_values (Pandas.sort_cols cols) df_month))).

Lemma filter_month_In (out : list Pandas.frame_row) :
  Pandas.filter_month cols month year df_jib = Some out ->
  forall r, In r out <-> In r survivors.
Proof.
  unfold Pandas.filter_month. fold df_month. cbv zeta. fold survivors.
  destruct df_month as [|a l]; [discriminate|].
  destruct survivors as [|b k]; [discriminate|].
  intros [= <-] r. destruct (Pandas.has_inv_total cols); [|reflexivity].
  exact (stable_sort_In (not_after (Pandas.final_sort cols)) (b :: k) r).
Qed.


Lemma survivors_In (r : Pandas.frame_row) :
  In r survivors <->
  In r (Pandas.aggregate_and_filter cols
          (sort_values (Pandas.sort_cols cols) df_month)) /\
  (has_invoice cols = true -> Pandas.gj_or_pe (txn_invoice_no (Pandas.tx r)) = false) /\
  (has_vendor cols && Pandas.has_inv_total cols = true -> Pandas.mask_excl r = false).
Proof.
  unfold survivors, Pandas.drop_low_value_vendors, Pandas.drop_gj_pe.
  destruct (has_vendor cols && Pandas.has_inv_total cols), (has_invoice cols);
    rewrite ?filter_In, ?negb_true_iff; intuition congruence.
Qed.

Lemma aggregate_In (r : Pandas.frame_row) :
  In r (Pandas.aggregate_and_filter cols
          (sort_values (Pandas.sort_cols cols) df_month)) ->
  In (Pandas.tx r) df_month /\
  (Pandas.has_inv_total cols = true ->
   Pandas.over_threshold (Pandas.Inv_Total r) = true /\
   (Pandas.Inv_Total r ==
    Pandas.inv_total df_month (txn_invoice_no (Pandas.tx r)))%Q).
Proof.
  unfold Pandas.aggregate_and_filter.
  destruct (Pandas.has_inv_total cols).
  - rewrite filter_In, in_map_iff. intros [(t & <- & Ht) Hover]. simpl in *.
    split; [now apply stable_sort_In in Ht|].
    intros _. split; [exact Hover|].
    apply inv_total_perm, stable_sort_perm.
  - rewrite in_map_iff. intros (t & <- & Ht). simpl.
    split; [now apply stable_sort_In in Ht|discriminate].
Qed.


End MonthlyFilter.

(** ** The enriching half *)

Lemma length_not_duplicated (seen invs : list string) :
  List.length (Pandas.not_duplicated seen invs) = List.length invs.
Proof.
  revert seen. induction invs as [|i invs IH]; intros seen; simpl; [|rewrite IH];
    reflexivity.
Qed.

Lemma length_cumsum_changes (prev : option string) (count : Z) (invs : list string) :
  List.length (Pandas.cumsum_changes prev count invs) = List.length invs.
Proof.
  revert prev count. induction invs as [|i invs IH]; intros prev count; simpl;
    [|rewrite IH]; reflexivity.
Qed.

Lemma length_range_from_1 (n : nat) : List.length (range 1 (Z.of_nat n + 1)) = n.
Proof.
  unfold range. rewrite length_map, length_seq. lia.
Qed.

Lemma map_fst_combine {A B : Type} (l : list A) (l' : list B) :
  List.length l = List.length l' -> map fst (combine l l') = l.
Proof.
  revert l'. induction l as [|x l IH]; intros [|y l']; simpl; try discriminate;
    [reflexivity|].
  intros [= H]. now rewrite IH.
Qed.

Lemma map_snd_combine {A B : Type} (l : list A) (l' : list B) :
  List.length l = List.length l' -> map snd (combine l l') = l'.
Proof.
  revert l'. induction l as [|x l IH]; intros [|y l']; simpl; try discriminate;
    [reflexivity|].
  intros [= H]. now rewrite IH.
Qed.

Section Enrich.
Variables (cols : columns) (ir : ir_table) (month year : Z).
Variable df_filtered : list Pandas.frame_row.

Let out : list Pandas.report_row := Pandas.enrich cols ir month year df_filtered.
Let invs : list string := map (fun r => txn_invoice_no (Pandas.tx r)) df_filtered.

Lemma enrich_source : map Pandas.source out = df_filtered.
Proof.
  unfold out, Pandas.enrich. rewrite map_map.
  rewrite (map_ext _ fst) by (intros [r [first k]]; reflexivity).
  apply map_fst_combine. rewrite length_combine.
  destruct (has_invoice cols);
    rewrite ?length_not_duplicated, ?length_cumsum_changes, ?length_map,
      ?length_range_from_1; lia.
Qed.

Lemma enrich_invoices : map Pandas.invoice_of out = invs.
Proof.
  unfold invs. rewrite <- enrich_source, map_map. reflexivity.
Qed.

Hypothesis Hinv : has_invoice cols = true.

Lemma enrich_first_rows :
  map Pandas.is_first_row out = Pandas.not_duplicated [] invs.
Proof.
  unfold out, Pandas.enrich. rewrite Hinv, map_map. fold invs.
  rewrite (map_ext _ (fun x => fst (snd x))) by (intros [r [first k]]; reflexivity).
  rewrite <- (map_map snd fst), map_snd_combine, map_fst_combine; auto.
  - unfold invs.
    now rewrite length_not_duplicated, length_cumsum_changes.
  - unfold invs.
    now rewrite length_combine, length_not_duplicated, length_cumsum_changes,
      length_map, Nat.min_id.
Qed.

Lemma enrich_seq_nos :
  map Pandas.For_Seq_No out = Pandas.cumsum_changes None 0 invs.
Proof.
  unfold out, Pandas.enrich. rewrite Hinv, map_map. fold invs.
  rewrite (map_ext _ (fun x => snd (snd x))) by (intros [r [first k]]; reflexivity).
  rewrite <- (map_map snd snd), !map_snd_combine; auto.
  - unfold invs.
    now rewrite length_not_duplicated, length_cumsum_changes.
  - unfold invs.
    now rewrite length_combine, length_not_duplicated, length_cumsum_changes,
      length_map, Nat.min_id.
Qed.

Lemma enrich_row (o : Pandas.report_row) :
  In o out ->
  Pandas.Seq_No_Pad o = Pandas.seq_no_pad (Pandas.For_Seq_No o) /\
  Pandas.images o = Pandas.merged_images cols ir (Pandas.source o) /\
  Pandas.links o =
    Pandas.link_columns month year (Pandas.is_first_row o) 1 (Pandas.images o) /\
  Pandas.Tax_Comm_Image o =
    Pandas.build_tax_comm_filename month year (Pandas.is_first_row o)
                                   (Pandas.Seq_No_Pad o).
Proof.
  unfold out, Pandas.enrich. rewrite in_map_iff.
  intros ([r [first k]] & <- & _). simpl. auto.
Qed.

End Enrich.

(** ** Prefixes and substrings *)

Lemma startswith_spec (p s : string) :
  Str.startswith p s = true <-> exists rest, s = p ++ rest.
Proof.
  revert s. induction p as [|a p IH]; intros s; simpl.
  - split; [intros _; now exists s|reflexivity].
  - destruct s as [|b s].
    + split; [discriminate|intros (rest & H); discriminate].
    + rewrite andb_true_iff, Ascii.eqb_eq, IH. split.
      * intros (-> & rest & ->). now exists rest.
      * intros (rest & [= -> ->]). split; [reflexivity|now exists rest].
Qed.

Lemma isin_spec (v x : string) :
  Str.isin v x = true <-> exists before after, x = before ++ v ++ after.
Proof.
  induction x as [|c x IH]; simpl; rewrite orb_true_iff, startswith_spec.
  - split.
    + intros [(rest & H)|H]; [|discriminate]. now exists EmptyString, rest.
    + intros ([|b before] & after & H); [|discriminate]. left. now exists after.
  - rewrite IH. split.
    + intros [(rest & H)|(before & after & ->)].
      * now exists EmptyString, rest.
      * now exists (String c before), after.
    + intros ([|b before] & after & H).
      * left. now exists after.
      * right. injection H as -> ->. now exists before, after.
Qed.

Lemma upper_char_cases (c d : ascii) :
  Str.upper_char c = d ->
  (65 <=? nat_of_ascii d)%nat && (nat_of_ascii d <=? 90)%nat = true ->
  c = d \/ c = ascii_of_nat (nat_of_ascii d + 32).
Proof.
  intros <-.
  destruct c as [[] [] [] [] [] [] [] []]; vm_compute; intros H;
    first [discriminate H | now left | now right].
Qed.

Lemma upper_two_letters (c d : ascii) (inv : string) :
  (65 <=? nat_of_ascii c)%nat && (nat_of_ascii c <=? 90)%nat = true ->
  (65 <=? nat_of_ascii d)%nat && (nat_of_ascii d <=? 90)%nat = true ->
  Str.startswith (String c (String d EmptyString)) (Str.upper inv) = true <->
  exists a b rest,
    inv = String a (String b rest) /\
    (a = c \/ a = ascii_of_nat (nat_of_ascii c + 32)) /\
    (b = d \/ b = ascii_of_nat (nat_of_ascii d + 32)).
Proof.
  intros Hc Hd. rewrite startswith_spec. split.
  - intros (rest & H). destruct inv as [|a [|b tl]]; try discriminate H.
    cbn [Str.upper append] in H. injection H as Ha Hb _.
    exists a, b, tl. split; [reflexivity|].
    split; apply upper_char_cases; assumption.
  - intros (a & b & rest & -> & Ha & Hb). exists (Str.upper rest).
    cbn [Str.upper append]. f_equal; [|f_equal].
    + destruct Ha as [-> | ->]; [|clear Hd];
        destruct c as [[] [] [] [] [] [] [] []]; try discriminate Hc; reflexivity.
    + destruct Hb as [-> | ->]; [|clear Hc];
        destruct d as [[] [] [] [] [] [] [] []]; try discriminate Hd; reflexivity.
Qed.

Lemma gj_or_pe_spec (inv : string) :
  Pandas.gj_or_pe inv = true <-> starts_with_GJ_or_PE inv.
Proof.
  unfold Pandas.gj_or_pe, starts_with_GJ_or_PE.
  rewrite orb_true_iff.
  rewrite (upper_two_letters "G" "J") by reflexivity.
  rewrite (upper_two_letters "P" "E") by reflexivity.
  change (ascii_of_nat (nat_of_ascii "G" + 32)) with "g"%char.
  change (ascii_of_nat (nat_of_ascii "J" + 32)) with "j"%char.
  change (ascii_of_nat (nat_of_ascii "P" + 32)) with "p"%char.
  change (ascii_of_nat (nat_of_ascii "E" + 32)) with "e"%char.
  split.
  - intros [(a & b & rest & H & Ha & Hb)|(a & b & rest & H & Ha & Hb)];
      exists a, b, rest; tauto.
  - intros (a & b & rest & H & [[Ha Hb]|[Ha Hb]]);
      [left|right]; exists a, b, rest; tauto.
Qed.


(** ** The report of one month, pandas versions *)

Lemma process_month_source (cols : columns) (ir : ir_table) (month year : Z)
      (df_jib : list txn) (report : list Pandas.report_row) :
  Pandas.process_month cols ir month year df_jib = Some report ->
  exists out,
    Pandas.filter_month cols month year df_jib = Some out /\
    report = Pandas.enrich cols ir month year out /\
    map Pandas.source report = out.
Proof.
  unfold Pandas.process_month.
  destruct (Pandas.filter_month cols month year df_jib) as [out|]; [|discriminate].
  intros [= <-]. exists out. split; [reflexivity|]. split; [reflexivity|].
  apply enrich_source.
Qed.

Lemma report_row_survivor (cols : columns) (ir : ir_table) (month year : Z)
      (df_jib : list txn) (report : list Pandas.report_row) (o : Pandas.report_row) :
  Pandas.process_month cols ir month year df_jib = Some report ->
  In o report ->
  let df_month := Pandas.filter_by_date cols month year df_jib in
  In (Pandas.tx (Pandas.source o)) df_month /\
  (has_invoice cols = true -> Pandas.gj_or_pe (Pandas.invoice_of o) = false) /\
  (Pandas.has_inv_total cols = true ->
   Pandas.over_threshold (Pandas.Inv_Total (Pandas.source o)) = true /\
   (Pandas.Inv_Total (Pandas.source o) ==
    Pandas.inv_total df_month (Pandas.invoice_of o))%Q) /\
  (has_vendor cols && Pandas.has_inv_total cols = true ->
   Pandas.mask_excl (Pandas.source o) = false).
Proof.
  intros H Ho. destruct (process_month_source _ _ _ _ _ _ H) as (out & Hf & _ & Hs).
  assert (Hin : In (Pandas.source o) out) by (rewrite <- Hs; now apply in_map).
  apply (filter_month_In _ _ _ _ _ Hf), survivors_In in Hin as (Hagg & Hgj & Hmask).
  apply aggregate_In in Hagg as (Hm & Htot). cbv zeta. auto.
Qed.

(** The date filter of the pandas versions: with a date column, every
    row of the month's report has a parsed invoice date of exactly the
    requested month and year. *)
Lemma pandas_report_dates (cols : columns) (ir : ir_table) (month year : Z)
        (df_jib : list txn) (report : list Pandas.report_row) (o : Pandas.report_row) :
  has_date cols = true ->
  Pandas.process_month cols ir month year df_jib = Some report ->
  In o report ->
  exists d,
    txn_inv_date (Pandas.tx (Pandas.source o)) = Some d /\
    dt_month d = month /\ dt_year d = year.
Proof.
  intros Hd H Ho.
  destruct (report_row_survivor _ _ _ _ _ _ _ H Ho) as (Hin & _).
  unfold Pandas.filter_by_date in Hin. rewrite Hd in Hin.
  apply filter_In in Hin as [_ Hmask]. unfold Pandas.date_mask in Hmask.
  destruct (txn_inv_date (Pandas.tx (Pandas.source o))) as [d|]; [|discriminate].
  exists d. split; [reflexivity|]. lia.
Qed.

(** The prefix rule of the pandas versions: with an invoice column, no
    row of the month's report has an invoice number starting with GJ or
    PE, whatever the letter casing. *)
Lemma pandas_report_no_GJ_PE (cols : columns) (ir : ir_table) (month year : Z)
        (df_jib : list txn) (report : list Pandas.report_row) (o : Pandas.report_row) :
  has_invoice cols = true ->
  Pandas.process_month cols ir month year df_jib = Some report ->
  In o report ->
  ~ starts_with_GJ_or_PE (Pandas.invoice_of o).
Proof.
  intros Hi H Ho.
  destruct (report_row_survivor _ _ _ _ _ _ _ H Ho) as (_ & Hgj & _).
  rewrite <- gj_or_pe_spec, (Hgj Hi). discriminate.
Qed.


Lemma pandas_report_filters_witness :
  exists report o d,
    Pandas.process_month all_columns no_images 2 2024 maryboy_ledger = Some report /\
    In o report /\
    txn_inv_date (Pandas.tx (Pandas.source o)) = Some d /\
    dt_month d = 2 /\ dt_year d = 2024 /\
    ~ starts_with_GJ_or_PE (Pandas.invoice_of o).
Proof.
  destruct (Pandas.process_month all_columns no_images 2 2024 maryboy_ledger)
    as [report|] eqn:E; [|discriminate E].
  destruct report as [|o report]; [discriminate E|].
  destruct (pandas_report_dates all_columns no_images 2 2024 maryboy_ledger
                                (o :: report) o eq_refl E (or_introl eq_refl))
    as (d & Hd & Hm & Hy).
  exists (o :: report), o, d. split; [reflexivity|]. split; [now left|].
  repeat (split; [assumption|]).
  apply (pandas_report_no_GJ_PE all_columns no_images 2 2024 maryboy_ledger
                                (o :: report) o eq_refl E (or_introl eq_refl)).
Defined.




(** ** Sequence numbers and first rows *)

Lemma cumsum_changes_step (invs : list string) :
  forall (prev : option string) (count : Z) (i : nat) (a b : string) (sa sb : Z),
    nth_error invs i = Some a ->
    nth_error invs (S i) = Some b ->
    nth_error (Pandas.cumsum_changes prev count invs) i = Some sa ->
    nth_error (Pandas.cumsum_changes prev count invs) (S i) = Some sb ->
    sb = sa + (if String.eqb b a then 0 else 1).
Proof.
  induction invs as [|x invs IH]; intros prev count i a b sa sb Ha Hb Hsa Hsb.
  - destruct i; discriminate.
  - destruct i as [|i].
    + destruct invs as [|y invs]; [discriminate|].
      simpl in *. injection Ha as <-. injection Hb as <-.
      injection Hsa as <-. injection Hsb as <-.
      destruct (String.eqb y x); simpl; lia.
    + simpl in Ha, Hb, Hsa, Hsb. eapply IH; eassumption.
Qed.

Lemma not_duplicated_nth (invs : list string) :
  forall (seen : list string) (i : nat) (a : string) (b : bool),
    nth_error invs i = Some a ->
    nth_error (Pandas.not_duplicated seen invs) i = Some b ->
    (b = true <-> ~ In a seen /\ ~ In a (firstn i invs)).
Proof.
  induction invs as [|x invs IH]; intros seen i a b Ha Hb.
  - destruct i; discriminate.
  - destruct i as [|i]; simpl in *.
    + injection Ha as <-. injection Hb as <-.
      rewrite negb_true_iff, <- not_true_iff_false, existsb_exists. split.
      * intros H. split; [|tauto]. intros Hin. apply H. exists x.
        split; [exact Hin|apply String.eqb_refl].
      * intros [H _] (y & Hy & E). apply String.eqb_eq in E. now subst.
    + rewrite (IH _ _ _ _ Ha Hb). simpl. intuition.
Qed.

Lemma link_columns_not_first (month year : Z) (imgs : list (option string)) :
  forall idx lv,
    In lv (Pandas.link_columns month year false idx imgs) -> snd lv = VInt 0.
Proof.
  induction imgs as [|img imgs IH]; intros idx lv; simpl; [tauto|].
  intros [<-|[<-|[<-|[<-|H]]]]; try reflexivity. now apply (IH (S idx)).
Qed.

Lemma link_columns_nth (month year : Z) (first : bool) (imgs : list (option string)) :
  forall idx j img p,
    nth_error imgs j = Some img ->
    In p (Pandas.paths month year) ->
    In (Pandas.label (fst (fst p)) (idx + j) (snd (fst p)),
        Pandas.make_hyperlink first img (snd p))
       (Pandas.link_columns month year first idx imgs).
Proof.
  induction imgs as [|x imgs IH]; intros idx j img p Hj Hp.
  - destruct j; discriminate.
  - cbn [Pandas.link_columns]. apply in_or_app. destruct j as [|j].
    + injection Hj as <-. left. rewrite Nat.add_0_r.
      apply in_map_iff. exists p. split; [|exact Hp].
      now destruct p as [[tmpl q] base].
    + right. replace (idx + S j)%nat with (S idx + j)%nat by lia.
      now apply IH.
Qed.

Lemma nth_error_map_Some {A B : Type} (f : A -> B) (l : list A) (i : nat) (x : A) :
  nth_error l i = Some x -> nth_error (map f l) i = Some (f x).
Proof.
  intros H. rewrite nth_error_map, H. reflexivity.
Qed.

Section ReportOrder.
Variables (cols : columns) (ir : ir_table) (month year : Z) (df_jib : list txn).
Variable report : list Pandas.report_row.
Hypothesis Hinv : has_invoice cols = true.
Hypothesis Hreport : Pandas.process_month cols ir month year df_jib = Some report.

Lemma report_seq_nos :
  map Pandas.For_Seq_No report =
  Pandas.cumsum_changes None 0 (map Pandas.invoice_of report).
Proof.
  destruct (process_month_source _ _ _ _ _ _ Hreport) as (out & _ & -> & _).
  now rewrite enrich_seq_nos, enrich_invoices.
Qed.

Lemma report_first_rows :
  map Pandas.is_first_row report =
  Pandas.not_duplicated [] (map Pandas.invoice_of report).
Proof.
  destruct (process_month_source _ _ _ _ _ _ Hreport) as (out & _ & -> & _).
  now rewrite enrich_first_rows, enrich_invoices.
Qed.

Lemma report_first_number (o : Pandas.report_row) :
  nth_error report 0 = Some o -> Pandas.For_Seq_No o = 1.
Proof.
  intros H. apply (nth_error_map_Some Pandas.For_Seq_No) in H.
  rewrite report_seq_nos in H. destruct report as [|x l]; [discriminate|].
  simpl in H. congruence.
Qed.

Lemma report_step (i : nat) (a b : Pandas.report_row) :
  nth_error report i = Some a ->
  nth_error report (S i) = Some b ->
  Pandas.For_Seq_No b =
  Pandas.For_Seq_No a +
  (if String.eqb (Pandas.invoice_of b) (Pandas.invoice_of a) then 0 else 1).
Proof.
  intros Ha Hb.
  apply (cumsum_changes_step (map Pandas.invoice_of report) None 0 i).
  - now apply nth_error_map_Some.
  - now apply nth_error_map_Some.
  - rewrite <- report_seq_nos. now apply nth_error_map_Some.
  - rewrite <- report_seq_nos. now apply nth_error_map_Some.
Qed.

Lemma report_span (d : nat) :
  forall (i : nat) (a b : Pandas.report_row),
    nth_error report i = Some a ->
    nth_error report (i + d) = Some b ->
    Pandas.For_Seq_No a <= Pandas.For_Seq_No b /\
    ((forall k c, (i <= k <= i + d)%nat -> nth_error report k = Some c ->
                  Pandas.invoice_of c = Pandas.invoice_of a) ->
     Pandas.For_Seq_No b = Pandas.For_Seq_No a).
Proof.
  induction d as [|d IH]; intros i a b Ha Hb.
  - rewrite Nat.add_0_r in Hb. assert (a = b) by congruence. subst.
    split; [lia|reflexivity].
  - replace (i + S d)%nat with (S (i + d)) in Hb by lia.
    destruct (nth_error report (i + d)) as [c|] eqn:Hc.
    + destruct (IH i a c Ha Hc) as [Hle Hrun].
      pose proof (report_step _ _ _ Hc Hb) as Hstep.
      split.
      * destruct (String.eqb (Pandas.invoice_of b) (Pandas.invoice_of c)); lia.
      * intros Hsame.
        rewrite (Hsame (i + d)%nat c) in Hstep by (try lia; assumption).
        rewrite (Hsame (S (i + d)) b) in Hstep by (try lia; assumption).
        rewrite String.eqb_refl in Hstep. rewrite Hstep, Hrun; [lia|].
        intros k e Hk He. apply (Hsame k e); [lia|exact He].
    + apply nth_error_None in Hc.
      assert (nth_error report (S (i + d)) <> None) by congruence.
      apply nth_error_Some in H. lia.
Qed.

End ReportOrder.

(** ** The SQLite version *)

Lemma length_flag_changes (prev : option Z) (ranks : list Z) :
  List.length (Sqlite.flag_changes prev ranks) = List.length ranks.
Proof.
  revert prev. induction ranks as [|k ranks IH]; intros prev; simpl;
    [|rewrite IH]; reflexivity.
Qed.

Lemma length_number_peer_groups (prev : option Sqlite.stage3_row) (count : Z)
      (ordered : list Sqlite.stage3_row) :
  List.length (Sqlite.number_peer_groups prev count ordered) = List.length ordered.
Proof.
  revert prev count. induction ordered as [|r l IH]; intros prev count; simpl;
    [|rewrite IH]; reflexivity.
Qed.

Lemma number_rows_s1 (rows earlier : list Sqlite.stage1_row) :
  map Sqlite.s1 (Sqlite.number_rows earlier rows) = rows.
Proof.
  revert earlier. induction rows as [|r rows IH]; intros earlier; simpl;
    [|rewrite IH]; reflexivity.
Qed.

Section SqliteReport.
Variables (month year : Z) (jib_master : list raw_row).

Let t2 : list Sqlite.stage2_row := Sqlite.stage2 (Sqlite.stage1 month jib_master).
Let filtered : list Sqlite.stage3_row := Sqlite.Filtered (Sqlite.stage3 t2).

Lemma final_report_ranked :
  map Sqlite.ranked (Sqlite.final_report month year jib_master) =
  sort_values Sqlite.window_order filtered.
Proof.
  unfold Sqlite.final_report. fold t2. fold filtered. cbv zeta.
  rewrite map_map.
  rewrite (map_ext _ fst) by (intros [r [k c]]; reflexivity).
  apply map_fst_combine.
  now rewrite length_combine, length_flag_changes, length_number_peer_groups,
    Nat.min_id.
Qed.

Lemma final_report_numbers :
  map Sqlite.for_sequence_no (Sqlite.final_report month year jib_master) =
  Sqlite.number_peer_groups None 0 (sort_values Sqlite.window_order filtered).
Proof.
  unfold Sqlite.final_report. fold t2. fold filtered. cbv zeta.
  rewrite map_map.
  rewrite (map_ext _ (fun x => fst (snd x))) by (intros [r [k c]]; reflexivity).
  rewrite <- (map_map snd fst), map_snd_combine, map_fst_combine; auto.
  - now rewrite length_flag_changes.
  - now rewrite length_combine, length_flag_changes, length_number_peer_groups,
      Nat.min_id.
Qed.

Lemma final_report_row (o : Sqlite.report_row) :
  In o (Sqlite.final_report month year jib_master) ->
  In (Sqlite.ranked o) filtered.
Proof.
  intros Ho. apply (in_map Sqlite.ranked) in Ho.
  rewrite final_report_ranked in Ho. now apply stable_sort_In in Ho.
Qed.

Lemma filtered_row (r : Sqlite.stage3_row) :
  In r filtered ->
  In (Sqlite.ledger_of r) (filter (Sqlite.month_is month) jib_master) /\
  Sqlite.clean_gross (Sqlite.s1 (Sqlite.s2 r)) =
    Sqlite.clean_gross_of (txn_gross_amt (Sqlite.ledger_of r)) /\
  Sqlite.inv_total r =
    Sqlite.inv_total_of t2 (txn_invoice_no (Sqlite.ledger_of r)) /\
  Sqlite.over_threshold (Sqlite.inv_total r) = true.
Proof.
  unfold filtered, Sqlite.Filtered, Sqlite.stage3. rewrite filter_In, in_map_iff.
  intros [(r2 & <- & Hr2) Hover]. simpl. unfold Sqlite.ledger_of. simpl.
  assert (H1 : In (Sqlite.s1 r2) (Sqlite.stage1 month jib_master)).
  { rewrite <- (number_rows_s1 (Sqlite.stage1 month jib_master) []).
    now apply in_map. }
  unfold Sqlite.stage1, Sqlite.with_clean_gross in H1.
  apply in_map_iff in H1 as (raw & E & Hraw). rewrite <- E in *. simpl in *.
  auto.
Qed.

End SqliteReport.

(** ** Invoice totals of the SQLite version *)

Lemma SUM_cons (x : option Q) (l : list (option Q)) :
  (amount (Sqlite.SUM (x :: l)) == amount x + amount (Sqlite.SUM l))%Q.
Proof.
  destruct x as [q|]; simpl; ring.
Qed.

Lemma no_earlier_peer (r : Sqlite.stage1_row) (earlier : list Sqlite.stage1_row) :
  (1 + Z.of_nat (List.length (filter (Sqlite.same_partition r) earlier)) =? 1) =
  negb (existsb (Sqlite.same_partition r) earlier).
Proof.
  induction earlier as [|x earlier IH]; [reflexivity|].
  cbn [filter existsb].
  destruct (Sqlite.same_partition r x); cbn [orb negb]; [|exact IH].
  apply Z.eqb_neq. cbn [List.length]. lia.
Qed.

(** The window sum counts one row of each duplicate group. *)
Lemma inv_total_of_number_rows (inv : string) (rows : list Sqlite.stage1_row) :
  forall earlier,
    (amount (Sqlite.SUM
               (map Sqlite.first_of_partition
                    (filter (fun r => String.eqb (txn_invoice_no (Sqlite.jib (Sqlite.s1 r)))
                                                 inv)
                            (Sqlite.number_rows earlier rows))))
     == Qsum (map (fun r => amount (Sqlite.clean_gross r))
                  (filter (of_invoice inv) (first_of_each_group earlier rows))))%Q.
Proof.
  induction rows as [|r rows IH]; intros earlier; [reflexivity|].
  cbn [Sqlite.number_rows first_of_each_group filter Sqlite.s1].
  rewrite filter_app, map_app. unfold of_invoice at 1.
  destruct (String.eqb (txn_invoice_no (Sqlite.jib r)) inv) eqn:E.
  - cbn [map]. rewrite SUM_cons, IH. unfold Sqlite.first_of_partition.
    cbn [Sqlite.row_id Sqlite.s1]. rewrite no_earlier_peer.
    destruct (existsb (Sqlite.same_partition r) earlier); simpl.
    + ring.
    + unfold of_invoice. rewrite E. simpl. ring.
  - rewrite IH.
    destruct (existsb (Sqlite.same_partition r) earlier); simpl.
    + reflexivity.
    + unfold of_invoice. rewrite E. simpl. reflexivity.
Qed.

Lemma inv_total_of_deduplicated (t : list Sqlite.stage1_row) (inv : string) :
  (amount (Sqlite.inv_total_of (Sqlite.stage2 t) inv) == deduplicated_total t inv)%Q.
Proof.
  apply inv_total_of_number_rows.
Qed.






(** ** The threshold *)





(** ** Where the SQLite version departs from the stated rules *)

(** C1 on the SQLite version: the date filter compares the month only.
    A row dated February 2023 is in the report asked for February
    2024. *)
Theorem sqlite_report_ignores_year :
  exists o,
    In o (Sqlite.final_report 2 2024 [last_year_row]) /\
    Sqlite.ledger_of (Sqlite.ranked o) = last_year_row /\
    txn_inv_date last_year_row = Some (mk_date 2023 2 15) /\
    Sqlite.filename o = "S202402-001.pdf".
Proof.
  eexists. split; [left; reflexivity|]. repeat split; reflexivity.
Qed.

(** What the SQLite date filter does ensure: the month. *)
Lemma sqlite_report_months (month year : Z) (jib_master : list raw_row)
        (o : Sqlite.report_row) :
  In o (Sqlite.final_report month year jib_master) ->
  exists d,
    txn_inv_date (Sqlite.ledger_of (Sqlite.ranked o)) = Some d /\ dt_month d = month.
Proof.
  intros Ho. apply final_report_row in Ho as Hf.
  apply filtered_row in Hf as (Hin & _).
  apply filter_In in Hin as [_ Hm]. unfold Sqlite.month_is in Hm.
  destruct (txn_inv_date (Sqlite.ledger_of (Sqlite.ranked o))) as [d|]; [|discriminate].
  exists d. split; [reflexivity|lia].
Qed.

Lemma sqlite_report_months_witness :
  exists o d,
    In o (Sqlite.final_report 2 2024 [last_year_row]) /\
    txn_inv_date (Sqlite.ledger_of (Sqlite.ranked o)) = Some d /\ dt_month d = 2.
Proof.
  destruct (Sqlite.final_report 2 2024 [last_year_row]) as [|o report] eqn:E;
    [discriminate E|].
  destruct (sqlite_report_months 2 2024 [last_year_row] o) as (d & Hd & Hm).
  - rewrite E. now left.
  - exists o, d. split; [now left|]. now split.
Defined.

(** C3 on the SQLite version: there is no prefix rule.  The journal
    entry GJ4491 of 5000 is in the report. *)
Theorem sqlite_report_keeps_journal_entry :
  exists o,
    In o (Sqlite.final_report 2 2024 [journal_row]) /\
    txn_invoice_no (Sqlite.ledger_of (Sqlite.ranked o)) = "GJ4491" /\
    starts_with_GJ_or_PE (txn_invoice_no (Sqlite.ledger_of (Sqlite.ranked o))).
Proof.
  eexists. split; [left; reflexivity|]. split; [reflexivity|].
  apply gj_or_pe_spec. reflexivity.
Qed.

(** ** Currency cleaning *)

Lemma clean_currency_text (s : string) :
  Str.delete "$" (Str.delete "," (Str.delete ")" (Str.replace "(" "-" s)))
  = currency_text s.
Proof.
  induction s as [|c s IH]; [reflexivity|].
  cbn [Str.replace currency_text]. unfold clean_char.
  destruct (Ascii.eqb c "(") eqn:E1.
  - cbn. now rewrite IH.
  - cbn [Str.delete]. destruct (Ascii.eqb c ")") eqn:E2; [cbn; exact IH|].
    cbn [Str.delete]. destruct (Ascii.eqb c ",") eqn:E3; [cbn; exact IH|].
    cbn [Str.delete]. destruct (Ascii.eqb c "$") eqn:E4; [cbn; exact IH|].
    cbn. now rewrite IH.
Qed.

Lemma filter_map_swap {A B : Type} (f : B -> bool) (g : A -> B) (l : list A) :
  filter f (map g l) = map g (filter (fun x => f (g x)) l).
Proof.
  induction l as [|x l IH]; simpl; [reflexivity|].
  destruct (f (g x)); simpl; now rewrite IH.
Qed.

Lemma filter_twice {A : Type} (f : A -> bool) (l : list A) :
  filter f (filter f l) = filter f l.
Proof.
  induction l as [|x l IH]; simpl; [reflexivity|].
  destruct (f x) eqn:E; simpl; [rewrite E|]; now rewrite IH.
Qed.

(** The currency cleaning of the final pandas version.  Text is
    cleaned character by character and then parsed, what does not parse
    being null; the rows kept by the preprocessing all carry a number,
    and the rows whose cleaned amount is null are dropped before any
    month is processed: the result is the same as if they had not been
    in the ledger. *)
Lemma final_version_currency_cleaning (cols : columns) (df_jib : list raw_row) :
  has_gross cols = true ->
  (forall s, clean_currency (Text s) = to_numeric (currency_text s)) /\
  (forall r, In r (Pandas.preprocess cols df_jib) ->
             exists raw q,
               In raw df_jib /\
               clean_currency (txn_gross_amt raw) = Some q /\
               txn_gross_amt r = Some q) /\
  Pandas.preprocess cols df_jib =
  Pandas.preprocess cols
    (filter (fun raw => notna (clean_currency (txn_gross_amt raw))) df_jib).
Proof.
  intros Hg. split; [|split].
  - intros s. unfold clean_currency. now rewrite clean_currency_text.
  - intros r Hr. unfold Pandas.preprocess in Hr. rewrite Hg in Hr.
    assert (H : exists r0,
               In r0 (filter (fun r => notna (txn_gross_amt r))
                        (map (fun r => with_gross r (clean_currency (txn_gross_amt r)))
                             df_jib)) /\
               txn_gross_amt r = txn_gross_amt r0).
    { destruct (has_invoice cols).
      - apply in_map_iff in Hr as (r0 & <- & Hr0). now exists r0.
      - now exists r. }
    destruct H as (r0 & Hr0 & ->).
    apply filter_In in Hr0 as [Hr0 Hnum]. apply in_map_iff in Hr0 as (raw & <- & Hraw).
    simpl in *. destruct (clean_currency (txn_gross_amt raw)) as [q|] eqn:E;
      [|discriminate]. now exists raw, q.
  - unfold Pandas.preprocess. rewrite Hg. do 2 f_equal.
    rewrite !filter_map_swap. simpl. now rewrite filter_twice.
Qed.

Lemma final_version_currency_cleaning_witness :
  has_gross all_columns = true /\
  Pandas.preprocess all_columns unparseable_ledger =
  Pandas.preprocess all_columns
    (filter (fun raw => notna (clean_currency (txn_gross_amt raw))) unparseable_ledger).
Proof.
  split; [reflexivity|].
  apply (final_version_currency_cleaning all_columns unparseable_ledger). reflexivity.
Defined.

(** C7 on the first pandas version and on the SQLite version.  The
    first version drops the missing amounts before it cleans the text,
    so a row whose amount is text without a number stays, with a null
    amount, and reaches the month's frame; the final version drops it.
    The SQLite version does not remove the dollar sign and casts text
    without a number to 0 instead of null. *)
Theorem first_version_keeps_unparseable_amount :
  clean_currency (Text "TBD") = None /\
  (exists rows r,
      PandasV1.filter_month all_columns 2 2024
        (PandasV1.preprocess all_columns unparseable_ledger) = Some rows /\
      In r rows /\ txn_gross_amt (Pandas.tx r) = None) /\
  (forall r, In r (Pandas.preprocess all_columns unparseable_ledger) ->
             txn_gross_amt r <> None) /\
  Sqlite.clean_gross_of (Text "$2,500.00") = Some 0%Q /\
  Sqlite.clean_gross_of (Text "TBD") = Some 0%Q.
Proof.
  split; [reflexivity|]. split; [|split; [|split; reflexivity]].
  - eexists. eexists. split; [reflexivity|]. split; [right; left; reflexivity|].
    reflexivity.
  - intros r [<-|[]]. discriminate.
Qed.

(** ** Sorting on several keys *)

Section Comparators.
Context {A : Type}.

Lemma lawful_eq_right (c : comparator A) (a b x : A) :
  lawful c -> c a b = Eq -> c x a = c x b.
Proof.
  intros L H. rewrite (law_antisym c L x a), (law_antisym c L x b).
  now rewrite (law_eq c L a b x H).
Qed.

Lemma lawful_refl (c : comparator A) (a : A) : lawful c -> c a a = Eq.
Proof.
  intros L. pose proof (law_antisym c L a a) as H.
  destruct (c a a); simpl in H; congruence.
Qed.

Lemma lexicographic_Eq (by_ : list (comparator A)) (a b : A) :
  lexicographic by_ a b = Eq <-> forall c, In c by_ -> c a b = Eq.
Proof.
  induction by_ as [|c by_ IH]; simpl.
  - split; [intros _ c []|reflexivity].
  - destruct (c a b) eqn:E.
    + rewrite IH. split.
      * intros H c' [<-|Hc]; auto.
      * intros H c' Hc. apply H. now right.
    + split; [discriminate|]. intros H. rewrite <- E. apply H. now left.
    + split; [discriminate|]. intros H. rewrite <- E. apply H. now left.
Qed.

Lemma lexicographic_lawful (by_ : list (comparator A)) :
  Forall lawful by_ -> lawful (lexicographic by_).
Proof.
  induction 1 as [|c by_ L _ IH]; simpl.
  - constructor; intros; reflexivity || discriminate.
  - constructor.
    + intros a b. rewrite (law_antisym c L a b).
      destruct (c b a); simpl; [apply (law_antisym _ IH)|reflexivity|reflexivity].
    + intros a b x.
      destruct (c a b) eqn:Eab; [| |discriminate].
      * rewrite (law_eq c L a b x Eab).
        destruct (c b x); [apply (law_trans _ IH)|reflexivity|discriminate].
      * intros _. destruct (c b x) eqn:Ebx; [| |discriminate].
        -- rewrite <- (lawful_eq_right c b x a L Ebx), Eab. reflexivity.
        -- now rewrite (law_trans c L a b x Eab Ebx).
    + intros a b x.
      destruct (c a b) eqn:Eab; try discriminate.
      rewrite (law_eq c L a b x Eab).
      intros H. destruct (c b x); [apply (law_eq _ IH _ _ _ H)|reflexivity|reflexivity].
Qed.

Variable by_ : list (comparator A).
Hypothesis Hby : Forall lawful by_.

Lemma not_after_total (a b : A) :
  not_after by_ a b = true \/ not_after by_ b a = true.
Proof.
  unfold not_after.
  rewrite (law_antisym _ (lexicographic_lawful by_ Hby) a b).
  destruct (lexicographic by_ b a); simpl; auto.
Qed.

Lemma not_after_trans (a b x : A) :
  not_after by_ a b = true -> not_after by_ b x = true -> not_after by_ a x = true.
Proof.
  pose proof (lexicographic_lawful by_ Hby) as L. unfold not_after.
  destruct (lexicographic by_ a b) eqn:Eab; [| |discriminate]; intros _.
  - now rewrite (law_eq _ L a b x Eab).
  - destruct (lexicographic by_ b x) eqn:Ebx; [| |discriminate]; intros _.
    + now rewrite <- (lawful_eq_right _ b x a L Ebx), Eab.
    + now rewrite (law_trans _ L a b x Eab Ebx).
Qed.

Lemma sort_values_sorted (df : list A) :
  StronglySorted (fun a b => not_after by_ a b = true) (sort_values by_ df).
Proof.
  apply stable_sort_sorted; [apply not_after_total|apply not_after_trans].
Qed.

End Comparators.

(** A row sorted between two rows that agree on the leading keys
    agrees with them on these keys. *)
Lemma between_equals {A : Type} (leading : list (comparator A)) :
  forall (rest : list (comparator A)) (a k b : A),
    Forall lawful leading ->
    not_after (leading ++ rest) a k = true ->
    not_after (leading ++ rest) k b = true ->
    (forall c, In c leading -> c a b = Eq) ->
    forall c, In c leading -> c a k = Eq.
Proof.
  induction leading as [|c0 leading IH]; intros rest a k b HL Hak Hkb Hab c Hc;
    [destruct Hc|].
  inversion HL as [|? ? L0 HL']; subst.
  assert (E0 : c0 a b = Eq) by (apply Hab; now left).
  unfold not_after in Hak, Hkb. cbn [app lexicographic] in Hak, Hkb.
  rewrite <- (lawful_eq_right c0 a b k L0 E0) in Hkb.
  rewrite (law_antisym c0 L0 k a) in Hkb.
  destruct (c0 a k) eqn:Eak; simpl in Hkb; try discriminate.
  destruct Hc as [<-|Hc]; [exact Eak|].
  apply (IH rest a k b HL'); auto.
  intros c' Hc'. apply Hab. now right.
Qed.

Lemma ascending_text_lawful {A : Type} (col : A -> string) : lawful (ascending_text col).
Proof.
  unfold ascending_text. constructor.
  - intros a b. apply String.compare_antisym.
  - intros a b x.
    exact (@RelationClasses.StrictOrder_Transitive
             _ _ String_as_OT.lt_strorder (col a) (col b) (col x)).
  - intros a b x H. apply String.compare_eq_iff in H. now rewrite H.
Qed.

Lemma descending_number_lawful {A : Type} (col : A -> option Q) :
  lawful (descending_number col).
Proof.
  unfold descending_number. constructor.
  - intros a b. destruct (col a), (col b); simpl; try reflexivity.
    symmetry. apply Qcompare_antisym.
  - intros a b x. destruct (col a), (col b), (col x); try discriminate; auto.
    rewrite <- !Qlt_alt. intros H1 H2. now apply Qlt_trans with q0.
  - intros a b x. destruct (col a), (col b), (col x); try discriminate; auto.
    rewrite <- Qeq_alt. intros H. now rewrite H.
Qed.

Lemma lifted_lawful {A B : Type} (f : A -> B) (c : comparator B) :
  lawful c -> lawful (fun a b => c (f a) (f b)).
Proof.
  intros L. constructor.
  - intros a b. apply (law_antisym c L).
  - intros a b x. apply (law_trans c L).
  - intros a b x. apply (law_eq c L).
Qed.

Lemma ascending_text_Eq {A : Type} (col : A -> string) (a b : A) :
  ascending_text col a b = Eq <-> col a = col b.
Proof.
  unfold ascending_text. split; [apply String.compare_eq_iff|].
  intros ->. apply (lawful_refl (ascending_text (fun s : string => s))).
  apply ascending_text_lawful.
Qed.

Lemma StronglySorted_nth {A : Type} (R : A -> A -> Prop) (l : list A) :
  StronglySorted R l ->
  forall i j a b,
    (i < j)%nat -> nth_error l i = Some a -> nth_error l j = Some b -> R a b.
Proof.
  induction 1 as [|x l Hs IH Hx]; intros i j a b Hij Ha Hb.
  - destruct i; discriminate.
  - destruct j as [|j]; [lia|]. destruct i as [|i]; simpl in *.
    + injection Ha as <-. rewrite Forall_forall in Hx. apply Hx.
      eapply nth_error_In; eassumption.
    + apply (IH i j); [lia|assumption|assumption].
Qed.

(** ** The window order of the SQLite version *)

Lemma window_order_lawful : Forall lawful Sqlite.window_order.
Proof.
  repeat constructor; apply ascending_text_lawful.
Qed.

Lemma same_peer_iff (a b : Sqlite.stage3_row) :
  Sqlite.same_peer a b = true <->
  name_1 (Sqlite.ledger_of a) = name_1 (Sqlite.ledger_of b) /\
  txn_invoice_no (Sqlite.ledger_of a) = txn_invoice_no (Sqlite.ledger_of b).
Proof.
  unfold Sqlite.same_peer. split.
  - intros H. destruct (lexicographic Sqlite.window_order a b) eqn:E; try discriminate.
    rewrite lexicographic_Eq in E. split.
    + apply (ascending_text_Eq (fun r => name_1 (Sqlite.ledger_of r))).
      apply E. simpl. auto.
    + apply (ascending_text_Eq (fun r => txn_invoice_no (Sqlite.ledger_of r))).
      apply E. simpl. auto.
  - intros [H1 H2].
    assert (H : lexicographic Sqlite.window_order a b = Eq).
    { apply lexicographic_Eq. intros c [<-|[<-|[]]]; now apply ascending_text_Eq. }
    now rewrite H.
Qed.

(** A row sorted between two peers is their peer. *)
Lemma between_peers (a k b : Sqlite.stage3_row) :
  not_after Sqlite.window_order a k = true ->
  not_after Sqlite.window_order k b = true ->
  Sqlite.same_peer a b = true ->
  Sqlite.same_peer a k = true.
Proof.
  intros Hak Hkb Hab. unfold Sqlite.same_peer in *.
  destruct (lexicographic Sqlite.window_order a b) eqn:E; try discriminate.
  rewrite lexicographic_Eq in E.
  assert (H : lexicographic Sqlite.window_order a k = Eq).
  { apply lexicographic_Eq.
    apply (between_equals Sqlite.window_order [] a k b);
      rewrite ?app_nil_r; auto using window_order_lawful. }
  now rewrite H.
Qed.

Lemma number_peer_groups_step (ordered : list Sqlite.stage3_row) :
  forall (prev : option Sqlite.stage3_row) (count : Z) (i : nat)
         (a b : Sqlite.stage3_row) (sa sb : Z),
    nth_error ordered i = Some a ->
    nth_error ordered (S i) = Some b ->
    nth_error (Sqlite.number_peer_groups prev count ordered) i = Some sa ->
    nth_error (Sqlite.number_peer_groups prev count ordered) (S i) = Some sb ->
    sb = sa + (if Sqlite.same_peer a b then 0 else 1).
Proof.
  induction ordered as [|x l IH]; intros prev count i a b sa sb Ha Hb Hsa Hsb.
  - destruct i; discriminate.
  - destruct i as [|i].
    + destruct l as [|y l]; [discriminate|].
      cbn in Ha, Hb, Hsa, Hsb. injection Ha as <-. injection Hb as <-.
      injection Hsa as <-. injection Hsb as <-.
      destruct (Sqlite.same_peer x y); lia.
    + cbn in Ha, Hb, Hsa, Hsb. eapply IH; eassumption.
Qed.

Section SqliteOrder.
Variables (month year : Z) (jib_master : list raw_row).

Let report : list Sqlite.report_row := Sqlite.final_report month year jib_master.

Lemma sqlite_report_sorted :
  StronglySorted (fun a b => not_after Sqlite.window_order a b = true)
                 (map Sqlite.ranked report).
Proof.
  unfold report. rewrite final_report_ranked.
  apply sort_values_sorted, window_order_lawful.
Qed.

Lemma sqlite_first_number (o : Sqlite.report_row) :
  nth_error report 0 = Some o -> Sqlite.for_sequence_no o = 1.
Proof.
  intros H.
  pose proof (nth_error_map_Some Sqlite.for_sequence_no _ _ _ H) as Hn.
  pose proof (nth_error_map_Some Sqlite.ranked _ _ _ H) as Hr.
  unfold report in Hn, Hr. rewrite final_report_numbers in Hn.
  rewrite final_report_ranked in Hr.
  destruct (sort_values Sqlite.window_order _) as [|x l]; [discriminate|].
  cbn in Hn. congruence.
Qed.

Lemma sqlite_step (i : nat) (a b : Sqlite.report_row) :
  nth_error report i = Some a ->
  nth_error report (S i) = Some b ->
  Sqlite.for_sequence_no b =
  Sqlite.for_sequence_no a +
  (if Sqlite.same_peer (Sqlite.ranked a) (Sqlite.ranked b) then 0 else 1).
Proof.
  intros Ha Hb.
  apply (number_peer_groups_step (map Sqlite.ranked report) None 0 i).
  - now apply nth_error_map_Some.
  - now apply nth_error_map_Some.
  - unfold report.
    rewrite final_report_ranked, <- (final_report_numbers month year jib_master).
    now apply nth_error_map_Some.
  - unfold report.
    rewrite final_report_ranked, <- (final_report_numbers month year jib_master).
    now apply nth_error_map_Some.
Qed.

Lemma sqlite_ordered (i j : nat) (a b : Sqlite.report_row) :
  (i <= j)%nat ->
  nth_error report i = Some a ->
  nth_error report j = Some b ->
  not_after Sqlite.window_order (Sqlite.ranked a) (Sqlite.ranked b) = true.
Proof.
  intros Hij Ha Hb. destruct (Nat.eq_dec i j) as [->|Hne].
  - assert (a = b) by congruence. subst.
    destruct (not_after_total _ window_order_lawful (Sqlite.ranked b) (Sqlite.ranked b));
      assumption.
  - apply (StronglySorted_nth _ _ sqlite_report_sorted i j); [lia| |];
      now apply nth_error_map_Some.
Qed.

Lemma sqlite_peers_span (d : nat) :
  forall (i : nat) (a b : Sqlite.report_row),
    nth_error report i = Some a ->
    nth_error report (i + d) = Some b ->
    Sqlite.same_peer (Sqlite.ranked a) (Sqlite.ranked b) = true ->
    Sqlite.for_sequence_no b = Sqlite.for_sequence_no a.
Proof.
  induction d as [|d IH]; intros i a b Ha Hb Hpeer.
  - rewrite Nat.add_0_r in Hb. congruence.
  - replace (i + S d)%nat with (S (i + d)) in Hb by lia.
    destruct (nth_error report (i + d)) as [c|] eqn:Hc.
    + assert (Hac : Sqlite.same_peer (Sqlite.ranked a) (Sqlite.ranked c) = true).
      { apply between_peers with (Sqlite.ranked b); [| |exact Hpeer].
        - apply (sqlite_ordered i (i + d)); [lia|assumption|assumption].
        - apply (sqlite_ordered (i + d) (S (i + d))); [lia|assumption|assumption]. }
      rewrite (sqlite_step _ _ _ Hc Hb), (IH i a c Ha Hc Hac).
      assert (Hcb : Sqlite.same_peer (Sqlite.ranked c) (Sqlite.ranked b) = true).
      { apply same_peer_iff. apply same_peer_iff in Hac, Hpeer.
        destruct Hac, Hpeer. split; congruence. }
      rewrite Hcb. lia.
    + apply nth_error_None in Hc.
      assert (H : nth_error report (S (i + d)) <> None) by congruence.
      apply nth_error_Some in H. lia.
Qed.

Lemma sqlite_peers_share (a b : Sqlite.report_row) :
  In a report -> In b report ->
  name_1 (Sqlite.ledger_of (Sqlite.ranked a)) =
    name_1 (Sqlite.ledger_of (Sqlite.ranked b)) ->
  txn_invoice_no (Sqlite.ledger_of (Sqlite.ranked a)) =
    txn_invoice_no (Sqlite.ledger_of (Sqlite.ranked b)) ->
  Sqlite.for_sequence_no a = Sqlite.for_sequence_no b.
Proof.
  intros Ha Hb Hn Hi.
  apply In_nth_error in Ha as [i Ha]. apply In_nth_error in Hb as [j Hb].
  destruct (Nat.le_ge_cases i j) as [Hij|Hji].
  - symmetry. apply (sqlite_peers_span (j - i) i); [exact Ha| |].
    + now replace (i + (j - i))%nat with j by lia.
    + apply same_peer_iff. now split.
  - apply (sqlite_peers_span (i - j) j); [exact Hb| |].
    + now replace (j + (i - j))%nat with i by lia.
    + apply same_peer_iff. now split.
Qed.

End SqliteOrder.

(** ** Links and file names *)

Lemma link_columns_inv (month year : Z) (first : bool) (imgs : list (option string)) :
  forall idx lv,
    In lv (Pandas.link_columns month year first idx imgs) ->
    exists j img p,
      nth_error imgs j = Some img /\ In p (Pandas.paths month year) /\
      lv = (Pandas.label (fst (fst p)) (idx + j) (snd (fst p)),
            Pandas.make_hyperlink first img (snd p)).
Proof.
  induction imgs as [|x imgs IH]; intros idx lv; cbn [Pandas.link_columns];
    [intros []|].
  intros H. apply in_app_or in H as [H|H].
  - apply in_map_iff in H as ([[tmpl q] base] & <- & Hp).
    exists 0%nat, x, (tmpl, q, base). rewrite Nat.add_0_r. auto.
  - apply IH in H as (j & img & p & Hj & Hp & ->).
    exists (S j), img, p. replace (idx + S j)%nat with (S idx + j)%nat by lia. auto.
Qed.

(** C6, as the code has it.  In a month's report of the final pandas
    version a row is flagged as first exactly when no earlier row has
    its invoice number.  A flagged row carries the file name
    S<year><month, 2 digits>-<sequence number, 3 digits>.pdf and, in
    each link column whose image value is present and not blank, the
    hyperlink formula; every other row carries 0 in the file-name
    column and in all link columns. *)
Theorem first_occurrence_carries_links (cols : columns) (ir : ir_table) (month year : Z)
        (df_jib : list txn) (report : list Pandas.report_row) (i : nat)
        (o : Pandas.report_row) :
  has_invoice cols = true ->
  Pandas.process_month cols ir month year df_jib = Some report ->
  nth_error report i = Some o ->
  (Pandas.is_first_row o = true <->
   ~ In (Pandas.invoice_of o) (map Pandas.invoice_of (firstn i report))) /\
  Pandas.Tax_Comm_Image o =
    (if Pandas.is_first_row o
     then VStr ("S" ++ Str.decimal year ++ Str.zfill 2 month ++ "-"
                    ++ Str.zfill 3 (Pandas.For_Seq_No o) ++ ".pdf")
     else VInt 0) /\
  (forall lv, In lv (Pandas.links o) <->
              exists j img p,
                nth_error (Pandas.images o) j = Some img /\
                In p (Pandas.paths month year) /\
                lv = (Pandas.label (fst (fst p)) (S j) (snd (fst p)),
                      if Pandas.is_first_row o
                      then match img with
                           | Some v =>
                               if String.eqb (Str.strip v) EmptyString then VInt 0
                               else VStr (Pandas.hyperlink_formula (snd p) (Str.strip v))
                           | None => VInt 0
                           end
                      else VInt 0)).
Proof.
  intros Hinv Hreport Ho.
  assert (Hin : In o report) by (eapply nth_error_In; eassumption).
  destruct (process_month_source _ _ _ _ _ _ Hreport) as (out & _ & Hrep & _).
  rewrite Hrep in Hin. apply enrich_row in Hin as (Hpad & _ & Hlinks & Htax).
  split; [|split].
  - pose proof (nth_error_map_Some Pandas.is_first_row _ _ _ Ho) as Hf.
    pose proof (nth_error_map_Some Pandas.invoice_of _ _ _ Ho) as Hi.
    rewrite (report_first_rows cols ir month year df_jib report Hinv Hreport) in Hf.
    rewrite (not_duplicated_nth _ _ _ _ _ Hi Hf), firstn_map.
    split; [intros [_ H]; exact H|intros H; split; [intros []|exact H]].
  - rewrite Htax, Hpad. unfold Pandas.build_tax_comm_filename.
    now destruct (Pandas.is_first_row o).
  - intros lv. rewrite Hlinks. split.
    + intros H. apply link_columns_inv in H as (j & img & p & Hj & Hp & ->).
      exists j, img, p. split; [exact Hj|]. split; [exact Hp|].
      unfold Pandas.make_hyperlink. now destruct (Pandas.is_first_row o).
    + intros (j & img & p & Hj & Hp & ->).
      replace (if Pandas.is_first_row o
               then match img with
                    | Some v => if String.eqb (Str.strip v) EmptyString then VInt 0
                                else VStr (Pandas.hyperlink_formula (snd p) (Str.strip v))
                    | None => VInt 0
                    end
               else VInt 0)
        with (Pandas.make_hyperlink (Pandas.is_first_row o) img (snd p))
        by (unfold Pandas.make_hyperlink; now destruct (Pandas.is_first_row o)).
      now apply (link_columns_nth month year _ _ 1%nat j img p).
Qed.

Lemma first_occurrence_carries_links_witness :
  exists report o,
    Pandas.process_month all_columns no_images 2 2024 split_invoice_ledger = Some report /\
    nth_error report 0 = Some o /\
    Pandas.is_first_row o = true /\
    Pandas.Tax_Comm_Image o = VStr "S202402-001.pdf".
Proof.
  destruct (Pandas.process_month all_columns no_images 2 2024 split_invoice_ledger)
    as [report|] eqn:E; [|discriminate E].
  destruct report as [|o report]; [discriminate E|].
  exists (o :: report), o. split; [reflexivity|]. split; [reflexivity|].
  destruct (first_occurrence_carries_links
              all_columns no_images 2 2024 split_invoice_ledger (o :: report) 0 o
              eq_refl E eq_refl) as (Hfirst & Htax & _).
  assert (Hf : Pandas.is_first_row o = true) by (apply Hfirst; simpl; tauto).
  split; [exact Hf|]. rewrite Htax, Hf. injection E as Eo _. subst o. reflexivity.
Defined.

(** C6, as stated, fails where an invoice number is used by two
    vendors: the third row of the report opens a run of invoice A (the
    row before it belongs to invoice B) and carries 0 as its file name,
    invoice A having appeared on the first row. *)
Lemma second_run_without_file_name :
  exists report a b c,
    Pandas.process_month all_columns no_images 2 2024 split_invoice_ledger = Some report /\
    report = [a; b; c] /\
    Pandas.invoice_of c <> Pandas.invoice_of b /\
    Pandas.invoice_of c = Pandas.invoice_of a /\
    Pandas.is_first_row c = false /\
    Pandas.Tax_Comm_Image c = VInt 0.
Proof.
  eexists. eexists. eexists. eexists. split; [vm_compute; reflexivity|].
  split; [reflexivity|]. split; [discriminate|]. repeat split; reflexivity.
Qed.

(** ** The final order of the pandas report *)

Lemma sort_cols_lawful (cols : columns) : Forall lawful (Pandas.sort_cols cols).
Proof.
  unfold Pandas.sort_cols.
  destruct (has_vendor cols), (has_invoice cols), (has_property cols),
    (has_billing cols), (has_gross cols); simpl;
    repeat constructor;
    first [apply ascending_text_lawful | apply descending_number_lawful].
Qed.

Lemma final_sort_lawful (cols : columns) : Forall lawful (Pandas.final_sort cols).
Proof.
  unfold Pandas.final_sort. constructor; [apply descending_number_lawful|].
  pose proof (sort_cols_lawful cols) as H.
  induction H as [|c l L _ IH]; simpl; constructor; [|exact IH].
  now apply (lifted_lawful Pandas.tx).
Qed.

(** The keys that lead the final order when the invoice column
    exists: the invoice total, the vendor if there is one, the invoice
    number. *)
Lemma final_sort_leading (cols : columns) :
  has_invoice cols = true ->
  exists rest,
    Pandas.final_sort cols =
    ((descending_number (fun r => Some (Pandas.Inv_Total r))
      :: (if has_vendor cols
          then [fun a b => ascending_text name_1 (Pandas.tx a) (Pandas.tx b)]
          else [])
      ++ [fun a b => ascending_text txn_invoice_no (Pandas.tx a) (Pandas.tx b)])
     ++ rest)%list.
Proof.
  intros Hi. unfold Pandas.final_sort, Pandas.sort_cols. rewrite Hi.
  destruct (has_vendor cols); simpl; eexists; reflexivity.
Qed.

Section FinalOrder.
Variables (cols : columns) (ir : ir_table) (month year : Z) (df_jib : list txn).
Variable report : list Pandas.report_row.
Hypothesis Hinv : has_invoice cols = true.
Hypothesis Hgross : has_gross cols = true.
Hypothesis Hreport : Pandas.process_month cols ir month year df_jib = Some report.

Let sorted_month : list txn :=
  sort_values (Pandas.sort_cols cols) (Pandas.filter_by_date cols month year df_jib).

Lemma report_sources_sorted :
  StronglySorted (fun a b => not_after (Pandas.final_sort cols) a b = true)
                 (map Pandas.source report).
Proof.
  destruct (process_month_source _ _ _ _ _ _ Hreport) as (out & Hf & _ & ->).
  revert Hf. unfold Pandas.filter_month. cbv zeta.
  destruct (Pandas.filter_by_date cols month year df_jib) as [|t l]; [discriminate|].
  destruct (Pandas.drop_low_value_vendors cols _) as [|r k]; [discriminate|].
  unfold Pandas.has_inv_total. rewrite Hinv, Hgross. cbn [andb]. intros H.
  injection H as <-.
  exact (sort_values_sorted (Pandas.final_sort cols) (final_sort_lawful cols) (r :: k)).
Qed.

Lemma report_total (o : Pandas.report_row) :
  In o report ->
  Pandas.Inv_Total (Pandas.source o) =
  Pandas.inv_total sorted_month (Pandas.invoice_of o).
Proof.
  intros Ho. destruct (process_month_source _ _ _ _ _ _ Hreport) as (out & Hf & _ & Hs).
  assert (Hin : In (Pandas.source o) out) by (rewrite <- Hs; now apply in_map).
  apply (filter_month_In _ _ _ _ _ Hf), survivors_In in Hin as (Hagg & _).
  unfold Pandas.aggregate_and_filter, Pandas.has_inv_total in Hagg.
  rewrite Hinv, Hgross in Hagg. simpl in Hagg.
  apply filter_In in Hagg as [Hagg _]. apply in_map_iff in Hagg as (t & Ht & _).
  unfold Pandas.invoice_of. now rewrite <- Ht.
Qed.

Lemma report_ordered (i j : nat) (a b : Pandas.report_row) :
  (i <= j)%nat ->
  nth_error report i = Some a ->
  nth_error report j = Some b ->
  not_after (Pandas.final_sort cols) (Pandas.source a) (Pandas.source b) = true.
Proof.
  intros Hij Ha Hb. destruct (Nat.eq_dec i j) as [->|Hne].
  - assert (a = b) by congruence. subst.
    destruct (not_after_total _ (final_sort_lawful cols)
                              (Pandas.source b) (Pandas.source b)); assumption.
  - apply (StronglySorted_nth _ _ report_sources_sorted i j); [lia| |];
      now apply nth_error_map_Some.
Qed.

(** Between two rows of one vendor and one invoice number lie only
    rows of that invoice number. *)
Lemma report_between (i k j : nat) (a c b : Pandas.report_row) :
  (i <= k <= j)%nat ->
  nth_error report i = Some a ->
  nth_error report k = Some c ->
  nth_error report j = Some b ->
  name_1 (Pandas.tx (Pandas.source a)) = name_1 (Pandas.tx (Pandas.source b)) ->
  Pandas.invoice_of a = Pandas.invoice_of b ->
  Pandas.invoice_of c = Pandas.invoice_of a.
Proof.
  intros Hk Ha Hc Hb Hvendor Hinvoice.
  destruct (final_sort_leading cols Hinv) as (rest & Hsort).
  pose proof (report_ordered i k a c ltac:(lia) Ha Hc) as Hac.
  pose proof (report_ordered k j c b ltac:(lia) Hc Hb) as Hcb.
  rewrite Hsort in Hac, Hcb.
  assert (Htotal : Pandas.Inv_Total (Pandas.source a) = Pandas.Inv_Total (Pandas.source b)).
  { rewrite !report_total by (eapply nth_error_In; eassumption). now rewrite Hinvoice. }
  symmetry.
  apply (ascending_text_Eq txn_invoice_no (Pandas.tx (Pandas.source a))
                           (Pandas.tx (Pandas.source c))).
  refine (between_equals _ rest _ _ _ _ Hac Hcb _
            (fun x y => ascending_text txn_invoice_no (Pandas.tx x) (Pandas.tx y)) _).
  - constructor; [apply descending_number_lawful|].
    destruct (has_vendor cols); repeat constructor;
      apply (lifted_lawful Pandas.tx), ascending_text_lawful.
  - intros c0 [<-|Hc0].
    + unfold descending_number. rewrite Htotal. now apply Qeq_alt.
    + apply in_app_or in Hc0 as [Hc0|[<-|[]]].
      * destruct (has_vendor cols); [|destruct Hc0].
        destruct Hc0 as [<-|[]]. now apply ascending_text_Eq.
      * now apply ascending_text_Eq.
  - apply in_cons, in_or_app. right. now left.
Qed.

Lemma report_same_vendor_invoice (a b : Pandas.report_row) :
  In a report -> In b report ->
  name_1 (Pandas.tx (Pandas.source a)) = name_1 (Pandas.tx (Pandas.source b)) ->
  Pandas.invoice_of a = Pandas.invoice_of b ->
  Pandas.For_Seq_No a = Pandas.For_Seq_No b.
Proof.
  assert (Hspan : forall i j x y,
             (i <= j)%nat -> nth_error report i = Some x -> nth_error report j = Some y ->
             name_1 (Pandas.tx (Pandas.source x)) = name_1 (Pandas.tx (Pandas.source y)) ->
             Pandas.invoice_of x = Pandas.invoice_of y ->
             Pandas.For_Seq_No y = Pandas.For_Seq_No x).
  { intros i j x y Hij Hx Hy Hv Hi.
    replace j with (i + (j - i))%nat in Hy by lia.
    apply (report_span cols ir month year df_jib report Hinv Hreport (j - i) i x y Hx Hy).
    intros k c Hk Hc.
    apply (report_between i k (i + (j - i)) x c y); auto. }
  intros Ha Hb Hv Hi.
  apply In_nth_error in Ha as [i Ha]. apply In_nth_error in Hb as [j Hb].
  destruct (Nat.le_ge_cases i j) as [Hij|Hji].
  - symmetry. now apply (Hspan i j a b).
  - now apply (Hspan j i b a).
Qed.

End FinalOrder.

(** ** Sequence numbers *)

(** C5, as the code has it.  Read top to bottom, the sequence numbers
    of a month's report start at 1, never decrease, stay equal from one
    row to the next when the key is the same and increase by exactly 1
    when it differs; the key is the invoice number in the pandas
    versions and the pair of vendor and invoice number in the SQLite
    version.  In the pandas versions the rows of one invoice-number run
    carry one sequence number.  In every version any two rows with the
    same vendor and the same invoice number carry the same sequence
    number. *)
Theorem sequence_numbers_count_runs :
  (forall (cols : columns) (ir : ir_table) (month year : Z) (df_jib : list txn)
          (report : list Pandas.report_row),
      has_invoice cols = true ->
      Pandas.process_month cols ir month year df_jib = Some report ->
      (forall o, nth_error report 0 = Some o -> Pandas.For_Seq_No o = 1) /\
      (forall i a b,
          nth_error report i = Some a -> nth_error report (S i) = Some b ->
          (Pandas.invoice_of b = Pandas.invoice_of a ->
           Pandas.For_Seq_No b = Pandas.For_Seq_No a) /\
          (Pandas.invoice_of b <> Pandas.invoice_of a ->
           Pandas.For_Seq_No b = Pandas.For_Seq_No a + 1)) /\
      (forall i d a b,
          nth_error report i = Some a -> nth_error report (i + d) = Some b ->
          Pandas.For_Seq_No a <= Pandas.For_Seq_No b /\
          ((forall k c, (i <= k <= i + d)%nat -> nth_error report k = Some c ->
                        Pandas.invoice_of c = Pandas.invoice_of a) ->
           Pandas.For_Seq_No b = Pandas.For_Seq_No a)) /\
      (has_gross cols = true ->
       forall a b,
         In a report -> In b report ->
         name_1 (Pandas.tx (Pandas.source a)) = name_1 (Pandas.tx (Pandas.source b)) ->
         Pandas.invoice_of a = Pandas.invoice_of b ->
         Pandas.For_Seq_No a = Pandas.For_Seq_No b)) /\
  (forall (month year : Z) (jib_master : list raw_row),
      (forall o, nth_error (Sqlite.final_report month year jib_master) 0 = Some o ->
                 Sqlite.for_sequence_no o = 1) /\
      (forall i a b,
          nth_error (Sqlite.final_report month year jib_master) i = Some a ->
          nth_error (Sqlite.final_report month year jib_master) (S i) = Some b ->
          let same_key :=
            name_1 (Sqlite.ledger_of (Sqlite.ranked a)) =
              name_1 (Sqlite.ledger_of (Sqlite.ranked b)) /\
            txn_invoice_no (Sqlite.ledger_of (Sqlite.ranked a)) =
              txn_invoice_no (Sqlite.ledger_of (Sqlite.ranked b)) in
          (same_key -> Sqlite.for_sequence_no b = Sqlite.for_sequence_no a) /\
          (~ same_key -> Sqlite.for_sequence_no b = Sqlite.for_sequence_no a + 1)) /\
      (forall a b,
          In a (Sqlite.final_report month year jib_master) ->
          In b (Sqlite.final_report month year jib_master) ->
          name_1 (Sqlite.ledger_of (Sqlite.ranked a)) =
            name_1 (Sqlite.ledger_of (Sqlite.ranked b)) ->
          txn_invoice_no (Sqlite.ledger_of (Sqlite.ranked a)) =
            txn_invoice_no (Sqlite.ledger_of (Sqlite.ranked b)) ->
          Sqlite.for_sequence_no a = Sqlite.for_sequence_no b)).
Proof.
  split.
  - intros cols ir month year df_jib report Hinv Hreport. split; [|split; [|split]].
    + intros o. now apply (report_first_number cols ir month year df_jib).
    + intros i a b Ha Hb.
      rewrite (report_step cols ir month year df_jib report Hinv Hreport i a b Ha Hb).
      split.
      * intros ->. rewrite String.eqb_refl. lia.
      * intros Hne. apply String.eqb_neq in Hne. now rewrite Hne.
    + intros i d a b. now apply (report_span cols ir month year df_jib).
    + intros Hgross a b.
      now apply (report_same_vendor_invoice cols ir month year df_jib).
  - intros month year jib_master. split; [|split].
    + apply sqlite_first_number.
    + intros i a b Ha Hb. cbv zeta. rewrite (sqlite_step _ _ _ i a b Ha Hb).
      rewrite <- same_peer_iff.
      destruct (Sqlite.same_peer (Sqlite.ranked a) (Sqlite.ranked b));
        split; intros H; try lia; congruence.
    + apply sqlite_peers_share.
Qed.

Lemma sequence_numbers_count_runs_witness :
  exists report a b,
    Pandas.process_month all_columns no_images 2 2024 split_invoice_ledger = Some report /\
    nth_error report 0 = Some a /\ nth_error report 1 = Some b /\
    Pandas.For_Seq_No a = 1 /\ Pandas.For_Seq_No b = 2.
Proof.
  destruct sequence_numbers_count_runs as [Hpandas _].
  destruct (Pandas.process_month all_columns no_images 2 2024 split_invoice_ledger)
    as [report|] eqn:E; [|discriminate E].
  destruct report as [|a [|b report]]; try discriminate E.
  destruct (Hpandas all_columns no_images 2 2024 split_invoice_ledger
                    (a :: b :: report) eq_refl E) as (Hfirst & Hstep & _ & _).
  exists (a :: b :: report), a, b.
  split; [reflexivity|]. split; [reflexivity|]. split; [reflexivity|].
  pose proof (Hfirst a eq_refl) as Ha.
  destruct (Hstep 0%nat a b eq_refl eq_refl) as [_ Hb].
  split; [exact Ha|]. rewrite Hb, Ha; [reflexivity|].
  injection E as Ea Eb _. subst a b. vm_compute. discriminate.
Defined.

(** C5, as stated, fails where an invoice number is used by two
    vendors.  Final pandas version: the rows of invoice A carry the
    numbers 1 and 3, an invoice with the same total lying between
    them.  SQLite version: the second row has the invoice number of the
    row before it, and the number goes from 1 to 2. *)
Lemma shared_invoice_two_sequence_numbers :
  (exists report a b,
      Pandas.process_month all_columns no_images 2 2024 split_invoice_ledger = Some report /\
      In a report /\ In b report /\
      Pandas.invoice_of a = Pandas.invoice_of b /\
      Pandas.For_Seq_No a = 1 /\ Pandas.For_Seq_No b = 3) /\
  (exists a b,
      nth_error (Sqlite.final_report 2 2024 shared_invoice_ledger) 0 = Some a /\
      nth_error (Sqlite.final_report 2 2024 shared_invoice_ledger) 1 = Some b /\
      txn_invoice_no (Sqlite.ledger_of (Sqlite.ranked a)) =
        txn_invoice_no (Sqlite.ledger_of (Sqlite.ranked b)) /\
      Sqlite.for_sequence_no a = 1 /\ Sqlite.for_sequence_no b = 2).
Proof.
  split.
  - eexists. eexists. eexists. split; [vm_compute; reflexivity|].
    split; [left; reflexivity|]. split; [right; right; left; reflexivity|].
    repeat split; reflexivity.
  - eexists. eexists. split; [vm_compute; reflexivity|].
    split; [vm_compute; reflexivity|]. repeat split; reflexivity.
Qed.

(** * More of the scripts *)

(** ** Quarters *)

Lemma wrap_down_spec (fuel : nat) :
  forall q y,
    q <= 4 * Z.of_nat fuel + 4 ->
    let '(q', y') := Sqlite.wrap_down fuel q y in
    4 * y' + q' = 4 * y + q /\ q' <= 4 /\ (q <= 4 -> q' = q) /\ (4 < q -> 1 <= q').
Proof.
  induction fuel as [|fuel IH]; intros q y Hq; cbn [Sqlite.wrap_down].
  - lia.
  - destruct (4 <? q) eqn:E.
    + apply Z.ltb_lt in E. specialize (IH (q - 4) (y + 1) ltac:(lia)).
      destruct (Sqlite.wrap_down fuel (q - 4) (y + 1)) as [q' y'].
      destruct IH as (H1 & H2 & H3 & H4). repeat split; lia.
    + apply Z.ltb_ge in E. lia.
Qed.

Lemma wrap_up_spec (fuel : nat) :
  forall q y,
    1 - 4 * Z.of_nat fuel <= q -> q <= 4 ->
    let '(q', y') := Sqlite.wrap_up fuel q y in
    4 * y' + q' = 4 * y + q /\ 1 <= q' <= 4.
Proof.
  induction fuel as [|fuel IH]; intros q y Hq Hq4; cbn [Sqlite.wrap_up].
  - lia.
  - destruct (q <? 1) eqn:E.
    + apply Z.ltb_lt in E. specialize (IH (q + 4) (y - 1) ltac:(lia) ltac:(lia)).
      destruct (Sqlite.wrap_up fuel (q + 4) (y - 1)) as [q' y']. lia.
    + apply Z.ltb_ge in E. lia.
Qed.

(** Whatever the month and the offset, the two loops of
    [get_quarter_info] end with a quarter between 1 and 4, and they
    trade four quarters for one year: counted in quarters, the result
    is the month's quarter moved by the offset. *)
Theorem target_quarter_wraps (month year offset : Z) :
  let '(q, y) := Sqlite.target_quarter month year offset in
  1 <= q <= 4 /\
  4 * y + q = 4 * year + ((month - 1) / 3 + 1 + offset).
Proof.
  unfold Sqlite.target_quarter.
  set (target_q := (month - 1) / 3 + 1 + offset).
  pose proof (wrap_down_spec (Z.to_nat target_q) target_q year ltac:(lia)) as Hd.
  destruct (Sqlite.wrap_down (Z.to_nat target_q) target_q year) as [q y].
  destruct Hd as (H1 & H2 & H3 & H4).
  pose proof (wrap_up_spec (Z.to_nat (1 - q)) q y ltac:(lia) H2) as Hu.
  destruct (Sqlite.wrap_up (Z.to_nat (1 - q)) q y) as [q' y']. lia.
Qed.

Lemma calendar_months (month : Z) :
  1 <= month <= 12 ->
  In month [1; 2; 3; 4; 5; 6; 7; 8; 9; 10; 11; 12].
Proof. intros H. simpl. lia. Qed.

(** For a calendar month the three versions agree on the current
    quarter, the next quarter and the year of the next quarter: the
    loops of the SQLite version, the table with the modulus of the final
    pandas version, and the conditional of the first.  The two quarters
    lie between 1 and 4 and differ. *)
Theorem quarters_agree (month year : Z) :
  1 <= month <= 12 ->
  Sqlite.target_quarter month year 0 = (Pandas.current_q month, year) /\
  Sqlite.target_quarter month year 1 =
    (Pandas.next_q month, Pandas.next_q_year month year) /\
  PandasV1.next_q month = Pandas.next_q month /\
  1 <= Pandas.current_q month <= 4 /\
  1 <= Pandas.next_q month <= 4 /\
  Pandas.next_q month <> Pandas.current_q month.
Proof.
  intros Hm. apply calendar_months in Hm.
  repeat (destruct Hm as [<-|Hm]; [vm_compute; intuition congruence|]).
  destruct Hm.
Qed.

Lemma quarters_agree_witness :
  1 <= 11 <= 12 /\
  Sqlite.get_quarter_info 11 2024 1 = ("Q1", 2025) /\
  Sqlite.target_quarter 11 2024 1 = (Pandas.next_q 11, Pandas.next_q_year 11 2024).
Proof.
  split; [lia|]. split; [reflexivity|].
  apply (quarters_agree 11 2024). lia.
Defined.

(** The table look-up of the pandas versions always gives a quarter
    between 1 and 4, also for a month outside the calendar (the default
    is 1), and the next quarter is then a different one. *)
Lemma current_q_range (month : Z) :
  In (Pandas.current_q month) [1; 2; 3; 4].
Proof.
  unfold Pandas.current_q, q_map_get.
  destruct (find (fun kv : Z * Z => fst kv =? month) q_map) as [kv|] eqn:E.
  - apply find_some in E. destruct E as [E _].
    simpl in E. simpl.
    repeat (destruct E as [<-|E]; [simpl; tauto|]). destruct E.
  - simpl. tauto.
Qed.

(** ** Decimal numerals *)

Lemma digit_digit_char (d : Z) : 0 <= d <= 9 -> Str.digit (Str.digit_char d) = Some d.
Proof.
  intros H.
  assert (E : d = 0 \/ d = 1 \/ d = 2 \/ d = 3 \/ d = 4 \/ d = 5 \/ d = 6 \/ d = 7 \/
              d = 8 \/ d = 9) by lia.
  repeat (destruct E as [->|E]; [reflexivity|]). subst. reflexivity.
Qed.

Lemma digits_decimal_fuel (f : nat) :
  forall n s a b,
    0 <= n < 10 ^ Z.of_nat (S f) ->
    exists k : nat,
      Str.digits a b (Str.decimal_fuel (S f) n s) =
      Str.digits (a * 10 ^ Z.of_nat k + n) true s.
Proof.
  assert (Hone : forall n s a b,
             0 <= n < 10 ->
             Str.digits a b (String (Str.digit_char (n mod 10)) s) =
             Str.digits (a * 10 ^ Z.of_nat 1 + n) true s).
  { intros n s a b Hn. cbn [Str.digits]. rewrite Z.mod_small by lia.
    rewrite digit_digit_char by lia. f_equal. change (10 ^ Z.of_nat 1) with 10. lia. }
  induction f as [|f IH]; intros n s a b Hn.
  - exists 1%nat. change (10 ^ Z.of_nat 1) with 10 in Hn.
    cbn [Str.decimal_fuel]. destruct (n <? 10) eqn:E; [|apply Z.ltb_ge in E; lia].
    now apply Hone.
  - remember (S f) as f'. cbn [Str.decimal_fuel]. destruct (n <? 10) eqn:E.
    + exists 1%nat. apply Z.ltb_lt in E. apply Hone. lia.
    + apply Z.ltb_ge in E. subst f'.
      assert (Hdiv : 0 <= n / 10 < 10 ^ Z.of_nat (S f)).
      { split; [apply Z.div_pos; lia|].
        apply Z.div_lt_upper_bound; [lia|].
        replace (Z.of_nat (S (S f))) with (Z.succ (Z.of_nat (S f))) in Hn by lia.
        rewrite Z.pow_succ_r in Hn by lia. lia. }
      destruct (IH (n / 10) (String (Str.digit_char (n mod 10)) s) a b Hdiv) as [k Hk].
      exists (S k). rewrite Hk. cbn [Str.digits].
      pose proof (Z.mod_pos_bound n 10 ltac:(lia)) as Hmod.
      rewrite digit_digit_char by lia.
      f_equal. replace (Z.of_nat (S k)) with (Z.succ (Z.of_nat k)) by lia.
      rewrite Z.pow_succ_r by lia.
      pose proof (Z.div_mod n 10 ltac:(lia)). lia.
Qed.

Lemma decimal_fuel_enough (n : Z) :
  0 <= n -> n < 10 ^ Z.of_nat (S (Z.to_nat (Z.log2 n))).
Proof.
  intros H. destruct (Z.eq_dec n 0) as [->|Hn]; [reflexivity|].
  pose proof (Z.log2_nonneg n) as Hl.
  pose proof (Z.log2_spec n ltac:(lia)) as [_ Hu].
  replace (Z.of_nat (S (Z.to_nat (Z.log2 n)))) with (Z.succ (Z.log2 n)) by lia.
  eapply Z.lt_le_trans; [exact Hu|].
  apply Z.pow_le_mono_l. lia.
Qed.

Lemma digits_decimal_nonneg (n : Z) (b : bool) (s : string) :
  0 <= n ->
  Str.digits 0 b (Str.decimal_fuel (S (Z.to_nat (Z.log2 n))) n s) = Str.digits n true s.
Proof.
  intros H.
  destruct (digits_decimal_fuel (Z.to_nat (Z.log2 n)) n s 0 b
              (conj H (decimal_fuel_enough n H))) as [k Hk].
  rewrite Hk. f_equal.
Qed.

Lemma every_decimal_fuel (f : nat) :
  forall n s, every is_digit s = true -> every is_digit (Str.decimal_fuel f n s) = true.
Proof.
  induction f as [|f IH]; intros n s Hs; cbn [Str.decimal_fuel]; [exact Hs|].
  assert (Hd : every is_digit (String (Str.digit_char (n mod 10)) s) = true).
  { cbn [every]. rewrite Hs, andb_true_r. unfold is_digit.
    rewrite digit_digit_char; [reflexivity|].
    pose proof (Z.mod_pos_bound n 10 ltac:(lia)). lia. }
  destruct (n <? 10); [exact Hd|]. apply IH. exact Hd.
Qed.

Lemma every_decimal_nonneg (n : Z) : every is_digit (Str.decimal_nonneg n) = true.
Proof. apply every_decimal_fuel. reflexivity. Qed.

Lemma every_impl (p q : ascii -> bool) (s : string) :
  (forall c, p c = true -> q c = true) -> every p s = true -> every q s = true.
Proof.
  intros Hpq. induction s as [|c s IH]; cbn [every]; [reflexivity|].
  rewrite !andb_true_iff. intros [Hc Hs]. auto.
Qed.

Lemma every_app (p : ascii -> bool) (s t : string) :
  every p (s ++ t) = every p s && every p t.
Proof.
  induction s as [|c s IH]; cbn [every append]; [reflexivity|].
  now rewrite IH, andb_assoc.
Qed.

Lemma every_contains (p : ascii -> bool) (c : ascii) (s : string) :
  every p s = true -> p c = false -> Str.contains c s = false.
Proof.
  intros Hs Hc. induction s as [|d s IH]; cbn [Str.contains]; [reflexivity|].
  cbn [every] in Hs. apply andb_true_iff in Hs as [Hd Hs].
  rewrite (IH Hs), orb_false_r. apply Ascii.eqb_neq. intros ->. congruence.
Qed.

Lemma digit_not_space (c : ascii) : is_digit c = true -> Str.is_space c = false.
Proof.
  unfold is_digit, Str.digit, Str.is_space.
  generalize (nat_of_ascii c) as n. intros n.
  destruct ((48 <=? n)%nat && (n <=? 57)%nat) eqn:E; [|discriminate].
  intros _. apply andb_true_iff in E as [E1 E2].
  apply Nat.leb_le in E1. apply orb_false_iff. split; apply andb_false_iff.
  - right. apply Nat.leb_gt. lia.
  - right. apply Nat.leb_gt. lia.
Qed.

Lemma lstrip_no_space (s : string) :
  every (fun c => negb (Str.is_space c)) s = true -> Str.lstrip s = s.
Proof.
  destruct s as [|c s]; cbn [every Str.lstrip]; [reflexivity|].
  intros H. apply andb_true_iff in H as [H _]. apply negb_true_iff in H. now rewrite H.
Qed.

Lemma rstrip_no_space (s : string) :
  every (fun c => negb (Str.is_space c)) s = true -> Str.rstrip s = s.
Proof.
  induction s as [|c s IH]; cbn [every Str.rstrip]; [reflexivity|].
  intros H. apply andb_true_iff in H as [Hc Hs]. apply negb_true_iff in Hc.
  rewrite (IH Hs), Hc. now destruct s.
Qed.

Lemma strip_no_space (s : string) :
  every (fun c => negb (Str.is_space c)) s = true -> Str.strip s = s.
Proof.
  intros H. unfold Str.strip. rewrite lstrip_no_space by exact H.
  now apply rstrip_no_space.
Qed.

Lemma digits_no_space (s : string) :
  every is_digit s = true -> every (fun c => negb (Str.is_space c)) s = true.
Proof.
  apply every_impl. intros c Hc. now rewrite digit_not_space.
Qed.

(** Reading a numeral that starts with a digit takes no sign. *)
Lemma int_unsigned (s : string) (z : Z) :
  every is_digit s = true -> Str.digits 0 false s = Some z -> Str.int s = Ok z.
Proof.
  intros Hall Hz. unfold Str.int.
  rewrite (strip_no_space s (digits_no_space s Hall)).
  destruct s as [|c r]; [discriminate|].
  cbn [every] in Hall. apply andb_true_iff in Hall as [Hc _].
  assert (Hplus : c <> "+"%char) by (intros ->; discriminate).
  assert (Hminus : c <> "-"%char) by (intros ->; discriminate).
  destruct c as [[] [] [] [] [] [] [] []]; try congruence; now rewrite Hz.
Qed.

Lemma int_decimal_nonneg (n : Z) : 0 <= n -> Str.int (Str.decimal_nonneg n) = Ok n.
Proof.
  intros H. apply int_unsigned; [apply every_decimal_nonneg|].
  unfold Str.decimal_nonneg. now rewrite digits_decimal_nonneg.
Qed.

Lemma digits_zeros (k : nat) (b : bool) (s : string) :
  Str.digits 0 b (Str.zeros k ++ s) = Str.digits 0 (b || negb (Nat.eqb k 0)) s.
Proof.
  revert b. induction k as [|k IH]; intros b; cbn [Str.zeros append].
  - now rewrite orb_false_r.
  - cbn [Str.digits]. change (Str.digit "0") with (Some 0).
    change (10 * 0 + 0) with 0. rewrite IH. cbn [Nat.eqb negb orb].
    now rewrite orb_true_r.
Qed.

Lemma digits_zfill (w : nat) (n : Z) :
  0 <= n -> Str.digits 0 false (Str.zfill w n) = Some n.
Proof.
  intros H. unfold Str.zfill. destruct (n <? 0) eqn:E; [apply Z.ltb_lt in E; lia|].
  rewrite digits_zeros. unfold Str.decimal_nonneg. now rewrite digits_decimal_nonneg.
Qed.

Lemma zfill_injective (w : nat) (n m : Z) :
  0 <= n -> 0 <= m -> Str.zfill w n = Str.zfill w m -> n = m.
Proof.
  intros Hn Hm E. pose proof (digits_zfill w n Hn) as H1.
  rewrite E, digits_zfill in H1 by exact Hm. congruence.
Qed.

Lemma append_cancel_r (t : string) :
  forall s1 s2, s1 ++ t = s2 ++ t -> s1 = s2.
Proof.
  assert (Hlen : forall a b, String.length (a ++ b) = (String.length a + String.length b)%nat).
  { induction a as [|c a IH]; intros b; cbn [append String.length]; [reflexivity|].
    now rewrite IH. }
  induction s1 as [|c s1 IH]; intros [|d s2] E; cbn [append] in E.
  - reflexivity.
  - apply (f_equal String.length) in E. cbn [String.length] in E.
    rewrite Hlen in E. lia.
  - apply (f_equal String.length) in E. cbn [String.length] in E.
    rewrite Hlen in E. lia.
  - injection E as -> E. f_equal. now apply IH.
Qed.

Lemma append_cancel_l (t : string) :
  forall s1 s2, t ++ s1 = t ++ s2 -> s1 = s2.
Proof.
  induction t as [|c t IH]; intros s1 s2 E; cbn [append] in E; [exact E|].
  injection E as E. now apply IH.
Qed.

(** ** Month specifications that parse *)

Lemma range_nil (a b : Z) : b <= a -> range a b = [].
Proof. intros H. unfold range. now replace (Z.to_nat (b - a)) with 0%nat by lia. Qed.

Lemma range_cons (a b : Z) : a < b -> range a b = a :: range (a + 1) b.
Proof.
  intros H. unfold range.
  replace (Z.to_nat (b - a)) with (S (Z.to_nat (b - (a + 1)))) by lia.
  cbn [seq map]. f_equal; [lia|].
  rewrite <- seq_shift, map_map. apply map_ext. intros i. lia.
Qed.

Lemma range_In (a b x : Z) : In x (range a b) <-> a <= x < b.
Proof.
  unfold range. rewrite in_map_iff. split.
  - intros (i & <- & Hi). apply in_seq in Hi. lia.
  - intros H. exists (Z.to_nat (x - a)). split; [lia|]. apply in_seq. lia.
Qed.

Lemma range_clamped (n : nat) :
  forall a b,
    Z.to_nat (b + 1 - a) = n ->
    filter in_calendar (range a (b + 1)) = range (Z.max a 1) (Z.min b 12 + 1).
Proof.
  induction n as [|n IH]; intros a b Hn.
  - rewrite (range_nil a) by lia. rewrite range_nil by lia. reflexivity.
  - rewrite (range_cons a) by lia. cbn [filter]. unfold in_calendar at 1.
    rewrite (IH (a + 1) b) by lia.
    destruct (1 <=? a) eqn:E1; cbn [andb].
    + apply Z.leb_le in E1. destruct (a <=? 12) eqn:E2.
      * apply Z.leb_le in E2. rewrite (range_cons (Z.max a 1)) by lia.
        f_equal; [lia|]. f_equal. lia.
      * apply Z.leb_gt in E2. rewrite !range_nil by lia. reflexivity.
    + apply Z.leb_gt in E1. f_equal. lia.
Qed.

Lemma range_sorted (n : nat) :
  forall a b, Z.to_nat (b - a) = n -> StronglySorted Z.le (range a b).
Proof.
  induction n as [|n IH]; intros a b Hn.
  - rewrite range_nil by lia. constructor.
  - rewrite range_cons by lia. constructor; [apply IH; lia|].
    apply Forall_forall. intros x Hx. apply range_In in Hx. lia.
Qed.

Lemma sorted_fixpoint (l : list Z) : StronglySorted Z.le l -> sorted l = l.
Proof.
  unfold sorted, stable_sort. induction 1 as [|x l Hl IH Hx]; cbn [fold_right]; [reflexivity|].
  rewrite IH. destruct l as [|y l]; cbn [insert_sorted]; [reflexivity|].
  inversion Hx as [|? ? Hxy _]; subst. apply Z.leb_le in Hxy. now rewrite Hxy.
Qed.

Lemma contains_app (c : ascii) (s t : string) :
  Str.contains c (s ++ t) = Str.contains c s || Str.contains c t.
Proof.
  induction s as [|d s IH]; cbn [append Str.contains]; [reflexivity|].
  now rewrite IH, orb_assoc.
Qed.

Lemma split_none (sep : ascii) (s : string) :
  Str.contains sep s = false -> Str.split sep s = [s].
Proof.
  induction s as [|c s IH]; cbn [Str.contains Str.split]; [reflexivity|].
  intros H. apply orb_false_iff in H as [Hc Hs]. rewrite Hc, (IH Hs). reflexivity.
Qed.

Lemma split_app (sep : ascii) (s t : string) :
  Str.contains sep s = false ->
  Str.split sep (s ++ String sep t) = s :: Str.split sep t.
Proof.
  induction s as [|c s IH]; cbn [append Str.contains Str.split].
  - intros _. now rewrite Ascii.eqb_refl.
  - intros H. apply orb_false_iff in H as [Hc Hs]. rewrite Hc, (IH Hs). reflexivity.
Qed.

Lemma decimal_nonneg_clean (n : Z) (c : ascii) :
  is_digit c = false -> Str.contains c (Str.decimal_nonneg n) = false.
Proof. apply every_contains, every_decimal_nonneg. Qed.

Lemma decimal_of_nonneg (n : Z) : 0 <= n -> Str.decimal n = Str.decimal_nonneg n.
Proof.
  intros H. unfold Str.decimal. destruct (n <? 0) eqn:E; [apply Z.ltb_lt in E; lia|].
  reflexivity.
Qed.

Lemma decimal_nonneg_nonempty (n : Z) :
  0 <= n -> exists c r, Str.decimal_nonneg n = String c r /\ is_digit c = true.
Proof.
  intros H. pose proof (every_decimal_nonneg n) as He.
  pose proof (digits_decimal_nonneg n false EmptyString H) as Hd.
  fold (Str.decimal_nonneg n) in Hd.
  destruct (Str.decimal_nonneg n) as [|c r]; [discriminate|].
  cbn [every] in He. apply andb_true_iff in He as [Hc _]. now exists c, r.
Qed.

Lemma rstrip_app (s t : string) :
  t <> EmptyString -> Str.rstrip t = t -> Str.rstrip (s ++ t) = s ++ t.
Proof.
  intros Hne Ht. induction s as [|c s IH]; cbn [append Str.rstrip]; [exact Ht|].
  rewrite IH. destruct (s ++ t) eqn:E; [|reflexivity].
  destruct s; cbn [append] in E; [contradiction|discriminate].
Qed.

Lemma lstrip_digit (n : Z) (t : string) :
  0 <= n -> Str.lstrip (Str.decimal_nonneg n ++ t) = Str.decimal_nonneg n ++ t.
Proof.
  intros H. destruct (decimal_nonneg_nonempty n H) as (c & r & -> & Hc).
  cbn [append Str.lstrip]. now rewrite (digit_not_space c Hc).
Qed.

Lemma rstrip_digit (n : Z) (s : string) :
  0 <= n -> Str.rstrip (s ++ Str.decimal_nonneg n) = s ++ Str.decimal_nonneg n.
Proof.
  intros H. apply rstrip_app.
  - destruct (decimal_nonneg_nonempty n H) as (c & r & -> & _). discriminate.
  - apply rstrip_no_space, digits_no_space, every_decimal_nonneg.
Qed.

Lemma string_append_assoc (a b c : string) : (a ++ b) ++ c = a ++ (b ++ c).
Proof.
  induction a as [|x a IH]; cbn [append]; [reflexivity|]. now rewrite IH.
Qed.

Lemma strip_between_digits (n m : Z) (s : string) :
  0 <= n -> 0 <= m ->
  Str.strip (Str.decimal_nonneg n ++ s ++ Str.decimal_nonneg m) =
  Str.decimal_nonneg n ++ s ++ Str.decimal_nonneg m.
Proof.
  intros Hn Hm. unfold Str.strip. rewrite lstrip_digit by exact Hn.
  rewrite <- (string_append_assoc (Str.decimal_nonneg n) s).
  now apply rstrip_digit.
Qed.

Lemma sorted_singleton (n : Z) : sorted (filter in_calendar [n]) = filter in_calendar [n].
Proof. cbn [filter]. now destruct (in_calendar n). Qed.

(** A single non-negative number is read as that month: every
    version returns the one-element list when the number is a calendar
    month and the empty list when it is not (there is no fallback to
    month 1 for a number that parses). *)
Theorem parse_months_single_number (v : version) (n : Z) :
  0 <= n ->
  parse_months v (Str.decimal n) = Ok (if in_calendar n then [n] else []).
Proof.
  intros H. rewrite decimal_of_nonneg by exact H.
  pose proof (decimal_nonneg_clean n "-" eq_refl) as Hdash.
  pose proof (decimal_nonneg_clean n "," eq_refl) as Hcomma.
  pose proof (strip_no_space _ (digits_no_space _ (every_decimal_nonneg n))) as Hstrip.
  pose proof (int_decimal_nonneg n H) as Hint.
  assert (Hone : sorted (filter in_calendar [n]) = if in_calendar n then [n] else []).
  { rewrite sorted_singleton. cbn [filter]. reflexivity. }
  destruct v;
    cbn [parse_months];
    unfold Sqlite_months.parse_months, PandasV1_months.parse_months,
           Pandas_months.parse_months,
           Sqlite_months.try_block, PandasV1_months.try_block, Pandas_months.try_block;
    rewrite ?Hstrip, Hdash, Hcomma, ?Hstrip, Hint;
    cbn [bind except_ValueError]; rewrite ?Hone; reflexivity.
Qed.

Lemma parse_months_single_number_witness :
  0 <= 13 /\ parse_months PandasFinal (Str.decimal 13) = Ok (if in_calendar 13 then [13] else []).
Proof. split; [lia|]. apply (parse_months_single_number PandasFinal 13). lia. Defined.

(** A range written as two non-negative numbers around a dash is
    clamped to the calendar: every version returns the months from
    max(a, 1) to min(b, 12) in ascending order, which is the empty list
    when the bounds are the wrong way round or outside the calendar. *)
Theorem parse_months_range_clamped (v : version) (a b : Z) :
  0 <= a -> 0 <= b ->
  parse_months v (Str.decimal a ++ "-" ++ Str.decimal b) =
  Ok (range (Z.max a 1) (Z.min b 12 + 1)).
Proof.
  intros Ha Hb. rewrite !decimal_of_nonneg by assumption.
  set (da := Str.decimal_nonneg a). set (db := Str.decimal_nonneg b).
  assert (Hstrip : Str.strip (da ++ "-" ++ db) = da ++ "-" ++ db)
    by now apply strip_between_digits.
  assert (Hdash : Str.contains "-" (da ++ "-" ++ db) = true).
  { rewrite contains_app. cbn [append Str.contains]. rewrite Ascii.eqb_refl.
    now rewrite orb_true_r. }
  assert (Hsplit : Str.split "-" (da ++ "-" ++ db) = [da; db]).
  { change (da ++ "-" ++ db) with (da ++ String "-" db).
    rewrite split_app by (apply decimal_nonneg_clean; reflexivity).
    rewrite split_none by (apply decimal_nonneg_clean; reflexivity). reflexivity. }
  pose proof (int_decimal_nonneg a Ha) as Hia. fold da in Hia.
  pose proof (int_decimal_nonneg b Hb) as Hib. fold db in Hib.
  pose proof (range_clamped _ a b eq_refl) as Hclamp.
  assert (Hsorted : sorted (range (Z.max a 1) (Z.min b 12 + 1)) =
                    range (Z.max a 1) (Z.min b 12 + 1)).
  { apply sorted_fixpoint. now apply (range_sorted _ _ _ eq_refl). }
  destruct v;
    cbn [parse_months];
    unfold Sqlite_months.parse_months, PandasV1_months.parse_months,
           Pandas_months.parse_months,
           Sqlite_months.try_block, PandasV1_months.try_block, Pandas_months.try_block,
           Sqlite_months.unpack_two;
    rewrite ?Hstrip, Hdash, Hsplit, Hia, Hib;
    cbn [bind except_ValueError fst snd]; rewrite Hclamp, ?Hsorted; reflexivity.
Qed.

Lemma parse_months_range_clamped_witness :
  0 <= 10 /\ 0 <= 15 /\ parse_months SqliteVersion (Str.decimal 10 ++ "-" ++ Str.decimal 15) = Ok [10; 11; 12].
Proof.
  split; [lia|]. split; [lia|].
  apply (parse_months_range_clamped SqliteVersion 10 15); lia.
Defined.

Lemma every_join (p : ascii -> bool) (sep : string) (l : list string) :
  every p sep = true -> Forall (fun w => every p w = true) l ->
  every p (Str.join sep l) = true.
Proof.
  intros Hsep. induction 1 as [|w l Hw Hl IH]; cbn [Str.join]; [reflexivity|].
  destruct l as [|w' l]; [exact Hw|].
  rewrite !every_app, Hw, Hsep. exact IH.
Qed.

Lemma split_prefix (sep : ascii) (p x : string) :
  Str.contains sep p = false ->
  Str.split sep (p ++ x) = (p ++ hd EmptyString (Str.split sep x)) :: tl (Str.split sep x).
Proof.
  assert (Hne : forall y, Str.split sep y <> []).
  { induction y as [|c y IH]; cbn [Str.split]; [discriminate|].
    destruct (Ascii.eqb c sep); [discriminate|].
    destruct (Str.split sep y); [contradiction|discriminate]. }
  induction p as [|c p IH]; cbn [append Str.contains].
  - intros _. pose proof (Hne x). now destruct (Str.split sep x).
  - intros H. apply orb_false_iff in H as [Hc Hp]. cbn [Str.split].
    rewrite Hc, (IH Hp). reflexivity.
Qed.

Lemma split_join (pad : string) (l : list string) :
  Str.contains "," pad = false ->
  Forall (fun w => Str.contains "," w = false) l ->
  l <> [] ->
  Str.split "," (Str.join ("," ++ pad) l) = hd EmptyString l :: map (append pad) (tl l).
Proof.
  intros Hpad. induction 1 as [|w l Hw Hl IH]; intros Hne; [contradiction|].
  cbn [Str.join hd tl]. destruct l as [|w' l].
  - now rewrite split_none.
  - change (w ++ ("," ++ pad) ++ Str.join ("," ++ pad) (w' :: l))
      with (w ++ String "," (pad ++ Str.join ("," ++ pad) (w' :: l))).
    rewrite split_app by exact Hw. f_equal.
    rewrite split_prefix by exact Hpad. rewrite IH by discriminate. reflexivity.
Qed.

Lemma lstrip_spaces (pad s : string) :
  every Str.is_space pad = true -> Str.lstrip (pad ++ s) = Str.lstrip s.
Proof.
  induction pad as [|c pad IH]; cbn [every append]; [reflexivity|].
  intros H. apply andb_true_iff in H as [Hc Hp]. cbn [Str.lstrip]. rewrite Hc. auto.
Qed.

Lemma int_strip_padded (pad : string) (n : Z) :
  every Str.is_space pad = true -> 0 <= n ->
  Str.int (Str.strip (pad ++ Str.decimal_nonneg n)) = Ok n.
Proof.
  intros Hpad Hn.
  pose proof (strip_no_space _ (digits_no_space _ (every_decimal_nonneg n))) as Hs.
  unfold Str.strip in *. rewrite lstrip_spaces by exact Hpad.
  rewrite Hs. now apply int_decimal_nonneg.
Qed.

Lemma map_res_padded (pad : string) (ns : list Z) :
  every Str.is_space pad = true -> Forall (fun n => 0 <= n) ns ->
  map_res (fun m => Str.int (Str.strip m)) (map (append pad) (map Str.decimal_nonneg ns))
  = Ok ns.
Proof.
  intros Hpad. induction 1 as [|n ns Hn Hns IH]; cbn [map map_res]; [reflexivity|].
  rewrite int_strip_padded by assumption. cbn [bind]. rewrite IH. reflexivity.
Qed.

Lemma join_ends_with_digits (sep : string) (ns : list Z) :
  ns <> [] ->
  exists s n, In n ns /\
    Str.join sep (map Str.decimal_nonneg ns) = s ++ Str.decimal_nonneg n.
Proof.
  induction ns as [|n ns IH]; intros Hne; [contradiction|].
  destruct ns as [|m ns].
  - exists EmptyString, n. split; [now left|reflexivity].
  - destruct (IH ltac:(discriminate)) as (s & k & Hk & E).
    exists (Str.decimal_nonneg n ++ sep ++ s), k. split; [now right|].
    cbn [map Str.join] in *. rewrite E. now rewrite !string_append_assoc.
Qed.

Lemma map_decimal_nonneg (ns : list Z) :
  Forall (fun n => 0 <= n) ns -> map Str.decimal ns = map Str.decimal_nonneg ns.
Proof.
  induction 1 as [|n ns Hn Hns IH]; cbn [map]; [reflexivity|].
  now rewrite decimal_of_nonneg, IH.
Qed.

(** A list of two or more non-negative numbers separated by commas,
    with or without blanks after the commas, is read item by item:
    every version keeps the calendar months among them, repeated numbers
    included; the pandas versions sort them, the SQLite version leaves
    them in the order written. *)
Theorem parse_months_comma_list (v : version) (pad : string) (ns : list Z) :
  every Str.is_space pad = true ->
  (2 <= List.length ns)%nat ->
  Forall (fun n => 0 <= n) ns ->
  parse_months v (Str.join ("," ++ pad) (map Str.decimal ns)) =
  Ok (match v with
      | SqliteVersion => filter in_calendar ns
      | _ => sorted (filter in_calendar ns)
      end).
Proof.
  intros Hpad Hlen Hns. rewrite map_decimal_nonneg by exact Hns.
  set (input := Str.join ("," ++ pad) (map Str.decimal_nonneg ns)).
  destruct ns as [|n1 [|n2 ns]]; cbn [List.length] in Hlen; try lia.
  assert (Hn1 : 0 <= n1) by now inversion Hns.
  set (allowed := fun c => is_digit c || Ascii.eqb c "," || Str.is_space c).
  assert (Hall : every allowed input = true).
  { apply every_join.
    - cbn [append every]. unfold allowed at 1. cbn.
      eapply every_impl; [|exact Hpad]. intros c Hc. unfold allowed.
      now rewrite Hc, orb_true_r.
    - apply Forall_forall. intros w Hw. apply in_map_iff in Hw as (n & <- & _).
      eapply every_impl; [|apply every_decimal_nonneg]. intros c Hc. unfold allowed.
      now rewrite Hc. }
  assert (Hdash : Str.contains "-" input = false)
    by (apply (every_contains allowed); [exact Hall|reflexivity]).
  assert (Hcomma : Str.contains "," input = true).
  { unfold input. cbn [map Str.join]. rewrite contains_app. cbn [append Str.contains].
    rewrite Ascii.eqb_refl. now rewrite orb_true_r. }
  assert (Hpadc : Str.contains "," pad = false).
  { apply (every_contains Str.is_space); [exact Hpad|reflexivity]. }
  assert (Hsplit : Str.split "," input =
                   Str.decimal_nonneg n1 ::
                   map (append pad) (map Str.decimal_nonneg (n2 :: ns))).
  { unfold input. rewrite split_join; [reflexivity|exact Hpadc| |discriminate].
    apply Forall_forall. intros w Hw. apply in_map_iff in Hw as (n & <- & _).
    apply decimal_nonneg_clean. reflexivity. }
  assert (Hitems : map_res (fun m => Str.int (Str.strip m)) (Str.split "," input)
                   = Ok (n1 :: n2 :: ns)).
  { rewrite Hsplit. cbn [map_res].
    pose proof (int_strip_padded EmptyString n1 eq_refl Hn1) as H1.
    cbn [append] in H1. rewrite H1. cbn [bind].
    inversion Hns as [|? ? _ Hrest]; subst.
    pose proof (map_res_padded pad (n2 :: ns) Hpad Hrest) as Hm.
    rewrite Hm. reflexivity. }
  assert (Hstrip : Str.strip input = input).
  { unfold Str.strip.
    assert (Hl : Str.lstrip input = input).
    { unfold input. cbn [map Str.join]. now apply lstrip_digit. }
    rewrite Hl.
    destruct (join_ends_with_digits ("," ++ pad) (n1 :: n2 :: ns) ltac:(discriminate))
      as (s & k & Hk & E).
    unfold input. rewrite E. apply rstrip_digit.
    rewrite Forall_forall in Hns. now apply Hns. }
  destruct v;
    cbn [parse_months];
    unfold Sqlite_months.parse_months, PandasV1_months.parse_months,
           Pandas_months.parse_months,
           Sqlite_months.try_block, PandasV1_months.try_block, Pandas_months.try_block;
    rewrite ?Hstrip, Hdash, Hcomma, Hitems; reflexivity.
Qed.

Lemma parse_months_comma_list_witness :
  every Str.is_space " " = true /\
  (2 <= List.length [6; 1; 13; 6])%nat /\
  Forall (fun n => 0 <= n) [6; 1; 13; 6] /\
  Str.join ", " (map Str.decimal [6; 1; 13; 6]) = "6, 1, 13, 6" /\
  parse_months PandasFinal "6, 1, 13, 6" = Ok [1; 6; 6] /\
  parse_months SqliteVersion "6, 1, 13, 6" = Ok [6; 1; 6].
Proof.
  assert (Hpad : every Str.is_space " " = true) by reflexivity.
  assert (Hlen : (2 <= List.length [6; 1; 13; 6])%nat) by (simpl; lia).
  assert (Hns : Forall (fun n => 0 <= n) [6; 1; 13; 6]) by (repeat constructor; lia).
  split; [exact Hpad|]. split; [exact Hlen|]. split; [exact Hns|].
  split; [reflexivity|]. split.
  - exact (parse_months_comma_list PandasFinal " " [6; 1; 13; 6] Hpad Hlen Hns).
  - exact (parse_months_comma_list SqliteVersion " " [6; 1; 13; 6] Hpad Hlen Hns).
Defined.

(** ** File names of the pandas report *)

Lemma cumsum_changes_ge (invs : list string) :
  forall prev count i c,
    nth_error (Pandas.cumsum_changes prev count invs) i = Some c -> count <= c.
Proof.
  induction invs as [|x invs IH]; intros prev count i c H.
  - destruct i; discriminate.
  - destruct i as [|i]; cbn [Pandas.cumsum_changes nth_error] in H.
    + injection H as <-. destruct (Pandas.changed prev x); lia.
    + apply IH in H.
      match type of H with context [if ?c then _ else _] => destruct c end; lia.
Qed.

Lemma first_row_counts (invs : list string) :
  forall seen p count j cj,
    In p seen ->
    nth_error (Pandas.cumsum_changes (Some p) count invs) j = Some cj ->
    nth_error (Pandas.not_duplicated seen invs) j = Some true ->
    count < cj.
Proof.
  induction invs as [|x invs IH]; intros seen p count j cj Hp Hc Hf.
  - destruct j; discriminate.
  - destruct j as [|j]; cbn [Pandas.cumsum_changes Pandas.not_duplicated nth_error] in Hc, Hf.
    + injection Hc as <-. injection Hf as Hf. apply negb_true_iff in Hf.
      assert (Hne : String.eqb x p = false).
      { destruct (String.eqb x p) eqn:E; [|reflexivity].
        apply String.eqb_eq in E. subst x.
        assert (existsb (String.eqb p) seen = true); [|congruence].
        apply existsb_exists. exists p. split; [exact Hp|apply String.eqb_refl]. }
      cbn [Pandas.changed]. rewrite Hne. cbn [negb]. lia.
    + apply (IH (x :: seen) x) in Hc; [|now left|exact Hf].
      match type of Hc with context [if ?c then _ else _] => destruct c end; lia.
Qed.

Lemma first_rows_increase (invs : list string) :
  forall seen prev count i j ci cj,
    (forall p, prev = Some p -> In p seen) ->
    (i < j)%nat ->
    nth_error (Pandas.cumsum_changes prev count invs) i = Some ci ->
    nth_error (Pandas.cumsum_changes prev count invs) j = Some cj ->
    nth_error (Pandas.not_duplicated seen invs) j = Some true ->
    ci < cj.
Proof.
  induction invs as [|x invs IH]; intros seen prev count i j ci cj Hprev Hij Hi Hj Hf.
  - destruct i; discriminate.
  - destruct j as [|j]; [lia|].
    cbn [Pandas.cumsum_changes Pandas.not_duplicated nth_error] in Hj, Hf.
    destruct i as [|i]; cbn [Pandas.cumsum_changes nth_error] in Hi.
    + injection Hi as <-. eapply first_row_counts; [|exact Hj|exact Hf]. now left.
    + eapply (IH (x :: seen) (Some x) _ i j); [|lia|exact Hi|exact Hj|exact Hf].
      intros p [= <-]. now left.
Qed.

Lemma nth_error_range (a b : Z) (i : nat) (x : Z) :
  nth_error (range a b) i = Some x -> x = a + Z.of_nat i.
Proof.
  unfold range. rewrite nth_error_map.
  destruct (nth_error (seq 0 (Z.to_nat (b - a))) i) as [k|] eqn:E; [|discriminate].
  intros [= <-].
  assert (Hi : (i < List.length (seq 0 (Z.to_nat (b - a))))%nat)
    by (apply nth_error_Some; congruence).
  rewrite nth_error_nth' with (d := 0%nat) in E by exact Hi.
  rewrite length_seq in Hi. rewrite seq_nth in E by exact Hi. injection E as <-. lia.
Qed.

Section EnrichAny.
Variables (cols : columns) (ir : ir_table) (month year : Z).
Variable df_filtered : list Pandas.frame_row.

Let out : list Pandas.report_row := Pandas.enrich cols ir month year df_filtered.
Let invs : list string := map (fun r => txn_invoice_no (Pandas.tx r)) df_filtered.

Lemma enrich_lengths :
  List.length (if has_invoice cols then Pandas.not_duplicated [] invs
               else map (fun _ => true) df_filtered) = List.length df_filtered /\
  List.length (if has_invoice cols then Pandas.cumsum_changes None 0 invs
               else range 1 (Z.of_nat (List.length df_filtered) + 1))
  = List.length df_filtered.
Proof.
  unfold invs. destruct (has_invoice cols);
    rewrite ?length_not_duplicated, ?length_cumsum_changes, ?length_map,
      ?length_range_from_1; auto.
Qed.

Lemma enrich_first_rows_any :
  map Pandas.is_first_row out =
  if has_invoice cols then Pandas.not_duplicated [] invs
  else map (fun _ => true) df_filtered.
Proof.
  destruct enrich_lengths as [H1 H2].
  unfold out, Pandas.enrich. fold invs. rewrite map_map.
  rewrite (map_ext _ (fun x => fst (snd x))) by (intros [r [first k]]; reflexivity).
  rewrite <- (map_map snd fst), map_snd_combine, map_fst_combine; auto.
  - congruence.
  - rewrite length_combine. rewrite H1, H2. lia.
Qed.

Lemma enrich_seq_nos_any :
  map Pandas.For_Seq_No out =
  if has_invoice cols then Pandas.cumsum_changes None 0 invs
  else range 1 (Z.of_nat (List.length df_filtered) + 1).
Proof.
  destruct enrich_lengths as [H1 H2].
  unfold out, Pandas.enrich. fold invs. rewrite map_map.
  rewrite (map_ext _ (fun x => snd (snd x))) by (intros [r [first k]]; reflexivity).
  rewrite <- (map_map snd snd), !map_snd_combine; auto.
  - congruence.
  - rewrite length_combine. rewrite H1, H2. lia.
Qed.

(** Down the report, the sequence number of a first row is larger
    than every sequence number above it, and no number is below 1. *)
Lemma enrich_first_rows_increase (i j : nat) (a b : Pandas.report_row) :
  (i < j)%nat ->
  nth_error out i = Some a ->
  nth_error out j = Some b ->
  Pandas.is_first_row b = true ->
  1 <= Pandas.For_Seq_No a < Pandas.For_Seq_No b.
Proof.
  intros Hij Ha Hb Hfirst.
  pose proof (nth_error_map_Some Pandas.For_Seq_No _ _ _ Ha) as Hsa.
  pose proof (nth_error_map_Some Pandas.For_Seq_No _ _ _ Hb) as Hsb.
  pose proof (nth_error_map_Some Pandas.is_first_row _ _ _ Hb) as Hfb.
  rewrite enrich_seq_nos_any in Hsa, Hsb. rewrite enrich_first_rows_any in Hfb.
  rewrite Hfirst in Hfb. destruct (has_invoice cols).
  - split.
    + apply cumsum_changes_ge in Hsa as Hge.
      destruct invs as [|x l]; [destruct i; discriminate|].
      destruct i as [|i]; cbn [Pandas.cumsum_changes nth_error Pandas.changed] in Hsa.
      * injection Hsa as <-. lia.
      * apply cumsum_changes_ge in Hsa. lia.
    + eapply (first_rows_increase invs [] None 0 i j); eauto. discriminate.
  - apply nth_error_range in Hsa, Hsb. lia.
Qed.

End EnrichAny.

Lemma tax_comm_filename_injective (month year : Z) (n m : Z) :
  0 <= n -> 0 <= m ->
  Pandas.tax_comm_filename month year (Pandas.seq_no_pad n) =
  Pandas.tax_comm_filename month year (Pandas.seq_no_pad m) ->
  n = m.
Proof.
  intros Hn Hm E. unfold Pandas.tax_comm_filename in E.
  apply append_cancel_l, append_cancel_l, append_cancel_l, append_cancel_l in E.
  apply append_cancel_r in E. now apply (zfill_injective 3).
Qed.

(** No two rows of a month's report carry the same tax-commission
    file name: the rows that carry one are the first rows, and down the
    report each first row has a sequence number larger than all numbers
    above it, whatever columns the ledger has and however many rows
    there are. *)
Theorem tax_comm_file_names_distinct
        (cols : columns) (ir : ir_table) (month year : Z) (df_jib : list txn)
        (report : list Pandas.report_row) (i j : nat) (a b : Pandas.report_row)
        (f : string) :
  Pandas.process_month cols ir month year df_jib = Some report ->
  nth_error report i = Some a ->
  nth_error report j = Some b ->
  Pandas.Tax_Comm_Image a = VStr f ->
  Pandas.Tax_Comm_Image b = VStr f ->
  i = j.
Proof.
  intros Hreport Ha Hb Hfa Hfb.
  destruct (process_month_source _ _ _ _ _ _ Hreport) as (out & _ & -> & _).
  assert (Hname : forall k o,
             nth_error (Pandas.enrich cols ir month year out) k = Some o ->
             Pandas.Tax_Comm_Image o = VStr f ->
             Pandas.is_first_row o = true /\
             f = Pandas.tax_comm_filename month year
                   (Pandas.seq_no_pad (Pandas.For_Seq_No o))).
  { intros k o Ho Hf. apply nth_error_In in Ho.
    destruct (enrich_row _ _ _ _ _ _ Ho) as (Hpad & _ & _ & Himg).
    rewrite Himg, Hpad in Hf. unfold Pandas.build_tax_comm_filename in Hf.
    destruct (Pandas.is_first_row o); cbn [negb] in Hf; [|discriminate].
    injection Hf as <-. auto. }
  destruct (Hname _ _ Ha Hfa) as [Hfirst_a Hna].
  destruct (Hname _ _ Hb Hfb) as [Hfirst_b Hnb].
  destruct (Nat.lt_trichotomy i j) as [Hlt|[Heq|Hgt]]; [|exact Heq|].
  - pose proof (enrich_first_rows_increase _ _ _ _ _ _ _ _ _ Hlt Ha Hb Hfirst_b) as Hinc.
    rewrite Hna in Hnb. apply tax_comm_filename_injective in Hnb; lia.
  - pose proof (enrich_first_rows_increase _ _ _ _ _ _ _ _ _ Hgt Hb Ha Hfirst_a) as Hinc.
    rewrite Hna in Hnb. apply tax_comm_filename_injective in Hnb; lia.
Qed.

Lemma tax_comm_file_names_distinct_witness :
  exists report a,
    Pandas.process_month all_columns no_images 2 2024 split_invoice_ledger = Some report /\
    nth_error report 0 = Some a /\
    Pandas.Tax_Comm_Image a = VStr "S202402-001.pdf" /\
    0%nat = 0%nat.
Proof.
  eexists. eexists.
  assert (H1 : Pandas.process_month all_columns no_images 2 2024 split_invoice_ledger
               = Some (Pandas.enrich all_columns no_images 2 2024
                         (match Pandas.filter_month all_columns 2 2024 split_invoice_ledger
                          with Some l => l | None => [] end))) by (vm_compute; reflexivity).
  split; [exact H1|].
  assert (H2 : nth_error (Pandas.enrich all_columns no_images 2 2024
                         (match Pandas.filter_month all_columns 2 2024 split_invoice_ledger
                          with Some l => l | None => [] end)) 0
               = Some (nth 0 (Pandas.enrich all_columns no_images 2 2024
                         (match Pandas.filter_month all_columns 2 2024 split_invoice_ledger
                          with Some l => l | None => [] end))
                         (Pandas.mk_report_row 0 EmptyString
                            (Pandas.mk_frame_row maryboy_1200 0) false [] [] (VInt 0))))
    by (vm_compute; reflexivity).
  split; [exact H2|].
  assert (H3 : Pandas.Tax_Comm_Image
                 (nth 0 (Pandas.enrich all_columns no_images 2 2024
                         (match Pandas.filter_month all_columns 2 2024 split_invoice_ledger
                          with Some l => l | None => [] end))
                         (Pandas.mk_report_row 0 EmptyString
                            (Pandas.mk_frame_row maryboy_1200 0) false [] [] (VInt 0)))
               = VStr "S202402-001.pdf") by (vm_compute; reflexivity).
  split; [exact H3|].
  exact (tax_comm_file_names_distinct _ _ _ _ _ _ 0%nat 0%nat _ _ _ H1 H2 H2 H3 H3).
Defined.

(** ** Link columns *)

Lemma map_fst_link_columns (month year : Z) (first : bool) (imgs : list (option string)) :
  forall idx,
    map fst (Pandas.link_columns month year first idx imgs) =
    flat_map (link_labels month) (seq idx (List.length imgs)).
Proof.
  induction imgs as [|img imgs IH]; intros idx; [reflexivity|].
  cbn [Pandas.link_columns List.length seq flat_map]. rewrite map_app, IH. reflexivity.
Qed.

Lemma length_link_columns (month year : Z) (first : bool) (imgs : list (option string)) :
  forall idx,
    List.length (Pandas.link_columns month year first idx imgs) = (4 * List.length imgs)%nat.
Proof.
  induction imgs as [|img imgs IH]; intros idx; [reflexivity|].
  cbn [Pandas.link_columns]. rewrite length_app, IH. cbn [List.length map Pandas.paths]. lia.
Qed.

Lemma length_merged_images (cols : columns) (ir : ir_table) (r : Pandas.frame_row) :
  (List.length (Pandas.merged_images cols ir r) <= 4)%nat.
Proof.
  unfold Pandas.merged_images. destruct (Pandas.merge_happens cols ir); [|simpl; lia].
  rewrite length_map, length_seq. lia.
Qed.

Lemma link_labels_NoDup (month : Z) (n : nat) :
  (n <= 4)%nat -> NoDup (flat_map (link_labels month) (seq 1 n)).
Proof.
  intros Hn.
  assert (Hq : In (Pandas.current_q month) [1; 2; 3; 4]).
  { unfold Pandas.current_q, q_map_get.
    destruct (find (fun kv : Z * Z => fst kv =? month) q_map) as [kv|] eqn:E.
    - apply find_some in E. destruct E as [E _]. simpl in E. simpl.
      repeat (destruct E as [<-|E]; [simpl; tauto|]). destruct E.
    - simpl. tauto. }
  assert (Hcheck : forall l : list string, nodup string_dec l = l -> NoDup l).
  { intros l <-. apply NoDup_nodup. }
  assert (Hcases : (n = 0 \/ n = 1 \/ n = 2 \/ n = 3 \/ n = 4)%nat) by lia.
  unfold link_labels, Pandas.next_q.
  simpl in Hq.
  destruct Hq as [ <- | [ <- | [ <- | [ <- | [] ] ] ] ];
    destruct Hcases as [ -> | [ -> | [ -> | [ -> | -> ] ] ] ];
    apply Hcheck; vm_compute; reflexivity.
Qed.

(** In every row of a month's report the link columns have pairwise
    different labels, four for each image column and at most sixteen in
    all: the two quarters of the labels differ for every month, so no
    link column overwrites another. *)
Theorem link_labels_distinct
        (cols : columns) (ir : ir_table) (month year : Z) (df_jib : list txn)
        (report : list Pandas.report_row) (o : Pandas.report_row) :
  Pandas.process_month cols ir month year df_jib = Some report ->
  In o report ->
  NoDup (map fst (Pandas.links o)) /\
  List.length (Pandas.links o) = (4 * List.length (Pandas.images o))%nat /\
  (List.length (Pandas.images o) <= 4)%nat.
Proof.
  intros Hreport Ho.
  destruct (process_month_source _ _ _ _ _ _ Hreport) as (out & _ & -> & _).
  destruct (enrich_row _ _ _ _ _ _ Ho) as (_ & Himgs & Hlinks & _).
  assert (Hlen : (List.length (Pandas.images o) <= 4)%nat)
    by (rewrite Himgs; apply length_merged_images).
  rewrite Hlinks, map_fst_link_columns, length_link_columns.
  split; [now apply link_labels_NoDup|]. split; [reflexivity|exact Hlen].
Qed.

Lemma first_image_found (rows : list ir_row) (inv : string) (j : nat) (v : string) :
  Pandas.first_image rows inv j = Some v ->
  exists r, In r rows /\ invoice_no r = inv /\ nth j (related_file r) None = Some v.
Proof.
  unfold Pandas.first_image.
  destruct (filter notna _) as [|x l] eqn:E; [discriminate|].
  intros ->.
  assert (Hin : In (Some v) (filter notna
                   (map (fun r => nth j (related_file r) None)
                        (filter (fun r => String.eqb (invoice_no r) inv) rows))))
    by (rewrite E; now left).
  apply filter_In in Hin as [Hin _]. apply in_map_iff in Hin as (r & Hr & Hin).
  apply filter_In in Hin as [Hin Heq]. apply String.eqb_eq in Heq.
  now exists r.
Qed.

(** A link cell of a month's report holds either the number 0 or a
    hyperlink, and a hyperlink stands on a first row only and points to
    an image the reference file records for that row's own invoice
    number: the target is one of the four folders of the month followed
    by the image name with the blanks around it removed, and the same
    name is the text of the link.  So an invoice the reference file does
    not list has 0 in every link column. *)
Theorem links_point_to_reference_images
        (cols : columns) (ir : ir_table) (month year : Z) (df_jib : list txn)
        (report : list Pandas.report_row) (o : Pandas.report_row)
        (lbl : string) (v : value) :
  Pandas.process_month cols ir month year df_jib = Some report ->
  In o report ->
  In (lbl, v) (Pandas.links o) ->
  v = VInt 0 \/
  (Pandas.is_first_row o = true /\
   exists (j : nat) (img : string) (p : string * Z * string) (r : ir_row),
     In p (Pandas.paths month year) /\
     In r (ir_rows ir) /\
     clean_invoice_no (invoice_no r) = Pandas.invoice_of o /\
     nth j (related_file r) None = Some img /\
     Str.strip img <> EmptyString /\
     lbl = Pandas.label (fst (fst p)) (1 + j) (snd (fst p)) /\
     v = VStr (Pandas.hyperlink_formula (snd p) (Str.strip img))).
Proof.
  intros Hreport Ho Hlink.
  destruct (process_month_source _ _ _ _ _ _ Hreport) as (out & _ & -> & _).
  destruct (enrich_row _ _ _ _ _ _ Ho) as (_ & Himgs & Hlinks & _).
  rewrite Hlinks in Hlink.
  apply link_columns_inv in Hlink as (j & img & p & Hj & Hp & E).
  injection E as Hlbl Hv.
  unfold Pandas.make_hyperlink in Hv.
  destruct (Pandas.is_first_row o); cbn [negb] in Hv; [|now left].
  destruct img as [img|]; [|now left].
  destruct (String.eqb (Str.strip img) EmptyString) eqn:Hblank; [now left|].
  right. split; [reflexivity|].
  rewrite Himgs in Hj. unfold Pandas.merged_images in Hj.
  destruct (Pandas.merge_happens cols ir) eqn:Hmerge; [|destruct j; discriminate].
  rewrite nth_error_map in Hj.
  destruct (nth_error (seq 0 (Nat.min 4 (img_cols ir))) j) as [k|] eqn:Hk; [|discriminate].
  assert (k = j).
  { assert (Hlt : (j < List.length (seq 0 (Nat.min 4 (img_cols ir))))%nat)
      by (apply nth_error_Some; congruence).
    rewrite nth_error_nth' with (d := 0%nat) in Hk by exact Hlt.
    rewrite length_seq in Hlt. rewrite seq_nth in Hk by exact Hlt. now injection Hk. }
  subst k. cbn [option_map] in Hj. injection Hj as Hj.
  apply first_image_found in Hj as (r' & Hr' & Hinv & Hnth).
  unfold Pandas.merge_happens in Hmerge.
  apply andb_true_iff in Hmerge as [Hmerge _]. apply andb_true_iff in Hmerge as [Hir _].
  unfold Pandas.preprocess_ir in Hr'. rewrite Hir in Hr'.
  apply in_map_iff in Hr' as (r & <- & Hr). cbn [invoice_no related_file] in Hinv, Hnth.
  exists j, img, p, r. repeat split; auto.
  intros Hempty. rewrite Hempty in Hblank. discriminate.
Qed.

(** ** The rows of the pandas report *)

Lemma filter_all {A : Type} (l : list A) : filter (fun _ => true) l = l.
Proof. induction l as [|x l IH]; cbn [filter]; [reflexivity|now rewrite IH]. Qed.

Lemma filter_when {A : Type} (c : bool) (g : A -> bool) (l : list A) :
  (if c then filter g l else l) = filter (fun x => negb c || g x) l.
Proof. destruct c; cbn [negb orb]; [reflexivity|now rewrite filter_all]. Qed.

Lemma filter_both {A : Type} (f g : A -> bool) (l : list A) :
  filter f (filter g l) = filter (fun x => g x && f x) l.
Proof.
  induction l as [|x l IH]; cbn [filter]; [reflexivity|].
  destruct (g x); cbn [filter andb]; [destruct (f x)|]; now rewrite IH.
Qed.

Lemma over_threshold_compat (x y : Q) :
  (x == y)%Q -> Pandas.over_threshold x = Pandas.over_threshold y.
Proof. intros H. unfold Pandas.over_threshold. now rewrite H. Qed.

Lemma small_total_compat (x y : Q) :
  (x == y)%Q -> Qlt_bool (Qabs x) 3500 = Qlt_bool (Qabs y) 3500.
Proof. intros H. unfold Qlt_bool. now rewrite H. Qed.

Section ExactRows.
Variables (cols : columns) (month year : Z) (df_jib : list txn).

Let df_month : list txn := Pandas.filter_by_date cols month year df_jib.
Let sorted_month : list txn := sort_values (Pandas.sort_cols cols) df_month.
Let survivors : list Pandas.frame_row :=
  Pandas.drop_low_value_vendors cols
    (Pandas.drop_gj_pe cols (Pandas.aggregate_and_filter cols sorted_month)).

Lemma survivors_rows :
  map Pandas.tx survivors = filter (retained cols df_month) sorted_month.
Proof.
  unfold survivors, Pandas.drop_low_value_vendors, Pandas.drop_gj_pe.
  rewrite !filter_when.
  set (m := fun r : txn =>
              Pandas.mk_frame_row r
                (if Pandas.has_inv_total cols
                 then Pandas.inv_total sorted_month (txn_invoice_no r) else 0%Q)).
  assert (Hagg : Pandas.aggregate_and_filter cols sorted_month =
                 filter (fun r => negb (Pandas.has_inv_total cols)
                                  || Pandas.over_threshold (Pandas.Inv_Total r))
                        (map m sorted_month)).
  { unfold Pandas.aggregate_and_filter, m.
    destruct (Pandas.has_inv_total cols); cbn [negb orb]; [reflexivity|].
    now rewrite filter_all. }
  rewrite Hagg, !filter_both, filter_map_swap, map_map.
  cbn [Pandas.tx m]. rewrite map_id. apply filter_ext. intros r.
  unfold retained. cbn [Pandas.tx Pandas.Inv_Total m].
  assert (Htotal : (Pandas.inv_total sorted_month (txn_invoice_no r)
                    == Pandas.inv_total df_month (txn_invoice_no r))%Q).
  { apply inv_total_perm. apply stable_sort_perm. }
  unfold Pandas.mask_excl. clear Hagg. subst m. cbn [Pandas.tx Pandas.Inv_Total].
  rewrite <- !andb_assoc.
  destruct (Pandas.has_inv_total cols); cbn [negb orb].
  - rewrite (over_threshold_compat _ _ Htotal), (small_total_compat _ _ Htotal).
    reflexivity.
  - now rewrite !andb_false_r.
Qed.

Lemma survivors_perm :
  Permutation (map Pandas.tx survivors) (filter (retained cols df_month) df_month).
Proof.
  rewrite survivors_rows. apply filter_perm. apply stable_sort_perm.
Qed.

Lemma filter_month_rows :
  match Pandas.filter_month cols month year df_jib with
  | Some out =>
      out <> [] /\
      Permutation (map Pandas.tx out) (filter (retained cols df_month) df_month)
  | None => filter (retained cols df_month) df_month = []
  end.
Proof.
  pose proof survivors_perm as Hperm.
  unfold Pandas.filter_month. fold df_month.
  destruct df_month as [|r0 k] eqn:Hmonth; [reflexivity|].
  fold sorted_month. fold survivors.
  destruct survivors as [|s0 l] eqn:Hs.
  - cbn [map] in Hperm. now apply Permutation_nil in Hperm.
  - split.
    + destruct (Pandas.has_inv_total cols); [|discriminate].
      intros E. apply stable_sort_nil in E. discriminate.
    + destruct (Pandas.has_inv_total cols); [|exact Hperm].
      eapply Permutation_trans; [|exact Hperm].
      apply Permutation_map. apply stable_sort_perm.
Qed.

End ExactRows.

(** The report of a month holds exactly the rows of the month that
    pass the tests, each as many times as the ledger has it: no row is
    lost or repeated by the two sorts and the merge, and a month is
    skipped exactly when no row passes. *)
Theorem report_rows_exact
        (cols : columns) (ir : ir_table) (month year : Z) (df_jib : list txn) :
  let df_month := Pandas.filter_by_date cols month year df_jib in
  match Pandas.process_month cols ir month year df_jib with
  | Some report =>
      report <> [] /\
      Permutation (map (fun o => Pandas.tx (Pandas.source o)) report)
                  (filter (retained cols df_month) df_month)
  | None => filter (retained cols df_month) df_month = []
  end.
Proof.
  intros df_month. pose proof (filter_month_rows cols month year df_jib) as H.
  unfold Pandas.process_month.
  destruct (Pandas.filter_month cols month year df_jib) as [out|]; cbn [option_map];
    [|exact H].
  destruct H as [Hne Hperm].
  pose proof (enrich_source cols ir month year out) as Hsrc. split.
  - intros E. rewrite E in Hsrc. cbn [map] in Hsrc. congruence.
  - rewrite <- (map_map Pandas.source Pandas.tx), Hsrc. exact Hperm.
Qed.

(** With an invoice and a gross column, the invoice totals never
    increase down the report of a month: the largest invoices come
    first. *)
Theorem report_totals_descend
        (cols : columns) (ir : ir_table) (month year : Z) (df_jib : list txn)
        (report : list Pandas.report_row) (i j : nat) (a b : Pandas.report_row) :
  has_invoice cols = true ->
  has_gross cols = true ->
  Pandas.process_month cols ir month year df_jib = Some report ->
  (i <= j)%nat ->
  nth_error report i = Some a ->
  nth_error report j = Some b ->
  (Pandas.Inv_Total (Pandas.source b) <= Pandas.Inv_Total (Pandas.source a))%Q.
Proof.
  intros Hinv Hgross Hreport Hij Ha Hb.
  pose proof (report_ordered _ _ _ _ _ _ Hinv Hgross Hreport _ _ _ _ Hij Ha Hb) as H.
  unfold not_after, Pandas.final_sort in H. cbn [lexicographic descending_number] in H.
  destruct (Pandas.Inv_Total (Pandas.source b) ?= Pandas.Inv_Total (Pandas.source a))%Q
    eqn:E.
  - apply Qeq_alt in E. rewrite E. apply Qle_refl.
  - apply Qlt_alt in E. now apply Qlt_le_weak.
  - discriminate.
Qed.

Lemma link_labels_distinct_witness :
  exists report o,
    Pandas.process_month all_columns two_images 2 2024 split_invoice_ledger = Some report /\
    In o report /\
    NoDup (map fst (Pandas.links o)) /\
    List.length (Pandas.links o) = 8%nat.
Proof.
  pose (report := Pandas.enrich all_columns two_images 2 2024
                    (match Pandas.filter_month all_columns 2 2024 split_invoice_ledger with
                     | Some out => out
                     | None => []
                     end)).
  pose (o := nth 0 report
                 (Pandas.mk_report_row 0 EmptyString (Pandas.mk_frame_row maryboy_1200 0)
                                       false [] [] (VInt 0))).
  assert (H1 : Pandas.process_month all_columns two_images 2 2024 split_invoice_ledger
               = Some report) by (vm_compute; reflexivity).
  assert (H2 : In o report) by (vm_compute; left; reflexivity).
  exists report, o. split; [exact H1|]. split; [exact H2|].
  destruct (link_labels_distinct _ _ _ _ _ _ _ H1 H2) as (Hnodup & Hlen & _).
  split; [exact Hnodup|]. rewrite Hlen. reflexivity.
Defined.

Lemma links_point_to_reference_images_witness :
  exists report o,
    Pandas.process_month all_columns two_images 2 2024 split_invoice_ledger = Some report /\
    In o report /\
    In ("Dropbox Link Image 1 Q1",
        VStr (Pandas.hyperlink_formula
                (Pandas.invoices_dir Pandas.base_dropbox 2024 1) "a1.pdf"))
       (Pandas.links o) /\
    Pandas.is_first_row o = true /\
    Pandas.invoice_of o = "A".
Proof.
  pose (report := Pandas.enrich all_columns two_images 2 2024
                    (match Pandas.filter_month all_columns 2 2024 split_invoice_ledger with
                     | Some out => out
                     | None => []
                     end)).
  pose (o := nth 0 report
                 (Pandas.mk_report_row 0 EmptyString (Pandas.mk_frame_row maryboy_1200 0)
                                       false [] [] (VInt 0))).
  assert (H1 : Pandas.process_month all_columns two_images 2 2024 split_invoice_ledger
               = Some report) by (vm_compute; reflexivity).
  assert (H2 : In o report) by (vm_compute; left; reflexivity).
  assert (H3 : In ("Dropbox Link Image 1 Q1",
                   VStr (Pandas.hyperlink_formula
                           (Pandas.invoices_dir Pandas.base_dropbox 2024 1) "a1.pdf"))
                  (Pandas.links o)) by (vm_compute; left; reflexivity).
  exists report, o. split; [exact H1|]. split; [exact H2|]. split; [exact H3|].
  destruct (links_point_to_reference_images _ _ _ _ _ _ _ _ _ H1 H2 H3)
    as [Hzero|(Hfirst & _)]; [discriminate Hzero|].
  split; [exact Hfirst|reflexivity].
Defined.

Lemma report_totals_descend_witness :
  exists report a b,
    has_invoice all_columns = true /\
    has_gross all_columns = true /\
    Pandas.process_month all_columns no_images 2 2024 maryboy_ledger = Some report /\
    (0 <= 0)%nat /\
    nth_error report 0 = Some a /\
    nth_error report 0 = Some b /\
    (Pandas.Inv_Total (Pandas.source b) <= Pandas.Inv_Total (Pandas.source a))%Q.
Proof.
  pose (report := Pandas.enrich all_columns no_images 2 2024
                    (match Pandas.filter_month all_columns 2 2024 maryboy_ledger with
                     | Some out => out
                     | None => []
                     end)).
  pose (o := nth 0 report
                 (Pandas.mk_report_row 0 EmptyString (Pandas.mk_frame_row maryboy_1200 0)
                                       false [] [] (VInt 0))).
  assert (H1 : Pandas.process_month all_columns no_images 2 2024 maryboy_ledger
               = Some report) by (vm_compute; reflexivity).
  assert (H2 : nth_error report 0 = Some o) by (vm_compute; reflexivity).
  exists report, o, o. split; [reflexivity|]. split; [reflexivity|].
  split; [exact H1|]. split; [apply le_n|]. split; [exact H2|]. split; [exact H2|].
  exact (report_totals_descend all_columns no_images 2 2024 maryboy_ledger report
           0%nat 0%nat o o eq_refl eq_refl H1 (le_n 0) H2 H2).
Defined.

(** ** File names of the SQLite report *)

Lemma last3_table :
  forallb (fun n =>
             String.eqb (Sqlite.last3 ("000" ++ Str.decimal n)) (Str.zfill 3 n) &&
             String.eqb (Sqlite.last3 ("000" ++ Str.decimal (n + 1000))) (Str.zfill 3 n))
          (range 0 1000) = true.
Proof. vm_compute. reflexivity. Qed.

Lemma last3_padded (n : Z) :
  0 <= n < 1000 ->
  Sqlite.last3 ("000" ++ Str.decimal n) = Str.zfill 3 n /\
  Sqlite.last3 ("000" ++ Str.decimal (n + 1000)) = Str.zfill 3 n.
Proof.
  intros H. pose proof last3_table as T. rewrite forallb_forall in T.
  specialize (T n ltac:(apply range_In; lia)).
  apply andb_true_iff in T as [T1 T2].
  apply String.eqb_eq in T1, T2. auto.
Qed.

(** Up to sequence number 999 the SQLite version builds the same
    tax-commission file name as the pandas versions.  From 1000 on it
    keeps the last three digits only, so the name of number n + 1000 is
    the name of number n again, where the pandas versions write four
    digits and keep the names apart. *)
Theorem sqlite_file_name_three_digits (month year n : Z) :
  0 <= n < 1000 ->
  Sqlite.raw_fn month year n =
    Pandas.tax_comm_filename month year (Pandas.seq_no_pad n) /\
  Sqlite.raw_fn month year (n + 1000) = Sqlite.raw_fn month year n /\
  Pandas.tax_comm_filename month year (Pandas.seq_no_pad (n + 1000)) <>
    Pandas.tax_comm_filename month year (Pandas.seq_no_pad n).
Proof.
  intros H. destruct (last3_padded n H) as [H1 H2].
  unfold Sqlite.raw_fn, Pandas.tax_comm_filename, Pandas.seq_no_pad.
  rewrite H1, H2. split; [reflexivity|]. split; [reflexivity|].
  intros E. apply tax_comm_filename_injective in E; lia.
Qed.

Lemma sqlite_file_name_three_digits_witness :
  0 <= 7 < 1000 /\
  Sqlite.raw_fn 2 2024 7 = "S202402-007.pdf" /\
  Sqlite.raw_fn 2 2024 1007 = "S202402-007.pdf" /\
  Pandas.tax_comm_filename 2 2024 (Pandas.seq_no_pad 1007) = "S202402-1007.pdf".
Proof.
  assert (H : 0 <= 7 < 1000) by lia.
  destruct (sqlite_file_name_three_digits 2 2024 7 H) as (_ & _ & _).
  split; [exact H|]. repeat split; reflexivity.
Defined.

Lemma flag_changes_nth (ranks : list Z) :
  forall prev i k k',
    nth_error ranks i = Some k ->
    nth_error ranks (S i) = Some k' ->
    nth_error (Sqlite.flag_changes prev ranks) (S i) = Some (negb (k =? k')).
Proof.
  induction ranks as [|x ranks IH]; intros prev i k k' Hk Hk'.
  - destruct i; discriminate.
  - destruct i as [|i]; cbn [nth_error Sqlite.flag_changes] in *.
    + injection Hk as <-. destruct ranks as [|y ranks]; [discriminate|].
      cbn [nth_error Sqlite.flag_changes] in *. now injection Hk' as <-.
    + now apply IH.
Qed.

Section SqliteFlags.
Variables (month year : Z) (jib_master : list raw_row).

Let report : list Sqlite.report_row := Sqlite.final_report month year jib_master.
Let ordered : list Sqlite.stage3_row :=
  sort_values Sqlite.window_order
    (Sqlite.Filtered (Sqlite.stage3 (Sqlite.stage2 (Sqlite.stage1 month jib_master)))).
Let ranks : list Z := Sqlite.number_peer_groups None 0 ordered.

Lemma final_report_flags :
  map Sqlite.sequence_change_flag report = Sqlite.flag_changes None ranks.
Proof.
  unfold report, Sqlite.final_report. fold ordered. fold ranks. rewrite map_map.
  rewrite (map_ext _ (fun x => snd (snd x))) by (intros [r [k change]]; reflexivity).
  rewrite <- (map_map snd snd), !map_snd_combine; auto.
  - unfold ranks. now rewrite length_flag_changes.
  - unfold ranks.
    now rewrite length_combine, length_flag_changes, length_number_peer_groups, Nat.min_id.
Qed.

Lemma final_report_filename (o : Sqlite.report_row) :
  In o report ->
  Sqlite.filename o =
  if Sqlite.sequence_change_flag o
  then Sqlite.raw_fn month year (Sqlite.for_sequence_no o) else "0".
Proof.
  unfold report, Sqlite.final_report. rewrite in_map_iff.
  intros ([r [k change]] & <- & _). reflexivity.
Qed.

Lemma final_report_flag_first (o : Sqlite.report_row) :
  nth_error report 0 = Some o -> Sqlite.sequence_change_flag o = true.
Proof.
  intros H. apply (nth_error_map_Some Sqlite.sequence_change_flag) in H.
  rewrite final_report_flags in H.
  destruct ranks; cbn [Sqlite.flag_changes nth_error] in H; [discriminate|].
  now injection H.
Qed.

Lemma final_report_flag_next (i : nat) (a b : Sqlite.report_row) :
  nth_error report i = Some a ->
  nth_error report (S i) = Some b ->
  Sqlite.sequence_change_flag b =
  negb (Sqlite.same_peer (Sqlite.ranked a) (Sqlite.ranked b)).
Proof.
  intros Ha Hb.
  pose proof (sqlite_step month year jib_master i a b Ha Hb) as Hstep.
  pose proof (nth_error_map_Some Sqlite.sequence_change_flag _ _ _ Hb) as Hflag.
  rewrite final_report_flags in Hflag.
  pose proof (nth_error_map_Some Sqlite.for_sequence_no _ _ _ Ha) as Hka.
  pose proof (nth_error_map_Some Sqlite.for_sequence_no _ _ _ Hb) as Hkb.
  unfold report in Hka, Hkb. rewrite final_report_numbers in Hka, Hkb.
  fold ordered in Hka, Hkb. fold ranks in Hka, Hkb.
  rewrite (flag_changes_nth ranks None i _ _ Hka Hkb) in Hflag.
  injection Hflag as <-. rewrite Hstep.
  destruct (Sqlite.same_peer (Sqlite.ranked a) (Sqlite.ranked b)); cbn [negb].
  - rewrite Z.add_0_r. now rewrite Z.eqb_refl.
  - apply negb_true_iff, Z.eqb_neq. lia.
Qed.

End SqliteFlags.

(** In the SQLite report, read in window order, a row carries the
    change flag, and with it the tax-commission file name, exactly when
    no row above it has the same vendor and the same invoice number;
    every other row carries the text 0 as its file name. *)
Theorem sqlite_file_name_on_first_of_pair
        (month year : Z) (jib_master : list raw_row) (i : nat) (a : Sqlite.report_row) :
  nth_error (Sqlite.final_report month year jib_master) i = Some a ->
  (Sqlite.sequence_change_flag a = true <->
   forall j b,
     (j < i)%nat ->
     nth_error (Sqlite.final_report month year jib_master) j = Some b ->
     ~ (name_1 (Sqlite.ledger_of (Sqlite.ranked b)) =
          name_1 (Sqlite.ledger_of (Sqlite.ranked a)) /\
        txn_invoice_no (Sqlite.ledger_of (Sqlite.ranked b)) =
          txn_invoice_no (Sqlite.ledger_of (Sqlite.ranked a)))) /\
  Sqlite.filename a =
    (if Sqlite.sequence_change_flag a
     then Sqlite.raw_fn month year (Sqlite.for_sequence_no a) else "0").
Proof.
  intros Ha.
  split; [|apply (final_report_filename month year jib_master);
           eapply nth_error_In; exact Ha].
  destruct i as [|i].
  - rewrite (final_report_flag_first _ _ _ _ Ha). split; [|reflexivity].
    intros _ j b Hj. lia.
  - destruct (nth_error (Sqlite.final_report month year jib_master) i) as [c|] eqn:Hc.
    2:{ apply nth_error_None in Hc.
        assert (nth_error (Sqlite.final_report month year jib_master) (S i) <> None)
          by congruence.
        apply nth_error_Some in H. lia. }
    rewrite (final_report_flag_next _ _ _ _ _ _ Hc Ha), negb_true_iff. split.
    + intros Hnot j b Hj Hb Hsame.
      apply same_peer_iff in Hsame.
      pose proof (sqlite_ordered month year jib_master j i b c ltac:(lia) Hb Hc) as H1.
      pose proof (sqlite_ordered month year jib_master i (S i) c a ltac:(lia) Hc Ha) as H2.
      pose proof (between_peers _ _ _ H1 H2 Hsame) as Hbc.
      apply same_peer_iff in Hbc, Hsame.
      assert (Hca : Sqlite.same_peer (Sqlite.ranked c) (Sqlite.ranked a) = true).
      { apply same_peer_iff. destruct Hbc as [E1 E2], Hsame as [E3 E4].
        split; congruence. }
      congruence.
    + intros Hnone.
      destruct (Sqlite.same_peer (Sqlite.ranked c) (Sqlite.ranked a)) eqn:E; [|reflexivity].
      exfalso. apply same_peer_iff in E. exact (Hnone i c ltac:(lia) Hc E).
Qed.

Lemma sqlite_file_name_on_first_of_pair_witness :
  exists a,
    nth_error (Sqlite.final_report 2 2024 repeated_credit_ledger) 1 = Some a /\
    Sqlite.sequence_change_flag a = false /\
    Sqlite.filename a = "0".
Proof.
  pose (a := nth 1 (Sqlite.final_report 2 2024 repeated_credit_ledger)
                 (Sqlite.mk_report_row 0
                    (Sqlite.mk_stage3
                       (Sqlite.mk_stage2 (Sqlite.mk_stage1 journal_row None) 0) None)
                    false EmptyString)).
  assert (H : nth_error (Sqlite.final_report 2 2024 repeated_credit_ledger) 1 = Some a)
    by (vm_compute; reflexivity).
  exists a. split; [exact H|]. split; [vm_compute; reflexivity|].
  destruct (sqlite_file_name_on_first_of_pair 2 2024 repeated_credit_ledger 1 a H)
    as [_ Hname].
  rewrite Hname. vm_compute. reflexivity.
Defined.

(** ** The rows of the SQLite report *)

Lemma sqlite_threshold_deduplicated (t : list Sqlite.stage1_row) (inv : string) :
  Sqlite.over_threshold (Sqlite.inv_total_of (Sqlite.stage2 t) inv) =
  Pandas.over_threshold (deduplicated_total t inv).
Proof.
  pose proof (inv_total_of_deduplicated t inv) as H.
  destruct (Sqlite.inv_total_of (Sqlite.stage2 t) inv) as [q|]; cbn [amount] in H.
  - cbn [Sqlite.over_threshold]. unfold Pandas.over_threshold. now rewrite H.
  - cbn [Sqlite.over_threshold]. unfold Pandas.over_threshold. now rewrite <- H.
Qed.

(** The SQLite report holds exactly the rows of the month (of any
    year) whose invoice total, with one row counted per duplicate
    group, has absolute value 2000 or more; each such row is there as
    many times as the ledger has it, the repeated lines included. *)
Theorem sqlite_report_rows_exact (month year : Z) (jib_master : list raw_row) :
  let month_rows := filter (Sqlite.month_is month) jib_master in
  Permutation
    (map (fun o => Sqlite.ledger_of (Sqlite.ranked o))
         (Sqlite.final_report month year jib_master))
    (filter (fun r => Pandas.over_threshold
                        (deduplicated_total (Sqlite.with_clean_gross month_rows)
                                            (txn_invoice_no r)))
            month_rows).
Proof.
  intros month_rows.
  rewrite <- (map_map Sqlite.ranked Sqlite.ledger_of), final_report_ranked.
  eapply Permutation_trans; [apply Permutation_map, stable_sort_perm|].
  unfold Sqlite.Filtered, Sqlite.stage3. rewrite filter_map_swap, map_map.
  cbn [Sqlite.inv_total Sqlite.ledger_of Sqlite.s2].
  set (t2 := Sqlite.stage2 (Sqlite.stage1 month jib_master)).
  assert (Hrows : map (fun r => Sqlite.jib (Sqlite.s1 r)) t2 = month_rows).
  { rewrite <- (map_map Sqlite.s1 Sqlite.jib). unfold t2, Sqlite.stage2.
    rewrite number_rows_s1. unfold Sqlite.stage1, Sqlite.with_clean_gross.
    rewrite map_map. cbn [Sqlite.jib]. apply map_id. }
  set (g := fun r : Sqlite.stage2_row => Sqlite.jib (Sqlite.s1 r)) in *.
  assert (E : forall q : raw_row -> bool,
             filter q month_rows = map g (filter (fun x => q (g x)) t2)).
  { intros q. rewrite <- Hrows. apply filter_map_swap. }
  rewrite E. apply Permutation_refl'.
  apply (f_equal (map g)). apply filter_ext. intros r.
  unfold t2, g. rewrite sqlite_threshold_deduplicated. reflexivity.
Qed.

(** ** Currency cleaning of the SQLite version *)

Lemma to_numeric_cases (t : string) :
  to_numeric t =
  match Str.strip t with
  | EmptyString => None
  | String c r =>
      if Ascii.eqb c "-" then option_map Qopp (decimal_digits 0 1 false false r)
      else if Ascii.eqb c "+" then decimal_digits 0 1 false false r
      else decimal_digits 0 1 false false (String c r)
  end.
Proof.
  unfold to_numeric. destruct (Str.strip t) as [|c r]; [reflexivity|].
  destruct c as [[] [] [] [] [] [] [] []]; reflexivity.
Qed.

Lemma cast_numeric_cases (t : string) :
  cast_numeric t =
  match Str.lstrip t with
  | EmptyString => 0%Q
  | String c r =>
      if Ascii.eqb c "-" then Qopp (numeric_prefix 0 1 false r)
      else if Ascii.eqb c "+" then numeric_prefix 0 1 false r
      else numeric_prefix 0 1 false (String c r)
  end.
Proof.
  unfold cast_numeric. destruct (Str.lstrip t) as [|c r]; [reflexivity|].
  destruct c as [[] [] [] [] [] [] [] []]; reflexivity.
Qed.

Lemma space_ends_number (c : ascii) :
  Str.is_space c = true -> Str.digit c = None /\ Ascii.eqb c "." = false.
Proof.
  destruct c as [[] [] [] [] [] [] [] []]; cbn; intros H; try discriminate; auto.
Qed.

Lemma numeric_prefix_of_number (s w : string) :
  every Str.is_space w = true ->
  forall num den frac seen q,
    decimal_digits num den frac seen s = Some q ->
    numeric_prefix num den frac (s ++ w) = q.
Proof.
  intros Hw. induction s as [|c s IH]; intros num den frac seen q H.
  - cbn [decimal_digits] in H. destruct seen; [|discriminate]. injection H as <-.
    cbn [append]. destruct w as [|c w]; [reflexivity|].
    cbn [every] in Hw. apply andb_true_iff in Hw as [Hc _].
    destruct (space_ends_number c Hc) as [Hd Hdot].
    cbn [numeric_prefix]. now rewrite Hd, Hdot.
  - cbn [decimal_digits] in H. cbn [append numeric_prefix].
    destruct (Str.digit c) as [d|].
    + now apply IH in H.
    + destruct (Ascii.eqb c "." && negb frac); [|discriminate]. now apply IH in H.
Qed.

Lemma rstrip_decompose (u : string) :
  exists w, u = Str.rstrip u ++ w /\ every Str.is_space w = true.
Proof.
  induction u as [|c u (w & E & Hw)].
  - now exists EmptyString.
  - cbn [Str.rstrip]. destruct (Str.rstrip u) as [|d r] eqn:Hr.
    + cbn [append] in E. subst w. destruct (Str.is_space c) eqn:Hc.
      * exists (String c u). split; [reflexivity|]. cbn [every]. now rewrite Hc.
      * exists u. split; [reflexivity|exact Hw].
    + exists w. split; [|exact Hw]. cbn [append]. f_equal. exact E.
Qed.

Lemma cast_numeric_of_number (t : string) (q : Q) :
  to_numeric t = Some q -> t <> EmptyString /\ cast_numeric t = q.
Proof.
  intros H. split; [intros ->; discriminate|].
  rewrite to_numeric_cases in H. rewrite cast_numeric_cases.
  unfold Str.strip in H.
  destruct (rstrip_decompose (Str.lstrip t)) as (w & E & Hw).
  destruct (Str.rstrip (Str.lstrip t)) as [|c r]; [discriminate|].
  rewrite E. cbn [append].
  destruct (Ascii.eqb c "-").
  - destruct (decimal_digits 0 1 false false r) as [q0|] eqn:Hq; [|discriminate].
    injection H as <-. now rewrite (numeric_prefix_of_number r w Hw _ _ _ _ _ Hq).
  - destruct (Ascii.eqb c "+").
    + exact (numeric_prefix_of_number r w Hw _ _ _ _ _ H).
    + exact (numeric_prefix_of_number (String c r) w Hw _ _ _ _ _ H).
Qed.

Lemma contains_replace (c a b : ascii) (s : string) :
  Str.contains c s = false -> c <> b -> Str.contains c (Str.replace a b s) = false.
Proof.
  intros H Hb. induction s as [|d s IH]; cbn [Str.replace Str.contains] in *; [reflexivity|].
  apply orb_false_iff in H as [Hd Hs]. rewrite (IH Hs), orb_false_r.
  destruct (Ascii.eqb d a); [|exact Hd]. apply Ascii.eqb_neq. congruence.
Qed.

Lemma contains_delete (c a : ascii) (s : string) :
  Str.contains c s = false -> Str.contains c (Str.delete a s) = false.
Proof.
  intros H. induction s as [|d s IH]; cbn [Str.delete Str.contains] in *; [reflexivity|].
  apply orb_false_iff in H as [Hd Hs].
  destruct (Ascii.eqb d a); cbn [Str.contains]; rewrite ?Hd; auto.
Qed.

Lemma delete_absent (a : ascii) (s : string) :
  Str.contains a s = false -> Str.delete a s = s.
Proof.
  induction s as [|d s IH]; cbn [Str.delete Str.contains]; [reflexivity|].
  intros H. apply orb_false_iff in H as [Hd Hs]. now rewrite Hd, IH.
Qed.

(** Wherever the currency cleaning of the pandas versions reads a
    number, the cleaning of the SQLite version reads the same number,
    provided the text holds no dollar sign (which only the pandas
    versions remove): parentheses, thousands separators and blanks
    around the number are treated alike. *)
Theorem sqlite_cleaning_agrees (x : cell) (q : Q) :
  (forall s, x = Text s -> Str.contains "$" s = false) ->
  clean_currency x = Some q ->
  Sqlite.clean_gross_of x = Some q.
Proof.
  intros Hdollar H. destruct x as [|n|s]; [discriminate|exact H|].
  specialize (Hdollar s eq_refl). cbn [clean_currency Sqlite.clean_gross_of] in *.
  set (t := Str.delete "," (Str.delete ")" (Str.replace "(" "-" s))) in *.
  assert (Ht : Str.contains "$" t = false).
  { unfold t. apply contains_delete, contains_delete, contains_replace;
      [exact Hdollar|discriminate]. }
  rewrite (delete_absent "$" t Ht) in H.
  destruct (cast_numeric_of_number t q H) as [Hne Hq].
  destruct (String.eqb t EmptyString) eqn:E; [apply String.eqb_eq in E; contradiction|].
  now rewrite Hq.
Qed.

Lemma sqlite_cleaning_agrees_witness :
  (forall s, Text " (1,234.50) " = Text s -> Str.contains "$" s = false) /\
  clean_currency (Text " (1,234.50) ") = Some (- (123450 # 100))%Q /\
  Sqlite.clean_gross_of (Text " (1,234.50) ") = Some (- (123450 # 100))%Q.
Proof.
  assert (H1 : forall s, Text " (1,234.50) " = Text s -> Str.contains "$" s = false)
    by (intros s [= <-]; reflexivity).
  assert (H2 : clean_currency (Text " (1,234.50) ") = Some (- (123450 # 100))%Q)
    by reflexivity.
  split; [exact H1|]. split; [exact H2|].
  exact (sqlite_cleaning_agrees _ _ H1 H2).
Defined.

(** ** Column names *)

Lemma lower_char_lowered (c : ascii) : lowered (Str.lower_char c) = true.
Proof. destruct c as [[] [] [] [] [] [] [] []]; reflexivity. Qed.

Lemma every_lower (s : string) : every lowered (Str.lower s) = true.
Proof.
  induction s as [|c s IH]; cbn [Str.lower every]; [reflexivity|].
  now rewrite lower_char_lowered, IH.
Qed.

Lemma lower_fixpoint (s : string) : every lowered s = true -> Str.lower s = s.
Proof.
  induction s as [|c s IH]; cbn [Str.lower every]; [reflexivity|].
  intros H. apply andb_true_iff in H as [Hc Hs]. apply Ascii.eqb_eq in Hc.
  now rewrite Hc, IH.
Qed.

Lemma every_replace (p q : ascii -> bool) (a b : ascii) (s : string) :
  (forall c, p c = true -> Ascii.eqb c a = false -> q c = true) ->
  q b = true ->
  every p s = true -> every q (Str.replace a b s) = true.
Proof.
  intros Hpq Hb. induction s as [|c s IH]; cbn [Str.replace every]; [reflexivity|].
  intros H. apply andb_true_iff in H as [Hc Hs]. rewrite (IH Hs), andb_true_r.
  destruct (Ascii.eqb c a) eqn:E; auto.
Qed.

Lemma every_replace_with (p q : ascii -> bool) (a : ascii) (b s : string) :
  (forall c, p c = true -> Ascii.eqb c a = false -> q c = true) ->
  every q b = true ->
  every p s = true -> every q (Str.replace_with a b s) = true.
Proof.
  intros Hpq Hb. induction s as [|c s IH]; cbn [Str.replace_with every]; [reflexivity|].
  intros H. apply andb_true_iff in H as [Hc Hs].
  destruct (Ascii.eqb c a) eqn:E.
  - now rewrite every_app, Hb, IH.
  - cbn [every]. now rewrite (Hpq c Hc E), IH.
Qed.

Lemma isin_contains (v x : string) (c : ascii) :
  Str.isin v x = true -> Str.contains c v = true -> Str.contains c x = true.
Proof.
  intros H Hc. apply isin_spec in H as (before & after & ->).
  rewrite !contains_app, Hc. now rewrite orb_true_r.
Qed.

(** What is left of a header after normalisation. *)
Lemma normalise_column_chars (c : string) :
  every (fun x => lowered x && negb (Ascii.eqb x " ") && negb (Ascii.eqb x "#")
                  && negb (Ascii.eqb x "."))
        (normalise_column c) = true.
Proof.
  unfold normalise_column.
  apply (every_replace
           (fun x => lowered x && negb (Ascii.eqb x " ") && negb (Ascii.eqb x "#"))).
  - intros x Hx E. now rewrite Hx, E.
  - reflexivity.
  - apply (every_replace_with (fun x => lowered x && negb (Ascii.eqb x " "))).
    + intros x Hx E. now rewrite Hx, E.
    + reflexivity.
    + apply (every_replace lowered).
      * intros x Hx E. now rewrite Hx, E.
      * reflexivity.
      * apply every_lower.
Qed.

(** A normalised column name holds no blank, no hash sign, no full
    stop and no upper-case letter.  So the columns the scripts add under
    mixed-case names never fall on a column of the loaded file, and no
    loaded column is taken for a link column. *)
Theorem normalised_column_names (c : string) :
  Str.contains " " (normalise_column c) = false /\
  Str.contains "#" (normalise_column c) = false /\
  Str.contains "." (normalise_column c) = false /\
  Str.lower (normalise_column c) = normalise_column c /\
  ~ In (normalise_column c) helper_columns /\
  Str.isin "Link Image" (normalise_column c) = false.
Proof.
  pose proof (normalise_column_chars c) as H.
  set (ok := fun x => lowered x && negb (Ascii.eqb x " ") && negb (Ascii.eqb x "#")
                      && negb (Ascii.eqb x ".")) in H.
  assert (Hblank : Str.contains " " (normalise_column c) = false)
    by (apply (every_contains ok); [exact H|reflexivity]).
  assert (Hlow : Str.lower (normalise_column c) = normalise_column c).
  { apply lower_fixpoint. eapply every_impl; [|exact H].
    intros x Hx. unfold ok in Hx. now repeat (apply andb_true_iff in Hx as [Hx _]). }
  split; [exact Hblank|].
  split; [apply (every_contains ok); [exact H|reflexivity]|].
  split; [apply (every_contains ok); [exact H|reflexivity]|].
  split; [exact Hlow|]. split.
  - intros Hin. unfold helper_columns in Hin. cbn [In] in Hin.
    destruct Hin as [E|[E|[E|[E|[]]]]]; rewrite <- E in Hlow; discriminate.
  - destruct (Str.isin "Link Image" (normalise_column c)) eqn:E; [|reflexivity].
    apply (isin_contains _ _ " ") in E; [congruence|reflexivity].
Qed.

Lemma normalise_column_example :
  normalise_column " Txn Invoice # " = "txn_invoice_no" /\
  normalise_column "Txn Gross Amt." = "txn_gross_amt_".
Proof. split; reflexivity. Qed.

(** ** Header formatting *)

Lemma case_keeps_space (c : ascii) :
  Str.is_space (Str.upper_char c) = Str.is_space c /\
  Str.is_space (Str.lower_char c) = Str.is_space c.
Proof. destruct c as [[] [] [] [] [] [] [] []]; split; reflexivity. Qed.

Lemma case_keeps_underscore (c : ascii) :
  Ascii.eqb (Str.upper_char c) "_" = Ascii.eqb c "_" /\
  Ascii.eqb (Str.lower_char c) "_" = Ascii.eqb c "_".
Proof. destruct c as [[] [] [] [] [] [] [] []]; split; reflexivity. Qed.

Lemma case_twice (c : ascii) :
  Str.lower_char (Str.lower_char c) = Str.lower_char c /\
  Str.lower_char (Str.upper_char c) = Str.lower_char c /\
  Str.upper_char (Str.upper_char c) = Str.upper_char c.
Proof. destruct c as [[] [] [] [] [] [] [] []]; repeat split; reflexivity. Qed.

Lemma lower_lower (s : string) : Str.lower (Str.lower s) = Str.lower s.
Proof.
  induction s as [|c s IH]; cbn [Str.lower]; [reflexivity|].
  rewrite IH. now rewrite (proj1 (case_twice c)).
Qed.

Lemma lower_capitalize (s : string) : Str.lower (Str.capitalize s) = Str.lower s.
Proof.
  destruct s as [|c s]; cbn [Str.capitalize Str.lower]; [reflexivity|].
  rewrite lower_lower. now rewrite (proj1 (proj2 (case_twice c))).
Qed.

Lemma capitalize_capitalize (s : string) :
  Str.capitalize (Str.capitalize s) = Str.capitalize s.
Proof.
  destruct s as [|c s]; cbn [Str.capitalize]; [reflexivity|].
  rewrite lower_lower. now rewrite (proj2 (proj2 (case_twice c))).
Qed.

Lemma header_word_twice (i : nat) (w : string) :
  Pandas.header_word (i, Pandas.header_word (i, w)) = Pandas.header_word (i, w).
Proof.
  unfold Pandas.header_word.
  destruct (Nat.eqb i 0 || negb (existsb (String.eqb (Str.lower w)) Pandas.stop)) eqn:E.
  - rewrite lower_capitalize, E. apply capitalize_capitalize.
  - rewrite !lower_lower, E. reflexivity.
Qed.

(** A word: not empty and without whitespace. *)
Lemma every_lower_iff (p : ascii -> bool) (s : string) :
  (forall c, p (Str.lower_char c) = p c) -> every p (Str.lower s) = every p s.
Proof.
  intros H. induction s as [|c s IH]; cbn [Str.lower every]; [reflexivity|].
  now rewrite H, IH.
Qed.

Lemma every_header_word (p : ascii -> bool) (i : nat) (w : string) :
  (forall c, p (Str.lower_char c) = p c) ->
  (forall c, p (Str.upper_char c) = p c) ->
  every p (Pandas.header_word (i, w)) = every p w.
Proof.
  intros Hl Hu. unfold Pandas.header_word.
  destruct (Nat.eqb i 0 || negb (existsb (String.eqb (Str.lower w)) Pandas.stop)).
  - destruct w as [|c w]; cbn [Str.capitalize every]; [reflexivity|].
    now rewrite Hu, every_lower_iff.
  - now apply every_lower_iff.
Qed.

Lemma header_word_nonempty (i : nat) (w : string) :
  w <> EmptyString -> Pandas.header_word (i, w) <> EmptyString.
Proof.
  intros H. unfold Pandas.header_word. destruct w as [|c w]; [contradiction|].
  destruct (Nat.eqb i 0 || _); discriminate.
Qed.

Lemma split_whitespace_words (p : ascii -> bool) (s : string) :
  every p s = true ->
  Forall (fun w => w <> EmptyString /\
                   every (fun c => negb (Str.is_space c)) w = true /\
                   every p w = true)
         (Str.split_whitespace s).
Proof.
  induction s as [|c s IH]; intros Hp; cbn [Str.split_whitespace]; [constructor|].
  cbn [every] in Hp. apply andb_true_iff in Hp as [Hc Hs]. specialize (IH Hs).
  destruct (Str.is_space c) eqn:Ec; [exact IH|].
  assert (Hone : forall rest,
             Forall (fun w => w <> EmptyString /\
                              every (fun c => negb (Str.is_space c)) w = true /\
                              every p w = true) rest ->
             Forall (fun w => w <> EmptyString /\
                              every (fun c => negb (Str.is_space c)) w = true /\
                              every p w = true) (String c EmptyString :: rest)).
  { intros rest Hrest. constructor; [|exact Hrest].
    cbn [every]. rewrite Ec, Hc. split; [discriminate|split; reflexivity]. }
  destruct s as [|d s]; [now apply Hone|].
  destruct (Str.is_space d); [now apply Hone|].
  destruct (Str.split_whitespace (String d s)) as [|w ws]; [now apply Hone|].
  inversion IH as [|? ? (Hne & Hw & Hpw) Hws]; subst.
  constructor; [|exact Hws]. cbn [every]. rewrite Ec, Hc, Hw, Hpw.
  split; [discriminate|split; reflexivity].
Qed.

Lemma split_whitespace_word (c : ascii) (w : string) :
  every (fun c => negb (Str.is_space c)) (String c w) = true ->
  Str.split_whitespace (String c w) = [String c w] /\
  forall t, Str.split_whitespace (String c w ++ String " " t) =
            String c w :: Str.split_whitespace t.
Proof.
  revert c. induction w as [|d w IH]; intros c H; cbn [every] in H.
  - apply andb_true_iff in H as [Hc _]. apply negb_true_iff in Hc.
    cbn [Str.split_whitespace append]. rewrite Hc. split; [reflexivity|].
    intros t. reflexivity.
  - apply andb_true_iff in H as [Hc Hd]. apply negb_true_iff in Hc.
    destruct (IH d Hd) as [IH1 IH2].
    apply andb_true_iff in Hd as [Hd _]. apply negb_true_iff in Hd. split.
    + change (Str.split_whitespace (String c (String d w)))
        with (if Str.is_space c then Str.split_whitespace (String d w)
              else if Str.is_space d
                   then String c EmptyString :: Str.split_whitespace (String d w)
                   else match Str.split_whitespace (String d w) with
                        | w0 :: ws => String c w0 :: ws
                        | [] => [String c EmptyString]
                        end).
      now rewrite Hc, Hd, IH1.
    + intros t.
      change (Str.split_whitespace (String c (String d w) ++ String " " t))
        with (if Str.is_space c
              then Str.split_whitespace (String d w ++ String " " t)
              else if Str.is_space d
                   then String c EmptyString
                        :: Str.split_whitespace (String d w ++ String " " t)
                   else match Str.split_whitespace (String d w ++ String " " t) with
                        | w0 :: ws => String c w0 :: ws
                        | [] => [String c EmptyString]
                        end).
      now rewrite Hc, Hd, IH2.
Qed.

Lemma split_whitespace_join (ws : list string) :
  Forall (fun w => w <> EmptyString /\
                   every (fun c => negb (Str.is_space c)) w = true) ws ->
  Str.split_whitespace (Str.join " " ws) = ws.
Proof.
  induction 1 as [|w ws [Hne Hw] Hws IH]; [reflexivity|].
  destruct w as [|c w]; [contradiction|].
  destruct (split_whitespace_word c w Hw) as [H1 H2].
  cbn [Str.join]. destruct ws as [|w' ws]; [exact H1|].
  change (String c w ++ " " ++ Str.join " " (w' :: ws))
    with (String c w ++ String " " (Str.join " " (w' :: ws))).
  now rewrite H2, IH.
Qed.

Lemma replace_absent (a b : ascii) (s : string) :
  Str.contains a s = false -> Str.replace a b s = s.
Proof.
  induction s as [|c s IH]; cbn [Str.contains Str.replace]; [reflexivity|].
  intros H. apply orb_false_iff in H as [Hc Hs]. now rewrite Hc, IH.
Qed.

Lemma header_words_again (ws : list string) :
  forall k,
    map Pandas.header_word
        (combine (seq k (List.length ws))
                 (map Pandas.header_word (combine (seq k (List.length ws)) ws)))
    = map Pandas.header_word (combine (seq k (List.length ws)) ws).
Proof.
  induction ws as [|w ws IH]; intros k; [reflexivity|].
  cbn [List.length seq combine map]. now rewrite header_word_twice, IH.
Qed.

Lemma length_header_words (ws : list string) (k : nat) :
  List.length (map Pandas.header_word (combine (seq k (List.length ws)) ws))
  = List.length ws.
Proof. rewrite length_map, length_combine, length_seq. lia. Qed.

Lemma header_words_are_words (p : ascii -> bool) (ws : list string) :
  (forall c, p (Str.lower_char c) = p c) ->
  (forall c, p (Str.upper_char c) = p c) ->
  Forall (fun w => w <> EmptyString /\
                   every (fun c => negb (Str.is_space c)) w = true /\
                   every p w = true) ws ->
  forall k,
    Forall (fun w => w <> EmptyString /\
                     every (fun c => negb (Str.is_space c)) w = true /\
                     every p w = true)
           (map Pandas.header_word (combine (seq k (List.length ws)) ws)).
Proof.
  intros Hl Hu. induction 1 as [|w ws (Hne & Hw & Hp) Hws IH]; intros k; [constructor|].
  cbn [List.length seq combine map]. constructor; [|apply IH].
  split; [now apply header_word_nonempty|]. split.
  - rewrite every_header_word; [exact Hw| |];
      intros c; now rewrite ?(proj1 (case_keeps_space c)), ?(proj2 (case_keeps_space c)).
  - now rewrite every_header_word.
Qed.

Lemma format_words_spec (words : list string) :
  forall i res_words,
    PandasV1.format_words i words res_words =
    (res_words ++ map Pandas.header_word (combine (seq i (List.length words)) words))%list.
Proof.
  induction words as [|w words IH]; intros i res_words.
  - cbn. now rewrite app_nil_r.
  - cbn [PandasV1.format_words List.length seq combine map]. rewrite IH.
    rewrite <- app_assoc. reflexivity.
Qed.

(** Formatting a header a second time changes nothing; a formatted
    header holds no underscore; and the first pandas version, which
    builds the words in a loop, formats every header as the final
    version does. *)
Theorem fmt_header_idempotent (col : string) :
  Pandas.fmt_header (Pandas.fmt_header col) = Pandas.fmt_header col /\
  Str.contains "_" (Pandas.fmt_header col) = false /\
  PandasV1.format_header col = Pandas.fmt_header col.
Proof.
  set (p := fun c => negb (Ascii.eqb c "_")).
  assert (Hl : forall c, p (Str.lower_char c) = p c)
    by (intros c; unfold p; now rewrite (proj2 (case_keeps_underscore c))).
  assert (Hu : forall c, p (Str.upper_char c) = p c)
    by (intros c; unfold p; now rewrite (proj1 (case_keeps_underscore c))).
  assert (Hrep : every p (Str.replace "_" " " col) = true).
  { apply (every_replace (fun _ => true)); [| reflexivity |].
    - intros c _ E. unfold p. now rewrite E.
    - induction col as [|c s IH]; cbn [every]; [reflexivity|exact IH]. }
  pose proof (split_whitespace_words p _ Hrep) as Hwords.
  pose proof (header_words_are_words p _ Hl Hu Hwords 0) as Hout.
  set (ws := Str.split_whitespace (Str.replace "_" " " col)) in *.
  set (ws' := map Pandas.header_word (combine (seq 0 (List.length ws)) ws)) in *.
  assert (Hunder : Str.contains "_" (Str.join " " ws') = false).
  { apply (every_contains p); [|reflexivity]. apply every_join; [reflexivity|].
    eapply Forall_impl; [|exact Hout]. intros w (_ & _ & Hw). exact Hw. }
  assert (Hfmt : Pandas.fmt_header col = Str.join " " ws') by reflexivity.
  split; [|split].
  - rewrite Hfmt. unfold Pandas.fmt_header at 1.
    rewrite (replace_absent _ _ _ Hunder).
    rewrite split_whitespace_join
      by (eapply Forall_impl; [|exact Hout]; intros w (H1 & H2 & _); auto).
    unfold ws'. rewrite length_header_words. now rewrite header_words_again.
  - rewrite Hfmt. exact Hunder.
  - unfold PandasV1.format_header. fold ws. rewrite format_words_spec. reflexivity.
Qed.

Lemma fmt_header_of_words (ws : list string) :
  Forall (fun w => w <> EmptyString /\
                   every (fun c => negb (Str.is_space c)) w = true /\
                   every (fun c => negb (Ascii.eqb c "_")) w = true) ws ->
  Pandas.fmt_header (Str.join " " ws) =
  Str.join " " (map Pandas.header_word (combine (seq 0 (List.length ws)) ws)).
Proof.
  intros H. unfold Pandas.fmt_header.
  assert (Hunder : Str.contains "_" (Str.join " " ws) = false).
  { apply (every_contains (fun c => negb (Ascii.eqb c "_"))); [|reflexivity].
    apply every_join; [reflexivity|].
    eapply Forall_impl; [|exact H]. intros w (_ & _ & Hw). exact Hw. }
  rewrite (replace_absent _ _ _ Hunder).
  rewrite split_whitespace_join
    by (eapply Forall_impl; [|exact H]; intros w (H1 & H2 & _); auto).
  reflexivity.
Qed.

Lemma digit_case (c : ascii) :
  is_digit c = true ->
  Str.lower_char c = c /\ Str.upper_char c = c /\ Ascii.eqb c "_" = false /\
  Ascii.eqb c "t" = false /\ Ascii.eqb c "f" = false /\ Ascii.eqb c "b" = false.
Proof.
  destruct c as [[] [] [] [] [] [] [] []]; cbn; intros H; try discriminate;
    repeat split; reflexivity.
Qed.

Lemma lower_digits (d : string) : every is_digit d = true -> Str.lower d = d.
Proof.
  induction d as [|c d IH]; cbn [every Str.lower]; [reflexivity|].
  intros H. apply andb_true_iff in H as [Hc Hd].
  rewrite (proj1 (digit_case c Hc)). now rewrite IH.
Qed.

Lemma header_word_digits (i : nat) (d : string) :
  every is_digit d = true -> Pandas.header_word (i, d) = d.
Proof.
  intros H. unfold Pandas.header_word. rewrite (lower_digits d H).
  destruct d as [|c d]; [now destruct (Nat.eqb i 0 || _)|].
  cbn [every] in H. apply andb_true_iff in H as [Hc Hd].
  destruct (digit_case c Hc) as (Hl & Hu & _ & Ht & Hf & Hb).
  assert (Hstop : existsb (String.eqb (String c d)) Pandas.stop = false).
  { unfold Pandas.stop. cbn [existsb String.eqb]. now rewrite Ht, Hf, Hb. }
  rewrite Hstop, orb_true_r. cbn [negb Str.capitalize].
  now rewrite Hu, (lower_digits d Hd).
Qed.

Lemma link_label_formatted (i : nat) (tmpl_words : list string) (q : string) :
  In tmpl_words [["Dropbox"; "Link"; "Image"]; ["F"; "Drive"; "Link"; "Image"]] ->
  In q ["Q1"; "Q2"; "Q3"; "Q4"] ->
  Pandas.fmt_header
    (Str.join " " (tmpl_words ++ [Str.decimal_nonneg (Z.of_nat i); q])%list) =
  Str.join " " (tmpl_words ++ [Str.decimal_nonneg (Z.of_nat i); q])%list.
Proof.
  intros Ht Hq.
  pose proof (every_decimal_nonneg (Z.of_nat i)) as Hd.
  assert (Hword : Str.decimal_nonneg (Z.of_nat i) <> EmptyString /\
                  every (fun c => negb (Str.is_space c)) (Str.decimal_nonneg (Z.of_nat i))
                  = true /\
                  every (fun c => negb (Ascii.eqb c "_")) (Str.decimal_nonneg (Z.of_nat i))
                  = true).
  { split; [|split].
    - destruct (decimal_nonneg_nonempty (Z.of_nat i) ltac:(lia)) as (c & r & -> & _).
      discriminate.
    - now apply digits_no_space.
    - eapply every_impl; [|exact Hd]. intros c Hc.
      now rewrite (proj1 (proj2 (proj2 (digit_case c Hc)))). }
  cbn [In] in Ht, Hq.
  destruct Ht as [ <- | [ <- | [] ] ];
    destruct Hq as [ <- | [ <- | [ <- | [ <- | [] ] ] ] ];
    (rewrite fmt_header_of_words;
     [ cbn [app List.length seq combine map];
       rewrite (header_word_digits _ _ Hd); reflexivity
     | cbn [app]; repeat (constructor; [first [exact Hword | now repeat split]|]);
       constructor ]).
Qed.

(** The headers the report is written with.  Header formatting runs
    after the renaming, so it leaves every link label as it is, whatever
    the month and the image number, but recases several of the names
    the script has just given: the file-name column and five of the
    eight empty tax columns are not written under the names they were
    given. *)
Theorem written_headers (month : Z) (i : nat) :
  Forall (fun l => Pandas.fmt_header l = l) (link_labels month i) /\
  map Pandas.fmt_header Pandas.renamed_headers =
    [ "For Sequence #"; "Sequence #"; "Filename Of Image for the Ut Tax Comm.";
      "Txn Invoice No"; "Txn Gross Amt" ] /\
  map Pandas.fmt_header Pandas.empty_tax_cols =
    [ "Ut + Sj Combined Sales Tax"; "Utah State Sales Tax";
      "San Juan County Sales Tax"; "Other Local Utah Tax";
      "Other Entity Collecting Tax"; "Sum Of Ut Tx Excl Chrgd by N.n.";
      "Nnogc Entity Tx Pd Amt"; "Poley Team Notes" ].
Proof.
  split; [|split; reflexivity].
  assert (Hq : In (Pandas.current_q month) [1; 2; 3; 4]).
  { unfold Pandas.current_q, q_map_get.
    destruct (find (fun kv : Z * Z => fst kv =? month) q_map) as [kv|] eqn:E.
    - apply find_some in E. destruct E as [E _]. simpl in E. simpl.
      repeat (destruct E as [<-|E]; [simpl; tauto|]). destruct E.
    - simpl. tauto. }
  unfold link_labels, Pandas.next_q, Pandas.label.
  rewrite (decimal_of_nonneg (Z.of_nat i)) by lia.
  cbn [In] in Hq.
  destruct Hq as [ <- | [ <- | [ <- | [ <- | [] ] ] ] ];
    repeat constructor;
    first
      [ apply (link_label_formatted i ["Dropbox"; "Link"; "Image"]);
        cbn [In]; tauto
      | apply (link_label_formatted i ["F"; "Drive"; "Link"; "Image"]);
        cbn [In]; tauto ].
Qed.

(** ** Paths typed by the user *)

Lemma rstrip_spaces (w : string) : every Str.is_space w = true -> Str.rstrip w = EmptyString.
Proof.
  induction w as [|c w IH]; cbn [every Str.rstrip]; [reflexivity|].
  intros H. apply andb_true_iff in H as [Hc Hw]. now rewrite (IH Hw), Hc.
Qed.

Lemma rstrip_trailing (s w : string) :
  every Str.is_space w = true -> Str.rstrip (s ++ w) = Str.rstrip s.
Proof.
  intros Hw. induction s as [|c s IH]; cbn [append Str.rstrip].
  - now apply rstrip_spaces.
  - now rewrite IH.
Qed.

Lemma strip_padded (pad1 pad2 s : string) (c : ascii) :
  every Str.is_space pad1 = true ->
  every Str.is_space pad2 = true ->
  Str.is_space c = false ->
  Str.rstrip (String c s) = String c s ->
  Str.strip (pad1 ++ String c s ++ pad2) = String c s.
Proof.
  intros H1 H2 Hc Hs. unfold Str.strip. rewrite lstrip_spaces by exact H1.
  cbn [append Str.lstrip]. rewrite Hc.
  change (String c (s ++ pad2)) with (String c s ++ pad2).
  now rewrite rstrip_trailing.
Qed.

Lemma delete_app (a : ascii) (s t : string) :
  Str.delete a (s ++ t) = Str.delete a s ++ Str.delete a t.
Proof.
  induction s as [|c s IH]; cbn [append Str.delete]; [reflexivity|].
  destruct (Ascii.eqb c a); cbn [append]; now rewrite IH.
Qed.

Lemma contains_delete_self (a : ascii) (s : string) :
  Str.contains a (Str.delete a s) = false.
Proof.
  induction s as [|c s IH]; cbn [Str.delete]; [reflexivity|].
  destruct (Ascii.eqb c a) eqn:E; [exact IH|]. cbn [Str.contains]. now rewrite E, IH.
Qed.

Lemma lstrip_of_head (chars : string) (c : ascii) (s : string) :
  Str.contains c chars = false -> Str.lstrip_of chars (String c s) = String c s.
Proof. intros H. cbn [Str.lstrip_of]. now rewrite H. Qed.

Lemma rstrip_of_none (chars s : string) :
  every (fun c => negb (Str.contains c chars)) s = true -> Str.rstrip_of chars s = s.
Proof.
  induction s as [|c s IH]; cbn [every Str.rstrip_of]; [reflexivity|].
  intros H. apply andb_true_iff in H as [Hc Hs]. apply negb_true_iff in Hc.
  rewrite (IH Hs), Hc. now destruct s.
Qed.

Lemma rstrip_of_app (chars s t : string) :
  t <> EmptyString -> Str.rstrip_of chars t = t ->
  Str.rstrip_of chars (s ++ t) = s ++ t.
Proof.
  intros Hne Ht. induction s as [|c s IH]; cbn [append Str.rstrip_of]; [exact Ht|].
  rewrite IH. destruct (s ++ t) eqn:E; [|reflexivity].
  destruct s; cbn [append] in E; [contradiction|discriminate].
Qed.

Lemma rstrip_of_last (chars s : string) (c : ascii) :
  Str.contains c chars = true ->
  every (fun x => negb (Str.contains x chars)) s = true ->
  Str.rstrip_of chars (s ++ String c EmptyString) = s.
Proof.
  intros Hc. induction s as [|d s IH]; cbn [append every Str.rstrip_of].
  - intros _. now rewrite Hc.
  - intros H. apply andb_true_iff in H as [Hd Hs]. apply negb_true_iff in Hd.
    rewrite (IH Hs). destruct s as [|e s]; [now rewrite Hd|reflexivity].
Qed.

Lemma strip_of_none (chars s : string) :
  every (fun c => negb (Str.contains c chars)) s = true -> Str.strip_of chars s = s.
Proof.
  intros H. unfold Str.strip_of.
  assert (Hl : Str.lstrip_of chars s = s).
  { destruct s as [|c s]; [reflexivity|]. cbn [every] in H.
    apply andb_true_iff in H as [Hc _]. apply negb_true_iff in Hc.
    now apply lstrip_of_head. }
  rewrite Hl. now apply rstrip_of_none.
Qed.

Lemma absent_every (a : ascii) (s : string) :
  Str.contains a s = false ->
  every (fun c => negb (Str.contains c (String a EmptyString))) s = true.
Proof.
  induction s as [|c s IH]; intros H; cbn [every]; [reflexivity|].
  cbn [Str.contains] in H. apply orb_false_iff in H as [Hc Hs].
  rewrite (IH Hs), andb_true_r.
  cbn [Str.contains]. rewrite orb_false_r. apply negb_true_iff.
  rewrite Ascii.eqb_sym. exact Hc.
Qed.

Lemma clean_path_unfold (path : string) :
  path <> EmptyString ->
  Pandas.clean_path path =
    Str.strip_of "'" (Str.strip_of (String dquote EmptyString) (Str.strip path)) /\
  Sqlite.clean_path path = Str.delete "'" (Str.delete dquote (Str.strip path)) /\
  PandasV1.clean_path path = Str.delete "'" (Str.delete dquote (Str.strip path)).
Proof. destruct path; [contradiction|]. repeat split; reflexivity. Qed.

(** A path pasted between double quotes, with or without blanks
    around the quotes, is cleaned by every version to the text between
    the quotes, provided that text holds no quote of either kind. *)
Theorem clean_path_quoted (pad1 pad2 p : string) :
  every Str.is_space pad1 = true ->
  every Str.is_space pad2 = true ->
  Str.contains dquote p = false ->
  Str.contains "'" p = false ->
  let typed := pad1 ++ String dquote (p ++ String dquote EmptyString) ++ pad2 in
  Sqlite.clean_path typed = p /\
  PandasV1.clean_path typed = p /\
  Pandas.clean_path typed = p.
Proof.
  intros H1 H2 Hd Ha typed.
  assert (Hstrip : Str.strip typed = String dquote (p ++ String dquote EmptyString)).
  { unfold typed. apply strip_padded; try assumption; [reflexivity|].
    change (String dquote (p ++ String dquote EmptyString))
      with (String dquote p ++ String dquote EmptyString).
    apply rstrip_app; [discriminate|reflexivity]. }
  assert (Hne : typed <> EmptyString).
  { intros E. rewrite E in Hstrip. discriminate. }
  assert (Hold : Str.delete "'" (Str.delete dquote (Str.strip typed)) = p).
  { rewrite Hstrip.
    assert (E : forall s : string, s ++ EmptyString = s)
      by (induction s as [|c s IHs]; cbn [append]; [reflexivity|now rewrite IHs]).
    cbn [Str.delete]. rewrite Ascii.eqb_refl, delete_app, (delete_absent dquote p Hd).
    cbn [Str.delete]. rewrite Ascii.eqb_refl, E. now apply delete_absent. }
  assert (Hnew : Str.strip_of "'" (Str.strip_of (String dquote EmptyString)
                                                 (Str.strip typed)) = p).
  { rewrite Hstrip. unfold Str.strip_of at 2.
    assert (Hl : Str.lstrip_of (String dquote EmptyString)
                   (String dquote (p ++ String dquote EmptyString))
                 = Str.lstrip_of (String dquote EmptyString)
                     (p ++ String dquote EmptyString)).
    { cbn [Str.lstrip_of Str.contains]. now rewrite Ascii.eqb_refl. }
    rewrite Hl. destruct p as [|c r].
    - cbn [append Str.lstrip_of Str.contains]. rewrite Ascii.eqb_refl. reflexivity.
    - cbn [Str.contains] in Hd. apply orb_false_iff in Hd as [Hc Hr].
      cbn [append]. rewrite lstrip_of_head
        by (cbn [Str.contains]; rewrite orb_false_r, Ascii.eqb_sym; exact Hc).
      change (String c (r ++ String dquote EmptyString))
        with (String c r ++ String dquote EmptyString).
      rewrite rstrip_of_last;
        [ |cbn [Str.contains]; now rewrite Ascii.eqb_refl
          |apply absent_every; cbn [Str.contains]; now rewrite Hc, Hr].
      apply strip_of_none. now apply absent_every. }
  destruct (clean_path_unfold typed Hne) as (-> & -> & ->). auto.
Qed.

Lemma clean_path_quoted_witness :
  every Str.is_space " " = true /\
  every Str.is_space EmptyString = true /\
  Str.contains dquote "C:\data\jib.xlsx" = false /\
  Str.contains "'" "C:\data\jib.xlsx" = false /\
  Pandas.clean_path (" " ++ String dquote ("C:\data\jib.xlsx" ++ String dquote EmptyString)
                         ++ EmptyString) = "C:\data\jib.xlsx".
Proof.
  assert (H1 : every Str.is_space " " = true) by reflexivity.
  assert (H2 : every Str.is_space EmptyString = true) by reflexivity.
  assert (H3 : Str.contains dquote "C:\data\jib.xlsx" = false) by reflexivity.
  assert (H4 : Str.contains "'" "C:\data\jib.xlsx" = false) by reflexivity.
  split; [exact H1|]. split; [exact H2|]. split; [exact H3|]. split; [exact H4|].
  exact (proj2 (proj2 (clean_path_quoted " " EmptyString "C:\data\jib.xlsx" H1 H2 H3 H4))).
Defined.

(** The SQLite and first pandas versions, which share one
    [clean_path], remove every quote: what they return never holds a
    double or a single quote, wherever in the path the quote stood. *)
Theorem clean_path_removes_quotes (path : string) :
  Str.contains dquote (Sqlite.clean_path path) = false /\
  Str.contains "'" (Sqlite.clean_path path) = false /\
  PandasV1.clean_path path = Sqlite.clean_path path.
Proof.
  split; [|split; [|reflexivity]].
  - unfold Sqlite.clean_path. destruct path; [reflexivity|].
    apply contains_delete, contains_delete_self.
  - unfold Sqlite.clean_path. destruct path; [reflexivity|].
    apply contains_delete_self.
Qed.

(** The versions part on an apostrophe inside the path, as in a
    folder name: the final version takes quotes off the two ends only
    and returns such a path as it was typed; the earlier versions return
    it without the apostrophe. *)
Theorem clean_path_inner_apostrophe (a b : string) :
  let plain := fun c => negb (Str.is_space c) && negb (Ascii.eqb c dquote)
                        && negb (Ascii.eqb c "'") in
  a <> EmptyString -> b <> EmptyString ->
  every plain a = true -> every plain b = true ->
  Pandas.clean_path (a ++ "'" ++ b) = a ++ "'" ++ b /\
  Sqlite.clean_path (a ++ "'" ++ b) = a ++ b.
Proof.
  intros plain Ha Hb Hpa Hpb.
  assert (Hsp : forall s, every plain s = true ->
                          every (fun c => negb (Str.is_space c)) s = true).
  { intros s. apply every_impl. intros c Hc. unfold plain in Hc.
    now repeat (apply andb_true_iff in Hc as [Hc _]). }
  assert (Hdq : forall s, every plain s = true -> Str.contains dquote s = false).
  { intros s Hs. apply (every_contains plain); [exact Hs|reflexivity]. }
  assert (Hap : forall s, every plain s = true -> Str.contains "'" s = false).
  { intros s Hs. apply (every_contains plain); [exact Hs|reflexivity]. }
  assert (Hstrip : Str.strip (a ++ "'" ++ b) = a ++ "'" ++ b).
  { apply strip_no_space. rewrite !every_app, (Hsp a Hpa), (Hsp b Hpb). reflexivity. }
  assert (Hne : a ++ "'" ++ b <> EmptyString) by (destruct a; [contradiction|discriminate]).
  destruct (clean_path_unfold _ Hne) as (-> & -> & _).
  rewrite Hstrip. split.
  - rewrite (strip_of_none (String dquote EmptyString)).
    2:{ apply absent_every. rewrite !contains_app, (Hdq a Hpa), (Hdq b Hpb). reflexivity. }
    unfold Str.strip_of.
    assert (Hl : Str.lstrip_of "'" (a ++ "'" ++ b) = a ++ "'" ++ b).
    { destruct a as [|c a]; [contradiction|]. cbn [append]. apply lstrip_of_head.
      cbn [every] in Hpa. apply andb_true_iff in Hpa as [Hc _]. unfold plain in Hc.
      apply andb_true_iff in Hc as [_ Hc]. apply negb_true_iff in Hc.
      cbn [Str.contains]. now rewrite orb_false_r, Ascii.eqb_sym. }
    rewrite Hl. rewrite <- string_append_assoc. apply rstrip_of_app; [exact Hb|].
    apply rstrip_of_none, absent_every, Hap, Hpb.
  - rewrite (delete_absent dquote)
      by (rewrite !contains_app, (Hdq a Hpa), (Hdq b Hpb); reflexivity).
    rewrite !delete_app, (delete_absent "'" a (Hap a Hpa)),
      (delete_absent "'" b (Hap b Hpb)). reflexivity.
Qed.

Lemma clean_path_inner_apostrophe_witness :
  "C:\data\O" <> EmptyString /\ "Neil\jib.xlsx" <> EmptyString /\
  Pandas.clean_path "C:\data\O'Neil\jib.xlsx" = "C:\data\O'Neil\jib.xlsx" /\
  Sqlite.clean_path "C:\data\O'Neil\jib.xlsx" = "C:\data\ONeil\jib.xlsx".
Proof.
  assert (H1 : "C:\data\O" <> EmptyString) by discriminate.
  assert (H2 : "Neil\jib.xlsx" <> EmptyString) by discriminate.
  split; [exact H1|]. split; [exact H2|].
  exact (clean_path_inner_apostrophe "C:\data\O" "Neil\jib.xlsx" H1 H2 eq_refl eq_refl).
Defined.

(** ** Invoice numbers *)

Lemma drop_dot_zero_cons (c : ascii) (s : string) :
  (c <> "."%char \/ s <> "0") ->
  drop_dot_zero (String c s) = String c (drop_dot_zero s).
Proof.
  intros H.
  destruct (Ascii.eqb c ".") eqn:Ec.
  - apply Ascii.eqb_eq in Ec. subst c. destruct H as [H|H]; [contradiction|].
    destruct s as [|d [|e s]]; try reflexivity.
    destruct (Ascii.eqb d "0") eqn:Ed.
    + apply Ascii.eqb_eq in Ed. subst d. contradiction.
    + destruct d as [[] [] [] [] [] [] [] []]; try reflexivity; discriminate.
    + destruct d as [[] [] [] [] [] [] [] []]; reflexivity.
  - destruct c as [[] [] [] [] [] [] [] []]; try reflexivity; discriminate.
Qed.

Lemma drop_dot_zero_float (s : string) : drop_dot_zero (s ++ ".0") = s.
Proof.
  induction s as [|c s IH]; [reflexivity|].
  cbn [append]. rewrite drop_dot_zero_cons; [now rewrite IH|].
  right. destruct s as [|d s]; [discriminate|]. cbn [append].
  destruct s; discriminate.
Qed.

Lemma drop_dot_zero_plain (s : string) :
  Str.contains "." s = false -> drop_dot_zero s = s.
Proof.
  induction s as [|c s IH]; [reflexivity|]. cbn [Str.contains].
  intros H. apply orb_false_iff in H as [Hc Hs].
  rewrite drop_dot_zero_cons; [now rewrite IH|].
  left. intros ->. discriminate.
Qed.

(** An invoice number that is a whole number is cleaned to the same
    text whether the file gave it as an integer or, as spreadsheets do,
    as a float ending in .0, and whatever blanks stand around it: the
    ledger and the reference file then agree on the merge key. *)
Theorem clean_invoice_no_whole_number (pad1 pad2 : string) (n : Z) :
  every Str.is_space pad1 = true ->
  every Str.is_space pad2 = true ->
  0 <= n ->
  clean_invoice_no (pad1 ++ (Str.decimal n ++ ".0") ++ pad2) = Str.decimal n /\
  clean_invoice_no (pad1 ++ Str.decimal n ++ pad2) = Str.decimal n.
Proof.
  intros H1 H2 Hn. rewrite decimal_of_nonneg by exact Hn.
  destruct (decimal_nonneg_nonempty n Hn) as (c & r & E & Hc).
  pose proof (every_decimal_nonneg n) as Hd.
  pose proof (rstrip_no_space _ (digits_no_space _ Hd)) as Hr.
  unfold clean_invoice_no. rewrite E in *. split.
  - change ((String c r ++ ".0") ++ pad2) with (String c (r ++ ".0") ++ pad2).
    rewrite strip_padded; try assumption.
    + change (String c (r ++ ".0")) with (String c r ++ ".0"). apply drop_dot_zero_float.
    + now apply digit_not_space.
    + change (String c (r ++ ".0")) with (String c r ++ ".0").
      apply rstrip_app; [discriminate|reflexivity].
  - rewrite strip_padded; try assumption.
    + apply drop_dot_zero_plain. apply (every_contains is_digit); [exact Hd|reflexivity].
    + now apply digit_not_space.
Qed.

Lemma clean_invoice_no_whole_number_witness :
  every Str.is_space " " = true /\
  every Str.is_space EmptyString = true /\
  0 <= 10452 /\
  clean_invoice_no " 10452.0" = "10452" /\
  clean_invoice_no " 10452" = "10452".
Proof.
  assert (H1 : every Str.is_space " " = true) by reflexivity.
  assert (H2 : every Str.is_space EmptyString = true) by reflexivity.
  assert (H3 : 0 <= 10452) by lia.
  split; [exact H1|]. split; [exact H2|]. split; [exact H3|].
  exact (clean_invoice_no_whole_number " " EmptyString 10452 H1 H2 H3).
Defined.

(** ** The file of a month *)

Lemma digit_prefix_unique (d1 : string) :
  forall d2 c1 c2 t1 t2,
    every is_digit d1 = true -> every is_digit d2 = true ->
    is_digit c1 = false -> is_digit c2 = false ->
    d1 ++ String c1 t1 = d2 ++ String c2 t2 ->
    d1 = d2 /\ String c1 t1 = String c2 t2.
Proof.
  induction d1 as [|x d1 IH]; intros [|y d2] c1 c2 t1 t2 H1 H2 Hc1 Hc2 E;
    cbn [append every] in *.
  - auto.
  - injection E as -> _. apply andb_true_iff in H2 as [H2 _]. congruence.
  - injection E as -> _. apply andb_true_iff in H1 as [H1 _]. congruence.
  - injection E as -> E. apply andb_true_iff in H1 as [_ H1].
    apply andb_true_iff in H2 as [_ H2].
    destruct (IH d2 c1 c2 t1 t2 H1 H2 Hc1 Hc2 E) as [-> E']. auto.
Qed.

Lemma decimal_nonneg_injective (n m : Z) :
  0 <= n -> 0 <= m -> Str.decimal_nonneg n = Str.decimal_nonneg m -> n = m.
Proof.
  intros Hn Hm E.
  pose proof (digits_decimal_nonneg n false EmptyString Hn) as H1.
  pose proof (digits_decimal_nonneg m false EmptyString Hm) as H2.
  fold (Str.decimal_nonneg n) in H1. fold (Str.decimal_nonneg m) in H2.
  rewrite E in H1. cbn [Str.digits] in H1, H2. congruence.
Qed.

(** Two months get two different files, and so do two years: the
    name of the workbook determines the year and the month it was
    written for, so within a run no month overwrites the file of
    another. *)
Theorem out_filename_injective (y1 y2 m1 m2 : Z) :
  0 <= y1 -> 0 <= y2 -> 0 <= m1 -> 0 <= m2 ->
  out_filename y1 m1 = out_filename y2 m2 ->
  y1 = y2 /\ m1 = m2.
Proof.
  intros Hy1 Hy2 Hm1 Hm2 E. unfold out_filename in E.
  rewrite !decimal_of_nonneg in E by assumption.
  change (" " ++ Str.zfill 2 m1 ++ " Sales Tax - NNOGC PY d1-4.xlsx")
    with (String " " (Str.zfill 2 m1 ++ " Sales Tax - NNOGC PY d1-4.xlsx")) in E.
  change (" " ++ Str.zfill 2 m2 ++ " Sales Tax - NNOGC PY d1-4.xlsx")
    with (String " " (Str.zfill 2 m2 ++ " Sales Tax - NNOGC PY d1-4.xlsx")) in E.
  apply digit_prefix_unique in E as [Ey Em];
    [|apply every_decimal_nonneg|apply every_decimal_nonneg|reflexivity|reflexivity].
  split; [now apply decimal_nonneg_injective|].
  injection Em as Em. apply append_cancel_r in Em. now apply (zfill_injective 2).
Qed.

Lemma out_filename_injective_witness :
  0 <= 2024 /\ 0 <= 2 /\
  out_filename 2024 2 = "2024 02 Sales Tax - NNOGC PY d1-4.xlsx" /\
  (2024 = 2024 /\ 2 = 2).
Proof.
  assert (Hy : 0 <= 2024) by lia. assert (Hm : 0 <= 2) by lia.
  split; [exact Hy|]. split; [exact Hm|]. split; [reflexivity|].
  exact (out_filename_injective 2024 2024 2 2 Hy Hy Hm Hm eq_refl).
Defined.

(** ** The two pandas versions *)

(** The first and the final pandas version pre-process a ledger to
    the same frame whenever every gross amount that is present parses
    as a number; they part only on text that is no number, which the
    first version keeps as a missing amount and the final one drops. *)
Theorem pandas_versions_preprocess_alike (cols : columns) (df_jib : list raw_row) :
  (forall r, In r df_jib ->
             txn_gross_amt r <> NaN -> clean_currency (txn_gross_amt r) <> None) ->
  PandasV1.preprocess cols df_jib = Pandas.preprocess cols df_jib.
Proof.
  intros H. unfold PandasV1.preprocess, Pandas.preprocess.
  destruct (has_gross cols); [|reflexivity].
  assert (E : map (fun r : raw_row => with_gross r (clean_currency (txn_gross_amt r)))
                  (filter (fun r : raw_row =>
                             match txn_gross_amt r with NaN => false | _ => true end)
                          df_jib)
              = filter (fun r : txn => notna (txn_gross_amt r))
                       (map (fun r : raw_row =>
                               with_gross r (clean_currency (txn_gross_amt r))) df_jib)).
  { rewrite filter_map_swap. apply f_equal. apply filter_ext_in. intros r Hr.
    cbn [with_gross txn_gross_amt]. specialize (H r Hr).
    destruct (txn_gross_amt r) as [|q|s] eqn:Hcell; [reflexivity|reflexivity|].
    destruct (clean_currency (Text s)) eqn:Hclean; [reflexivity|].
    exfalso. apply H; [discriminate|reflexivity]. }
  cbv zeta. destruct (has_invoice cols); [apply f_equal|]; exact E.
Qed.

Lemma pandas_versions_preprocess_alike_witness :
  (forall r, In r (map as_raw maryboy_ledger) ->
             txn_gross_amt r <> NaN -> clean_currency (txn_gross_amt r) <> None) /\
  PandasV1.preprocess all_columns (map as_raw maryboy_ledger) =
  Pandas.preprocess all_columns (map as_raw maryboy_ledger).
Proof.
  assert (H : forall r, In r (map as_raw maryboy_ledger) ->
                        txn_gross_amt r <> NaN ->
                        clean_currency (txn_gross_amt r) <> None).
  { intros r [<-|[<-|[]]] _; discriminate. }
  split; [exact H|].
  exact (pandas_versions_preprocess_alike all_columns (map as_raw maryboy_ledger) H).
Defined.
